(** * CardtoImagePlugin: the conversion pipeline of [src/plugin.ts]

    A shallow embedding of the TypeScript plugin that renders a card to
    a PNG or JPEG image: option merging and validation, the resource
    inliner, the render step that drives the headless browser, and the
    [convert] orchestrator.

    Layout: the pieces of the JavaScript runtime the plugin relies on
    (optional properties, Numbers as binary64 values, strings, regular
    expressions and [String.prototype.replace], base64); the
    declarations of [types.ts]; the collaborators and the effects of a
    conversion, as a trace of calls; the functions of [plugin.ts] in
    source order; the vocabulary of the statements; the theorems. *)

From Stdlib Require Import ZArith Bool List Ascii String Lia QArith Qround Qabs.
From Stdlib Require Import SpecFloat DecimalString.
Import ListNotations.

Local Open Scope string_scope.
Local Open Scope Z_scope.

(* ===================================================================== *)
(** * JavaScript runtime *)
(* ===================================================================== *)

(** ** Optional properties

    An object property is either not an own property of the object, or
    present with the value [undefined], or present with a value.  Reading
    gives [undefined] in the first two cases; object spread copies the
    last two. *)
Inductive field (A : Type) : Type :=
| Absent
| Undefined
| Present (a : A).
Arguments Absent {A}.
Arguments Undefined {A}.
Arguments Present {A} a.

(** [o.p]: [None] stands for [undefined]. *)
Definition read {A} (f : field A) : option A :=
  match f with
  | Present a => Some a
  | _ => None
  end.

(** One property of [{...a, ...b}]. *)
Definition spread {A} (a b : field A) : field A :=
  match b with
  | Absent => a
  | _ => b
  end.

(** [x ?? d] *)
Definition nullish {A} (x : option A) (d : A) : A :=
  match x with
  | Some a => a
  | None => d
  end.
Infix "??" := nullish (at level 45, left associativity).

(** ** Numbers

    A JavaScript Number is an IEEE 754 binary64 value; the Standard
    Library's executable specification of binary floating point is used
    at precision 53 and maximal exponent 1024. *)
Module Number.

Definition number := spec_float.

Definition prec : Z := 53.
Definition emax : Z := 1024.

Definition NaN : number := S754_nan.

(** An integer literal, or the conversion of an integral value of the
    host (correctly rounded beyond 2^53). *)
Definition of_Z (z : Z) : number := binary_normalize prec emax z 0 false.

Definition ltb (x y : number) : bool := SFltb x y.   (* x < y  *)
Definition leb (x y : number) : bool := SFleb x y.   (* x <= y *)
Definition gtb (x y : number) : bool := SFltb y x.   (* x > y  *)
Definition mul (x y : number) : number := SFmul prec emax x y.

Definition isNaN (x : number) : bool :=
  match x with S754_nan => true | _ => false end.

Definition is_neg_zero (x : number) : bool :=
  match x with S754_zero true => true | _ => false end.

(** [Math.max] of two values: NaN is contagious and +0 is above -0. *)
Definition max2 (a b : number) : number :=
  if isNaN a || isNaN b then NaN
  else if ltb a b then b
  else if ltb b a then a
  else if is_neg_zero a then b else a.

(** [Math.max(x1, ..., xn)], which starts from -Infinity. *)
Definition Math_max (l : list number) : number :=
  fold_left max2 l (S754_infinity true).

(** The exact value of a finite Number scaled by [2^k], for [k] large
    enough to make it an integer: [m * 2^(e+k)] with its sign. *)
Definition signed (s : bool) (m : positive) : Z := cond_Zopp s (Zpos m).

(** [Math.round]: the closest integral Number, ties towards +Infinity;
    an integral argument, a NaN or an infinity is returned as it is,
    and a result that is zero keeps the sign of the argument. *)
Definition Math_round (x : number) : number :=
  match x with
  | S754_finite s m e =>
      if 0 <=? e then x
      else
        let den := 2 ^ (- e) in
        let n := (2 * signed s m + den) / (2 * den) in
        if n =? 0 then S754_zero s else of_Z n
  | _ => x
  end.

(** The exact rational value of a finite Number. *)
Definition value (x : number) : option Q :=
  match x with
  | S754_zero _ => Some 0%Q
  | S754_finite s m e =>
      Some (if 0 <=? e then inject_Z (signed s m * 2 ^ e)
            else Qmake (signed s m) (Z.to_pos (2 ^ (- e))))
  | _ => None
  end.

(** *** Number::toString (radix 10)

    The digits are the shortest decimal that converts back to the
    same Number; among those the closest to the exact value, the even
    one on a tie. *)

Definition pow10 (j : Z) : Q :=
  if 0 <=? j then inject_Z (10 ^ j) else Qmake 1 (Z.to_pos (10 ^ (- j))).

(** The least [n] from [lo] on, within [fuel] steps, with [v < 10^n]. *)
Fixpoint decimal_exponent (fuel : nat) (lo : Z) (v : Q) : Z :=
  match fuel with
  | O => lo
  | S fuel' =>
      if Qle_bool (pow10 lo) v then decimal_exponent fuel' (lo + 1) v else lo
  end.

(** The open or closed interval of the reals that round to the
    positive finite Number [m * 2^e]: [(low, high, closed)]. *)
Definition rounding_interval (m : positive) (e : Z) : Q * Q * bool :=
  let q (a : Z) (x : Z) : Q :=
    if 0 <=? x then inject_Z (a * 2 ^ x) else Qmake a (Z.to_pos (2 ^ (- x))) in
  let low :=
    if (Zpos m =? 2 ^ (prec - 1)) && (3 - emax - prec <? e)
    then q (4 * Zpos m - 1) (e - 2)
    else q (2 * Zpos m - 1) (e - 1) in
  (low, q (2 * Zpos m + 1) (e - 1), Z.even (Zpos m)).

Definition in_interval (i : Q * Q * bool) (d : Q) : bool :=
  let '(low, high, closed) := i in
  if closed then Qle_bool low d && Qle_bool d high
  else negb (Qle_bool d low) && negb (Qle_bool high d).

(** The digit string [s] with [k] digits for [v], if one of the two
    [k]-digit decimals around [v] lies in the rounding interval. *)
Definition digits_at (i : Q * Q * bool) (v : Q) (n k : Z) : option Z :=
  let scale := pow10 (k - n) in
  let s_lo := Qfloor (v * scale) in
  let s_hi := s_lo + 1 in
  let d_lo := (inject_Z s_lo / scale)%Q in
  let d_hi := (inject_Z s_hi / scale)%Q in
  match in_interval i d_lo, in_interval i d_hi with
  | true, false => Some s_lo
  | false, true => Some s_hi
  | false, false => None
  | true, true =>
      match Qcompare (v - d_lo) (d_hi - v) with
      | Lt => Some s_lo
      | Gt => Some s_hi
      | Eq => Some (if Z.even s_lo then s_lo else s_hi)
      end
  end.

(** The least number of digits [k], counted from [k], with its digit
    string; [17] digits always suffice for binary64. *)
Fixpoint shortest (fuel : nat) (i : Q * Q * bool) (v : Q) (n k : Z)
  : Z * Z * Z :=
  match fuel with
  | O => (Qfloor (v * pow10 (k - n)), n, k)
  | S fuel' =>
      match digits_at i v n k with
      | Some s => if s =? 10 ^ k then (10 ^ (k - 1), n + 1, k) else (s, n, k)
      | None => shortest fuel' i v n (k + 1)
      end
  end.

Definition digits (z : Z) : string := NilZero.string_of_uint (N.to_uint (Z.to_N z)).

Fixpoint zeros (n : nat) : string :=
  match n with
  | O => ""
  | S n' => "0" ++ zeros n'
  end.

Definition toString_positive (m : positive) (e : Z) : string :=
  let v := if 0 <=? e then inject_Z (Zpos m * 2 ^ e)
           else Qmake (Zpos m) (Z.to_pos (2 ^ (- e))) in
  let n0 := if Qle_bool 1 v then decimal_exponent 310 1 v
            else decimal_exponent 330 (-324) v in
  let '(s, n, k) := shortest 17 (rounding_interval m e) v n0 1 in
  let ds := digits s in
  let kn := Z.to_nat k in
  if (k <=? n) && (n <=? 21) then ds ++ zeros (Z.to_nat (n - k))
  else if (0 <? n) && (n <=? 21) then
    substring 0 (Z.to_nat n) ds ++ "." ++ substring (Z.to_nat n) (kn - Z.to_nat n) ds
  else if (-6 <? n) && (n <=? 0) then
    "0." ++ zeros (Z.to_nat (- n)) ++ ds
  else
    let ex := n - 1 in
    let sign := if ex <? 0 then "-" else "+" in
    let mant := if k =? 1 then ds
                else substring 0 1 ds ++ "." ++ substring 1 (kn - 1) ds in
    mant ++ "e" ++ sign ++ digits (Z.abs ex).

(** [String(x)], the conversion a template literal applies. *)
Definition toString (x : number) : string :=
  match x with
  | S754_nan => "NaN"
  | S754_zero _ => "0"
  | S754_infinity s => if s then "-Infinity" else "Infinity"
  | S754_finite s m e =>
      (if s then "-" else "") ++ toString_positive m e
  end.

End Number.
Export Number(number).


(** Numeric literals of the source are written [num 30]. *)
Definition num (z : Z) : number := Number.of_Z z.

(** ** Strings

    A string is a sequence of code units; the model keeps the 8-bit
    ones, so a non-ASCII character of a message is the sequence of its
    UTF-8 bytes, and case mapping is the one of ASCII letters. *)

Definition dquote : string := String (ascii_of_nat 34) "".
Definition newline : string := String (ascii_of_nat 10) "".

Definition is_upper (c : ascii) : bool :=
  let n := nat_of_ascii c in (65 <=? n)%nat && (n <=? 90)%nat.
Definition is_lower (c : ascii) : bool :=
  let n := nat_of_ascii c in (97 <=? n)%nat && (n <=? 122)%nat.
Definition is_digit (c : ascii) : bool :=
  let n := nat_of_ascii c in (48 <=? n)%nat && (n <=? 57)%nat.

Definition char_toUpperCase (c : ascii) : ascii :=
  if is_lower c then ascii_of_nat (nat_of_ascii c - 32) else c.
Definition char_toLowerCase (c : ascii) : ascii :=
  if is_upper c then ascii_of_nat (nat_of_ascii c + 32) else c.

Fixpoint toLowerCase (s : string) : string :=
  match s with
  | "" => ""
  | String c s' => String (char_toLowerCase c) (toLowerCase s')
  end.

(** [s.endsWith(suffix)] *)
Definition endsWith (s suffix : string) : bool :=
  let n := String.length s in
  let k := String.length suffix in
  (k <=? n)%nat && String.eqb (substring (n - k) k s) suffix.

(** [s.split(sep)] for a one-character separator; [cur] is the piece
    being read.  The result is never empty. *)
Fixpoint split_from (sep : ascii) (cur : string) (s : string) : list string :=
  match s with
  | "" => [cur]
  | String c s' =>
      if Ascii.eqb c sep then cur :: split_from sep "" s'
      else split_from sep (cur ++ String c "") s'
  end.

Definition split (s : string) (sep : ascii) : list string := split_from sep "" s.

(** [a.pop()], as far as its value goes. *)
Fixpoint pop {A} (a : list A) : option A :=
  match a with
  | [] => None
  | [x] => Some x
  | _ :: rest => pop rest
  end.

(** [a.join(sep)] *)
Fixpoint join (sep : string) (a : list string) : string :=
  match a with
  | [] => ""
  | [x] => x
  | x :: rest => x ++ sep ++ join sep rest
  end.

(** [a.includes(x)] on strings. *)
Definition includes (a : list string) (x : string) : bool :=
  existsb (String.eqb x) a.

(** ** Regular expressions

    The fragment of the pattern language the plugin writes: pattern
    characters, identity escapes, character classes without ranges, the
    greedy star of a single-character term, capturing groups with
    alternatives and the end assertion; flags [g] and [i].  Matching is
    the backtracking matcher of the language, in continuation-passing
    style. *)
Module RegExp.

Inductive charset : Type :=
| Lit (c : ascii)
| Class (negated : bool) (members : list ascii).

Inductive node : Type :=
| Empty
| One (cs : charset)
| Star (cs : charset)
| Seq (r1 r2 : node)
| Alt (r1 r2 : node)
| Group (i : nat) (r : node)
| AssertEnd.

Record regexp : Type := {
  source : node;
  global : bool;
  ignoreCase : bool;
  groups : nat
}.

(** *** Parsing a pattern *)

Inductive token : Type :=
| TAtom (cs : charset)
| TStar
| TOpen
| TClose
| TBar
| TDollar.

Definition syntax_characters : list ascii :=
  list_ascii_of_string "^$\.*+?()[]{}|".

Definition is_syntax_character (c : ascii) : bool :=
  existsb (Ascii.eqb c) syntax_characters.

Inductive lexer_mode : Type :=
| Normal
| ClassStart
| InClass (negated : bool) (members : list ascii).

(** [escaped] tells that the previous character was a backslash.
    [None]: the pattern is outside the fragment (or not a pattern). *)
Fixpoint tokenize (md : lexer_mode) (escaped : bool) (p : string)
  : option (list token) :=
  match p with
  | "" =>
      match md, escaped with
      | Normal, false => Some []
      | _, _ => None
      end
  | String c p' =>
      match md with
      | Normal =>
          if escaped then
            if is_syntax_character c || Ascii.eqb c "/"
            then option_map (cons (TAtom (Lit c))) (tokenize Normal false p')
            else None
          else if is_syntax_character c then
            if Ascii.eqb c "\" then tokenize Normal true p'
            else if Ascii.eqb c "[" then tokenize ClassStart false p'
            else if Ascii.eqb c "*" then option_map (cons TStar) (tokenize Normal false p')
            else if Ascii.eqb c "(" then option_map (cons TOpen) (tokenize Normal false p')
            else if Ascii.eqb c ")" then option_map (cons TClose) (tokenize Normal false p')
            else if Ascii.eqb c "|" then option_map (cons TBar) (tokenize Normal false p')
            else if Ascii.eqb c "$" then option_map (cons TDollar) (tokenize Normal false p')
            else None
          else option_map (cons (TAtom (Lit c))) (tokenize Normal false p')
      | ClassStart =>
          if Ascii.eqb c "^" then tokenize (InClass true []) false p'
          else if Ascii.eqb c "]"
            then option_map (cons (TAtom (Class false []))) (tokenize Normal false p')
          else if Ascii.eqb c "\" then tokenize (InClass false []) true p'
          else if Ascii.eqb c "-" then None
          else tokenize (InClass false [c]) false p'
      | InClass neg ms =>
          if escaped then
            if is_syntax_character c || Ascii.eqb c "/" || Ascii.eqb c "-"
            then tokenize (InClass neg (ms ++ [c])%list) false p'
            else None
          else if Ascii.eqb c "]"
            then option_map (cons (TAtom (Class neg ms))) (tokenize Normal false p')
          else if Ascii.eqb c "\" then tokenize (InClass neg ms) true p'
          else if Ascii.eqb c "-" then None
          else tokenize (InClass neg (ms ++ [c])%list) false p'
      end
  end.

(** A group under construction: its index, the alternatives that are
    complete and the terms of the current one. *)
Record frame : Type := {
  index : nat;
  alternatives : list node;
  terms : list node
}.

Definition seq_of (l : list node) : node := fold_right Seq Empty l.

Fixpoint alt_of (first : node) (others : list node) : node :=
  match others with
  | [] => first
  | x :: rest => Alt first (alt_of x rest)
  end.

Definition close_frame (f : frame) : node :=
  match (f.(alternatives) ++ [seq_of f.(terms)])%list with
  | [] => Empty
  | x :: rest => alt_of x rest
  end.

Definition add_term (f : frame) (t : node) : frame :=
  {| index := f.(index); alternatives := f.(alternatives);
     terms := (f.(terms) ++ [t])%list |}.

(** Star applies to the last term, which must be a single character. *)
Definition star_last (f : frame) : option frame :=
  match rev f.(terms) with
  | One cs :: before =>
      Some {| index := f.(index); alternatives := f.(alternatives);
              terms := (rev before ++ [Star cs])%list |}
  | _ => None
  end.

Fixpoint build (ts : list token) (cur : frame) (stack : list frame)
               (next : nat) : option (node * nat) :=
  match ts with
  | [] =>
      match stack with
      | [] => Some (close_frame cur, next)
      | _ :: _ => None
      end
  | t :: ts' =>
      match t with
      | TAtom cs => build ts' (add_term cur (One cs)) stack next
      | TDollar => build ts' (add_term cur AssertEnd) stack next
      | TStar =>
          match star_last cur with
          | Some cur' => build ts' cur' stack next
          | None => None
          end
      | TOpen =>
          build ts' {| index := next; alternatives := []; terms := [] |}
                (cur :: stack) (S next)
      | TBar =>
          build ts' {| index := cur.(index);
                       alternatives := (cur.(alternatives) ++ [seq_of cur.(terms)])%list;
                       terms := [] |} stack next
      | TClose =>
          match stack with
          | parent :: stack' =>
              build ts' (add_term parent (Group cur.(index) (close_frame cur)))
                    stack' next
          | [] => None
          end
      end
  end.

(** The flags [g] and [i], the ones [plugin.ts] uses, each at most
    once.  The other flags of the language are outside the model, which
    has [None] for them as for a repeated flag. *)
Fixpoint parse_flags (fl : string) (g i : bool) : option (bool * bool) :=
  match fl with
  | "" => Some (g, i)
  | String c fl' =>
      if Ascii.eqb c "g" then (if g then None else parse_flags fl' true i)
      else if Ascii.eqb c "i" then (if i then None else parse_flags fl' g true)
      else None
  end.

(** [new RegExp(pattern, flags)]; [None] is the SyntaxError. *)
Definition RegExp_new (pattern flags : string) : option regexp :=
  match tokenize Normal false pattern, parse_flags flags false false with
  | Some ts, Some (g, i) =>
      match build ts {| index := 0; alternatives := []; terms := [] |} [] 1 with
      | Some (r, next) =>
          Some {| source := r; global := g; ignoreCase := i;
                  groups := Nat.pred next |}
      | None => None
      end
  | _, _ => None
  end.

Definition never : regexp :=
  {| source := One (Class false []); global := false; ignoreCase := false;
     groups := 0 |}.

(** A regular expression literal [/pattern/flags] of the source. *)
Definition literal (pattern flags : string) : regexp :=
  match RegExp_new pattern flags with
  | Some re => re
  | None => never
  end.

(** *** Matching *)

(** Canonicalize, without the [u] flag.  Under the flag [i] the model
    folds the ASCII letters.  An engine folds other letters as well,
    onto each other and never onto an ASCII character, so the model is
    exact for a pattern whose characters are ASCII, and without the
    flag [i] for every pattern. *)
Definition canonicalize (i : bool) (c : ascii) : ascii :=
  if i then char_toUpperCase c else c.

Definition charset_matches (i : bool) (cs : charset) (c : ascii) : bool :=
  match cs with
  | Lit a => Ascii.eqb (canonicalize i a) (canonicalize i c)
  | Class negated members =>
      xorb negated
           (existsb (fun a => Ascii.eqb (canonicalize i a) (canonicalize i c))
                    members)
  end.

(** Captures of groups 1, 2, ...: [None] is [undefined]. *)
Definition captures := list (option string).

Fixpoint set_capture (n : nat) (v : string) (c : captures) : captures :=
  match n, c with
  | O, _ => c
  | S O, _ :: c' => Some v :: c'
  | S n', x :: c' => x :: set_capture n' v c'
  | _, [] => []
  end.

(** The part of [s] that precedes its suffix [rest]. *)
Definition consumed (s rest : string) : string :=
  substring 0 (String.length s - String.length rest) s.

Definition continuation : Type := string -> captures -> option (string * captures).

(** [Star cs] followed by [k]: as many characters as possible, giving
    one back at a time while [k] fails. *)
Fixpoint match_star (i : bool) (cs : charset) (k : continuation)
                    (s : string) (c : captures) : option (string * captures) :=
  match s with
  | String x s' =>
      if charset_matches i cs x then
        match match_star i cs k s' c with
        | Some r => Some r
        | None => k s c
        end
      else k s c
  | "" => k s c
  end.

Fixpoint match_node (i : bool) (r : node) (k : continuation)
                    (s : string) (c : captures) : option (string * captures) :=
  match r with
  | Empty => k s c
  | One cs =>
      match s with
      | String x s' => if charset_matches i cs x then k s' c else None
      | "" => None
      end
  | Star cs => match_star i cs k s c
  | Seq r1 r2 => match_node i r1 (match_node i r2 k) s c
  | Alt r1 r2 =>
      match match_node i r1 k s c with
      | Some res => Some res
      | None => match_node i r2 k s c
      end
  | Group n r' =>
      match_node i r' (fun s' c' => k s' (set_capture n (consumed s s') c')) s c
  | AssertEnd =>
      match s with
      | "" => k s c
      | String _ _ => None
      end
  end.

(** A match that starts at the beginning of [s]: the rest of [s]
    after the match, and the captures. *)
Definition match_at (re : regexp) (s : string) : option (string * captures) :=
  match_node re.(ignoreCase) re.(source) (fun s' c' => Some (s', c')) s
             (repeat None re.(groups)).

(** [re.test(s)] for a regular expression without the [g] flag, and
    the question whether [s.replace(re, ...)] finds anything: is there
    a match at some position of [s]? *)
Fixpoint test (re : regexp) (s : string) : bool :=
  match match_at re s with
  | Some _ => true
  | None =>
      match s with
      | "" => false
      | String _ s' => test re s'
      end
  end.

(** [re.exec(s)] from the start of [s]: the leftmost match, as the
    text before it, the matched text and the text after it. *)
Fixpoint search (re : regexp) (s : string) : option (string * string * string) :=
  match match_at re s with
  | Some (rest, _) => Some ("", consumed s rest, rest)
  | None =>
      match s with
      | "" => None
      | String x s' =>
          match search re s' with
          | Some (pre, m, post) => Some (String x pre, m, post)
          | None => None
          end
      end
  end.

(** *** Replacement

    [GetSubstitution]: the replacement text for one match, with the
    [$] patterns of the template expanded. *)
Section Substitution.
Variables (matched before after : string) (caps : captures).

Definition digit_value (c : ascii) : nat := nat_of_ascii c - 48.

Definition capture_text (n : nat) : string :=
  match nth_error caps (n - 1) with
  | Some (Some v) => v
  | _ => ""
  end.

Definition is_capture (n : nat) : bool :=
  (1 <=? n)%nat && (n <=? List.length caps)%nat.

Fixpoint GetSubstitution (template : string) : string :=
  match template with
  | "" => ""
  | String c t =>
      if negb (Ascii.eqb c "$") then String c (GetSubstitution t) else
      match t with
      | "" => "$"
      | String d t' =>
          if Ascii.eqb d "$" then "$" ++ GetSubstitution t'
          else if Ascii.eqb d "&" then matched ++ GetSubstitution t'
          else if Ascii.eqb d "`" then before ++ GetSubstitution t'
          else if Ascii.eqb d "'" then after ++ GetSubstitution t'
          else if is_digit d then
            let one := digit_value d in
            let single :=
              if is_capture one then capture_text one ++ GetSubstitution t'
              else String "$" (GetSubstitution t) in
            match t' with
            | String d2 t'' =>
                if is_digit d2 then
                  let two := (10 * one + digit_value d2)%nat in
                  if (List.length caps <? two)%nat then single
                  else if is_capture two
                       then capture_text two ++ GetSubstitution t''
                       else String "$" (GetSubstitution t)
                else single
            | "" => single
            end
          else String "$" (GetSubstitution t)
      end
  end.
End Substitution.

(** [s.replace(re, template)] for a regular expression with the [g]
    flag, from a position of the subject on: [before] is the subject up
    to that position, [skip] the number of characters that the previous
    match still covers.  After an empty match the search moves on by
    one character. *)
Fixpoint replace_from (re : regexp) (template : string) (before : string)
                      (skip : nat) (s : string) : string :=
  match skip, s with
  | S n, String x s' => replace_from re template (before ++ String x "") n s'
  | S _, "" => ""
  | O, _ =>
      match match_at re s with
      | Some (rest, caps) =>
          let matched := consumed s rest in
          let replacement := GetSubstitution matched before rest caps template in
          match s with
          | "" => replacement
          | String x s' =>
              match String.length matched with
              | O => replacement ++
                     String x (replace_from re template (before ++ String x "") 0 s')
              | S n => replacement ++
                       replace_from re template (before ++ String x "") n s'
              end
          end
      | None =>
          match s with
          | "" => ""
          | String x s' =>
              String x (replace_from re template (before ++ String x "") 0 s')
          end
      end
  end.

(** The same without the [g] flag: only the leftmost match is
    replaced. *)
Fixpoint replace_first (re : regexp) (template : string) (before : string)
                       (s : string) : string :=
  match match_at re s with
  | Some (rest, caps) =>
      GetSubstitution (consumed s rest) before rest caps template ++ rest
  | None =>
      match s with
      | "" => ""
      | String x s' => String x (replace_first re template (before ++ String x "") s')
      end
  end.

(** [s.replace(re, template)] *)
Definition replace (s : string) (re : regexp) (template : string) : string :=
  if re.(global) then replace_from re template "" 0 s
  else replace_first re template "" s.

End RegExp.

(** ** Byte arrays and base64 *)

Definition bytes := list Byte.byte.

Definition base64_alphabet : list ascii :=
  list_ascii_of_string
    "ABCDEFGHIJKLMNOPQRSTUVWXYZabcdefghijklmnopqrstuvwxyz0123456789+/".

Definition base64_digit (n : N) : string :=
  String (nth (N.to_nat n) base64_alphabet "="%char) "".

(** [Buffer.from(b).toString('base64')], and [btoa] of the binary string
    of [b]: the standard alphabet, padded with [=]. *)
Fixpoint base64_encode (b : bytes) : string :=
  match b with
  | [] => ""
  | [x] =>
      let n := Byte.to_N x in
      base64_digit (N.shiftr n 2) ++ base64_digit (N.shiftl (N.land n 3) 4) ++ "=="
  | [x; y] =>
      let n := Byte.to_N x in
      let m := Byte.to_N y in
      base64_digit (N.shiftr n 2)
      ++ base64_digit (N.lor (N.shiftl (N.land n 3) 4) (N.shiftr m 4))
      ++ base64_digit (N.shiftl (N.land m 15) 2) ++ "="
  | x :: y :: z :: rest =>
      let n := Byte.to_N x in
      let m := Byte.to_N y in
      let k := Byte.to_N z in
      base64_digit (N.shiftr n 2)
      ++ base64_digit (N.lor (N.shiftl (N.land n 3) 4) (N.shiftr m 4))
      ++ base64_digit (N.lor (N.shiftl (N.land m 15) 2) (N.shiftr k 6))
      ++ base64_digit (N.land k 63)
      ++ base64_encode rest
  end.

(** ** Thrown values and completions *)

(** A thrown value is an [Error] with its message, or something else. *)
Inductive thrown : Type :=
| JsError (message : string)
| NotAnError.

Inductive completion (A : Type) : Type :=
| Return (a : A)
| Throw (e : thrown).
Arguments Return {A} a.
Arguments Throw {A} e.

(* ===================================================================== *)
(** * types.ts *)
(* ===================================================================== *)

(** The file set the HTML plugin produces: a [Map] from path to text or
    bytes, in insertion order. *)
Inductive content : Type :=
| Text (s : string)
| Binary (b : bytes).

Definition FileSet := list (string * content).

(** [files.get(key)] *)
Fixpoint files_get (files : FileSet) (key : string) : option content :=
  match files with
  | [] => None
  | (k, v) :: rest => if String.eqb k key then Some v else files_get rest key
  end.

(** The progress observer is a function of the caller; the model logs
    its invocations. *)
Inductive callback : Type := Callback.

(** [ImageConversionOptions].  [format] has the type [ImageFormat] in the
    source, which does not exist at run time: [validateOptions] tests it,
    so it is any string here.  The two appearance properties, which the
    plugin never reads, are left out. *)
Module Options.
Record t : Type := {
  format : field string;
  quality : field number;
  scale : field number;
  width : field number;
  height : field number;
  backgroundColor : field string;
  transparent : field bool;
  waitTime : field number;
  outputPath : field string;
  themeId : field string;
  onProgress : field callback
}.

(** The object [{}]. *)
Definition empty : t :=
  {| format := Absent; quality := Absent; scale := Absent; width := Absent;
     height := Absent; backgroundColor := Absent; transparent := Absent;
     waitTime := Absent; outputPath := Absent; themeId := Absent;
     onProgress := Absent |}.
End Options.
Definition ImageConversionOptions := Options.t.

Inductive ImageConversionStatus : Type :=
| converting_html
| rendering
| capturing
| completed
| failed.

Module Progress.
Record t : Type := {
  taskId : string;
  status : ImageConversionStatus;
  percent : number;
  currentStep : option string
}.
End Progress.
Definition ImageProgressInfo := Progress.t.

(** [ConversionError] of the HTML plugin. *)
Record ConversionError : Type := {
  code : string;
  message : string;
  cause : option thrown
}.

Module Result.
Record t : Type := {
  success : bool;
  taskId : string;
  outputPath : option string;
  data : option bytes;
  format : option string;
  width : option number;
  height : option number;
  error : option ConversionError;
  duration : option Z
}.
End Result.
Definition ImageConversionResult := Result.t.

Module Validation.
Record t : Type := {
  valid : bool;
  errors : option (list string);
  warnings : option (list string)
}.
End Validation.
Definition ImageValidationResult := Validation.t.

Module ImageErrorCode.
Definition PUPPETEER_NOT_INSTALLED := "CONV-IMG-001".
Definition BROWSER_LAUNCH_FAILED := "CONV-IMG-002".
Definition PAGE_LOAD_TIMEOUT := "CONV-IMG-003".
Definition SCREENSHOT_FAILED := "CONV-IMG-004".
Definition FILE_WRITE_FAILED := "CONV-IMG-005".
Definition INVALID_FORMAT := "CONV-IMG-006".
Definition INVALID_QUALITY := "CONV-IMG-007".
Definition INVALID_DIMENSIONS := "CONV-IMG-008".
End ImageErrorCode.

(* ===================================================================== *)
(** * The collaborators and the effects of a conversion *)
(* ===================================================================== *)

(** [ConversionSource] of the HTML plugin: a path or binary data. *)
Inductive ConversionSource : Type :=
| SourcePath (path fileType : string)
| SourceData (data : bytes) (fileType : string).

(** The result of [CardtoHTMLPlugin.convert], as far as it is read. *)
Record HtmlResult : Type := {
  html_success : bool;
  html_data : option FileSet;          (* [data.files], when [data] is there *)
  html_error : option ConversionError
}.

(** The options object handed to [page.screenshot]. *)
Record ScreenshotOptions : Type := {
  type : string;
  fullPage : bool;
  shot_quality : option number;
  omitBackground : option bool
}.

(** The extents of [document.body] and [document.documentElement] that
    the page reports; they are integers ([long] in the DOM). *)
Record Extents : Type := {
  body_scroll : Z;
  body_offset : Z;
  html_client : Z;
  html_scroll : Z;
  html_offset : Z
}.

Record Metrics : Type := {
  widths : Extents;
  heights : Extents
}.

Record Dimensions : Type := {
  dim_width : number;
  dim_height : number
}.

(** What a conversion does to the outside, in order. *)
Inductive event : Type :=
| OnProgress (info : ImageProgressInfo)
| HtmlConvert (source : ConversionSource) (themeId : option string)
              (includeAssets : bool)
| ImportPuppeteer
| Launch
| NewPage
| SetViewport (width height deviceScaleFactor : number)
| SetContent (html : string) (timeout : number)
| SetTimeout (ms : number)
| Evaluate
| Screenshot (options : ScreenshotOptions)
| Close
| Mkdir (dir : string)
| WriteFile (path : string) (data : bytes).

(** How the outside answers.  The progress observer is assumed not to
    throw. *)
Record Env : Type := {
  uuidv4 : string;
  Date_now : nat -> Z;                  (* the successive clock readings *)
  htmlPlugin_convert : ConversionSource -> option string -> completion HtmlResult;
  import_puppeteer : bool;              (* can the module be loaded? *)
  puppeteer_launch : completion unit;
  browser_newPage : completion unit;
  page_setViewport : number -> number -> number -> completion unit;
  page_setContent : string -> completion unit;
  page_evaluate : completion Metrics;
  page_screenshot : ScreenshotOptions -> completion bytes;
  browser_close : completion unit;
  process_versions_node : bool;         (* running under Node.js? *)
  path_dirname : string -> string;
  fs_mkdir : string -> completion unit;
  fs_writeFile : string -> bytes -> completion unit
}.

Record World : Type := {
  trace : list event;
  clock_reads : nat
}.

Definition initial : World := {| trace := []; clock_reads := 0 |}.

(** Computations with effects on the world that may throw. *)
Definition M (A : Type) : Type := World -> completion A * World.

Definition ret {A} (a : A) : M A := fun w => (Return a, w).

Definition throw {A} (e : thrown) : M A := fun w => (Throw e, w).

Definition bind {A B} (m : M A) (f : A -> M B) : M B :=
  fun w =>
    match m w with
    | (Return a, w') => f a w'
    | (Throw e, w') => (Throw e, w')
    end.

Notation "x <- m ;; k" := (bind m (fun x => k))
  (at level 61, m at next level, right associativity).
Notation "m ;;; k" := (bind m (fun _ => k))
  (at level 61, right associativity).

(** [try { body } catch (e) { handler }] *)
Definition try_catch {A} (body : M A) (handler : thrown -> M A) : M A :=
  fun w =>
    match body w with
    | (Return a, w') => (Return a, w')
    | (Throw e, w') => handler e w'
    end.

(** [try { body } finally { final }] *)
Definition try_finally {A} (body : M A) (final : M unit) : M A :=
  fun w =>
    match body w with
    | (c, w') =>
        match final w' with
        | (Return _, w'') => (c, w'')
        | (Throw e, w'') => (Throw e, w'')
        end
    end.

Definition lift {A} (c : completion A) : M A := fun w => (c, w).

(** A call to the outside: logged, then answered. *)
Definition call {A} (ev : event) (answer : completion A) : M A :=
  fun w =>
    (answer, {| trace := (w.(trace) ++ [ev])%list; clock_reads := w.(clock_reads) |}).

(* ===================================================================== *)
(** * plugin.ts *)
(* ===================================================================== *)

Definition DEFAULT_OPTIONS : ImageConversionOptions :=
  {| Options.format := Present "png";
     Options.quality := Present (num 90);
     Options.scale := Present (num 1);
     Options.width := Absent;
     Options.height := Absent;
     Options.backgroundColor := Present "#ffffff";
     Options.transparent := Present false;
     Options.waitTime := Present (num 1000);
     Options.outputPath := Absent;
     Options.themeId := Absent;
     Options.onProgress := Absent |}.

(** [{ ...a, ...b }] *)
Definition spread_options (a b : ImageConversionOptions) : ImageConversionOptions :=
  {| Options.format := spread a.(Options.format) b.(Options.format);
     Options.quality := spread a.(Options.quality) b.(Options.quality);
     Options.scale := spread a.(Options.scale) b.(Options.scale);
     Options.width := spread a.(Options.width) b.(Options.width);
     Options.height := spread a.(Options.height) b.(Options.height);
     Options.backgroundColor :=
       spread a.(Options.backgroundColor) b.(Options.backgroundColor);
     Options.transparent := spread a.(Options.transparent) b.(Options.transparent);
     Options.waitTime := spread a.(Options.waitTime) b.(Options.waitTime);
     Options.outputPath := spread a.(Options.outputPath) b.(Options.outputPath);
     Options.themeId := spread a.(Options.themeId) b.(Options.themeId);
     Options.onProgress := spread a.(Options.onProgress) b.(Options.onProgress) |}.

Definition _mergeOptions (options : option ImageConversionOptions)
  : ImageConversionOptions :=
  match options with
  | Some o => spread_options DEFAULT_OPTIONS o
  | None => DEFAULT_OPTIONS
  end.

Definition getDefaultOptions : ImageConversionOptions :=
  spread_options Options.empty DEFAULT_OPTIONS.

(** Truthiness of an optional string: defined and not empty. *)
Definition truthy (s : option string) : bool :=
  match s with
  | Some v => negb (String.eqb v "")
  | None => false
  end.

(** [x === 'lit'] for an optional string. *)
Definition strict_eq (s : option string) (lit : string) : bool :=
  match s with
  | Some v => String.eqb v lit
  | None => false
  end.

(** [a.push(x)] *)
Definition push (a : list string) (x : string) : list string := (a ++ [x])%list.

Definition unsupported_format (f : string) : string :=
  "不支持的图片格式: " ++ f ++ "，支持: png, jpg, jpeg".
Definition quality_out_of_range (q : number) : string :=
  "质量参数必须在 1-100 之间，当前值: " ++ Number.toString q.
Definition png_ignores_quality : string := "PNG 格式忽略质量参数".
Definition scale_out_of_range (x : number) : string :=
  "缩放比例必须在 0-4 之间，当前值: " ++ Number.toString x.
Definition width_not_positive (x : number) : string :=
  "宽度必须为正数，当前值: " ++ Number.toString x.
Definition height_not_positive (x : number) : string :=
  "高度必须为正数，当前值: " ++ Number.toString x.
Definition waitTime_negative (x : number) : string :=
  "等待时间不能为负数，当前值: " ++ Number.toString x.
Definition transparent_needs_png : string := "透明背景仅对 PNG 格式有效".

(** The two arrays of [validateOptions] after all its tests. *)
Definition collect (options : ImageConversionOptions) : list string * list string :=
  let errors : list string := [] in
  let warnings : list string := [] in
  (* format *)
  let errors :=
    match read options.(Options.format) with
    | Some f =>
        if truthy (Some f) && negb (includes ["png"; "jpg"; "jpeg"] f)
        then push errors (unsupported_format f) else errors
    | None => errors
    end in
  (* quality *)
  let '(errors, warnings) :=
    match read options.(Options.quality) with
    | Some q =>
        let errors :=
          if Number.ltb q (num 1) || Number.gtb q (num 100)
          then push errors (quality_out_of_range q) else errors in
        let warnings :=
          if strict_eq (read options.(Options.format)) "png"
          then push warnings png_ignores_quality else warnings in
        (errors, warnings)
    | None => (errors, warnings)
    end in
  (* scale *)
  let errors :=
    match read options.(Options.scale) with
    | Some x =>
        if Number.leb x (num 0) || Number.gtb x (num 4)
        then push errors (scale_out_of_range x) else errors
    | None => errors
    end in
  (* width and height *)
  let errors :=
    match read options.(Options.width) with
    | Some x =>
        if Number.leb x (num 0) then push errors (width_not_positive x) else errors
    | None => errors
    end in
  let errors :=
    match read options.(Options.height) with
    | Some x =>
        if Number.leb x (num 0) then push errors (height_not_positive x) else errors
    | None => errors
    end in
  (* waitTime *)
  let errors :=
    match read options.(Options.waitTime) with
    | Some x =>
        if Number.ltb x (num 0) then push errors (waitTime_negative x) else errors
    | None => errors
    end in
  (* transparent *)
  let warnings :=
    if (read options.(Options.transparent) ?? false)
       && negb (strict_eq (read options.(Options.format)) "png")
    then push warnings transparent_needs_png else warnings in
  (errors, warnings).

Definition validateOptions (options : ImageConversionOptions)
  : ImageValidationResult :=
  let '(errors, warnings) := collect options in
  {| Validation.valid := (List.length errors =? 0)%nat;
     Validation.errors :=
       if (0 <? List.length errors)%nat then Some errors else None;
     Validation.warnings :=
       if (0 <? List.length warnings)%nat then Some warnings else None |}.

(** ** The resource inliner *)

(** [/[.*+?^${}()|[\]\\]/g] *)
Definition SPECIAL : RegExp.regexp :=
  Eval vm_compute in RegExp.literal "[.*+?^${}()|[\]\\]" "g".

Definition _escapeRegex (str : string) : string :=
  RegExp.replace str SPECIAL "\$&".

(** [/\.(png|jpg|jpeg|gif|webp|svg|ico|bmp)$/i] *)
Definition IMAGE_PATH : RegExp.regexp :=
  Eval vm_compute in RegExp.literal "\.(png|jpg|jpeg|gif|webp|svg|ico|bmp)$" "i".

Definition _isImagePath (path : string) : bool := RegExp.test IMAGE_PATH path.

(** The own properties of the object literal [mimeTypes]. *)
Definition mimeTypes : list (string * string) :=
  [ ("png", "image/png"); ("jpg", "image/jpeg"); ("jpeg", "image/jpeg");
    ("gif", "image/gif"); ("webp", "image/webp"); ("svg", "image/svg+xml");
    ("ico", "image/x-icon"); ("bmp", "image/bmp") ].

Fixpoint lookup (table : list (string * string)) (key : string) : option string :=
  match table with
  | [] => None
  | (k, v) :: rest => if String.eqb k key then Some v else lookup rest key
  end.

(** The table is read among its own properties.  An extension that
    names a property of [Object.prototype], constructor for one, is
    outside the model; [_isImagePath] rejects the paths that have
    one, and the inliner asks for the type of accepted paths only. *)
Definition _getMimeType (path : string) : string :=
  let ext := option_map toLowerCase (pop (split path ".")) ?? "" in
  lookup mimeTypes ext ?? "application/octet-stream".

Definition _uint8ArrayToBase64 (uint8Array : bytes) : string :=
  base64_encode uint8Array.

(** The source text of the pattern for a link tag whose href ends in
    [name], which is already a pattern: the template literal of the
    first loop, with [dquote] for the double quote of its classes. *)
Definition link_pattern (name : string) : string :=
  "<link[^>]*href=[" ++ dquote ++ "'][^" ++ dquote ++ "']*" ++ name
  ++ "[" ++ dquote ++ "'][^>]*>".

(** The source text of the pattern for a src or href attribute whose
    value ends in [name]: the template literal of the second loop. *)
Definition src_pattern (name : string) : string :=
  "(src|href)=[" ++ dquote ++ "']([^" ++ dquote ++ "']*" ++ name
  ++ ")[" ++ dquote ++ "']".

(** The regular expression literal of the first step: a link tag whose
    href ends in theme.css, flags [gi]. *)
Definition THEME_LINK : RegExp.regexp :=
  Eval vm_compute in RegExp.literal (link_pattern "theme\.css") "gi".

(** The template literal [styleTag]: the opening tag with its type
    attribute, a line feed, the style sheet, a line feed, the closing
    tag. *)
Definition style_tag (css : string) : string :=
  "<style type=" ++ dquote ++ "text/css" ++ dquote ++ ">" ++ newline
  ++ css ++ newline ++ "</style>".

Definition SyntaxError : thrown := JsError "Invalid regular expression".

(** The first step: [theme.css], when it is a non-empty text. *)
Definition inline_theme (html : string) (files : FileSet) : string :=
  match files_get files "theme.css" with
  | Some (Text themeCss) =>
      if truthy (Some themeCss)
      then RegExp.replace html THEME_LINK (style_tag themeCss)
      else html
  | _ => html
  end.

(** The first loop, over the entries that remain to be visited. *)
Fixpoint inline_css (entries : FileSet) (result : string) : completion string :=
  match entries with
  | [] => Return result
  | (filePath, Text css) :: rest =>
      if endsWith filePath ".css" && negb (String.eqb filePath "theme.css") then
        let filename := pop (split filePath "/") ?? "" in
        match RegExp.RegExp_new (link_pattern (_escapeRegex filename)) "gi" with
        | Some re => inline_css rest (RegExp.replace result re (style_tag css))
        | None => Throw SyntaxError
        end
      else inline_css rest result
  | (_, Binary _) :: rest => inline_css rest result
  end.

(** The replacement template of the second loop: [$1=] and the data
    URL between double quotes. *)
Definition data_url_template (filePath : string) (b : bytes) : string :=
  let base64 := _uint8ArrayToBase64 b in
  let mimeType := _getMimeType filePath in
  let dataUrl := "data:" ++ mimeType ++ ";base64," ++ base64 in
  "$1=" ++ dquote ++ dataUrl ++ dquote.

(** The second loop. *)
Fixpoint inline_images (entries : FileSet) (result : string) : completion string :=
  match entries with
  | [] => Return result
  | (filePath, Binary b) :: rest =>
      if _isImagePath filePath then
        let filename := pop (split filePath "/") ?? "" in
        match RegExp.RegExp_new (src_pattern (_escapeRegex filename)) "gi" with
        | Some re =>
            inline_images rest (RegExp.replace result re (data_url_template filePath b))
        | None => Throw SyntaxError
        end
      else inline_images rest result
  | (_, Text _) :: rest => inline_images rest result
  end.

Definition _inlineResources (html : string) (files : FileSet) : completion string :=
  let result := html in
  let result := inline_theme result files in
  match inline_css files result with
  | Return result => inline_images files result
  | Throw e => Throw e
  end.

(** ** The render step and the orchestrator *)

Definition PUPPETEER_MISSING : string :=
  "需要安装 puppeteer 才能渲染图片。请运行: npm install puppeteer".
Definition INDEX_MISSING : string :=
  "未找到 index.html 文件，HTML 转换可能失败".
Definition NEEDS_NODE : string :=
  "文件写入需要 Node.js 环境。在浏览器环境中，请使用返回的 data 字段。".

Record RenderOutput : Type := {
  imageData : bytes;
  out_width : number;
  out_height : number
}.

(** [Math.max] of the five extents, inside the page. *)
Definition measure (e : Extents) : number :=
  Number.Math_max
    [ num e.(body_scroll); num e.(body_offset); num e.(html_client);
      num e.(html_scroll); num e.(html_offset) ].

Definition is_jpeg (options : ImageConversionOptions) : bool :=
  strict_eq (read options.(Options.format)) "jpg"
  || strict_eq (read options.(Options.format)) "jpeg".

Definition screenshotOptions (options : ImageConversionOptions) : ScreenshotOptions :=
  {| type := if is_jpeg options then "jpeg" else "png";
     fullPage := true;
     shot_quality :=
       if is_jpeg options
       then Some (read options.(Options.quality) ?? num 90) else None;
     omitBackground :=
       if strict_eq (read options.(Options.format)) "png"
       then Some (read options.(Options.transparent) ?? false) else None |}.

Section Plugin.

Variable env : Env.

(** [Date.now()] *)
Definition now : M Z :=
  fun w =>
    (Return (env.(Date_now) w.(clock_reads)),
     {| trace := w.(trace); clock_reads := S w.(clock_reads) |}).

Definition _createErrorResult (taskId code message : string) (startTime : Z)
                              (cause : option thrown) : M ImageConversionResult :=
  t <- now ;;
  ret {| Result.success := false;
         Result.taskId := taskId;
         Result.outputPath := None;
         Result.data := None;
         Result.format := None;
         Result.width := None;
         Result.height := None;
         Result.error :=
           Some {| code := code; message := message; cause := cause |};
         Result.duration := Some (t - startTime) |}.

(** The body of the [try] of [_renderHTMLToImage], once the browser is
    there. *)
Definition render_page (indexHtml : string) (files : FileSet)
                       (options : ImageConversionOptions) : M RenderOutput :=
  call NewPage env.(browser_newPage) ;;;
  let viewportWidth := read options.(Options.width) ?? num 800 in
  let viewportHeight := read options.(Options.height) ?? num 600 in
  let deviceScaleFactor := read options.(Options.scale) ?? num 1 in
  call (SetViewport viewportWidth viewportHeight deviceScaleFactor)
       (env.(page_setViewport) viewportWidth viewportHeight deviceScaleFactor) ;;;
  htmlContent <- lift (_inlineResources indexHtml files) ;;
  call (SetContent htmlContent (num 30000)) (env.(page_setContent) htmlContent) ;;;
  let waitTime := read options.(Options.waitTime) ?? num 1000 in
  (if Number.gtb waitTime (num 0)
   then call (SetTimeout waitTime) (Return tt) else ret tt) ;;;
  metrics <- call Evaluate env.(page_evaluate) ;;
  let dimensions :=
    {| dim_width := measure metrics.(widths);
       dim_height := measure metrics.(heights) |} in
  screenshot <- call (Screenshot (screenshotOptions options))
                     (env.(page_screenshot) (screenshotOptions options)) ;;
  let outputWidth :=
    Number.Math_round (Number.mul dimensions.(dim_width) deviceScaleFactor) in
  let outputHeight :=
    Number.Math_round (Number.mul dimensions.(dim_height) deviceScaleFactor) in
  ret {| imageData := screenshot;
         out_width := outputWidth;
         out_height := outputHeight |}.

Definition _renderHTMLToImage (files : FileSet) (options : ImageConversionOptions)
  : M RenderOutput :=
  try_catch
    (call ImportPuppeteer
          (if env.(import_puppeteer) then Return tt else Throw NotAnError))
    (fun _ => throw (JsError PUPPETEER_MISSING)) ;;;
  match files_get files "index.html" with
  | Some (Text indexHtml) =>
      if truthy (Some indexHtml) then
        call Launch env.(puppeteer_launch) ;;;
        try_finally (render_page indexHtml files options)
                    (call Close env.(browser_close))
      else throw (JsError INDEX_MISSING)
  | _ => throw (JsError INDEX_MISSING)
  end.

Definition _writeToFile (data : bytes) (outputPath : string) : M unit :=
  if env.(process_versions_node) then
    let dir := env.(path_dirname) outputPath in
    call (Mkdir dir) (env.(fs_mkdir) dir) ;;;
    call (WriteFile outputPath data) (env.(fs_writeFile) outputPath data)
  else throw (JsError NEEDS_NODE).

(** The closure [reportProgress] of [convert]. *)
Definition reportProgress (mergedOptions : ImageConversionOptions) (taskId : string)
                          (status : ImageConversionStatus) (percent : number)
                          (step : option string) : M unit :=
  match read mergedOptions.(Options.onProgress) with
  | Some _ =>
      call (OnProgress {| Progress.taskId := taskId;
                          Progress.status := status;
                          Progress.percent := percent;
                          Progress.currentStep := step |})
           (Return tt)
  | None => ret tt
  end.

Definition convert (source : ConversionSource)
                   (options : option ImageConversionOptions)
  : M ImageConversionResult :=
  let taskId := env.(uuidv4) in
  let mergedOptions := _mergeOptions options in
  startTime <- now ;;
  let reportProgress := reportProgress mergedOptions taskId in
  try_catch
    (let validation := validateOptions mergedOptions in
     if negb validation.(Validation.valid) then
       _createErrorResult taskId ImageErrorCode.INVALID_FORMAT
         (option_map (join "; ") validation.(Validation.errors) ?? "选项验证失败")
         startTime None
     else
       reportProgress converting_html (num 0) (Some "正在解析卡片并生成 HTML") ;;;
       htmlResult <- call (HtmlConvert source (read mergedOptions.(Options.themeId)) true)
                          (env.(htmlPlugin_convert) source
                             (read mergedOptions.(Options.themeId))) ;;
       match htmlResult.(html_success), htmlResult.(html_data) with
       | true, Some files =>
           reportProgress rendering (num 30) (Some "HTML 生成完成，正在启动浏览器") ;;;
           reportProgress rendering (num 40) (Some "正在渲染页面") ;;;
           rendered <- _renderHTMLToImage files mergedOptions ;;
           reportProgress capturing (num 80) (Some "正在生成图片") ;;;
           (if truthy (read mergedOptions.(Options.outputPath)) then
              _writeToFile rendered.(imageData)
                           (read mergedOptions.(Options.outputPath) ?? "") ;;;
              reportProgress completed (num 100) (Some "图片已保存到文件")
            else
              reportProgress completed (num 100) (Some "转换完成")) ;;;
           t <- now ;;
           let duration := t - startTime in
           ret {| Result.success := true;
                  Result.taskId := taskId;
                  Result.outputPath := read mergedOptions.(Options.outputPath);
                  Result.data :=
                    if truthy (read mergedOptions.(Options.outputPath))
                    then None else Some rendered.(imageData);
                  Result.format := read mergedOptions.(Options.format);
                  Result.width := Some rendered.(out_width);
                  Result.height := Some rendered.(out_height);
                  Result.error := None;
                  Result.duration := Some duration |}
       | _, _ =>
           reportProgress failed (num 0) (Some "HTML 转换失败") ;;;
           t <- now ;;
           ret {| Result.success := false;
                  Result.taskId := taskId;
                  Result.outputPath := None;
                  Result.data := None;
                  Result.format := None;
                  Result.width := None;
                  Result.height := None;
                  Result.error :=
                    Some (htmlResult.(html_error) ??
                            {| code := "CONV-HTML-002";
                               message := "HTML 转换失败，未能获取有效数据";
                               cause := None |});
                  Result.duration := Some (t - startTime) |}
       end)
    (fun error =>
       reportProgress failed (num 0) (Some "转换过程发生错误") ;;;
       _createErrorResult taskId ImageErrorCode.SCREENSHOT_FAILED
         (match error with
          | JsError m => m
          | NotAnError => "图片渲染过程发生未知错误"
          end)
         startTime
         (match error with
          | JsError _ => Some error
          | NotAnError => None
          end)).

End Plugin.

(* ===================================================================== *)
(** * Vocabulary of the statements *)
(* ===================================================================== *)

(** An options object with one property replaced. *)
Definition with_quality (q : field number) (o : ImageConversionOptions)
  : ImageConversionOptions :=
  {| Options.format := o.(Options.format);
     Options.quality := q;
     Options.scale := o.(Options.scale);
     Options.width := o.(Options.width);
     Options.height := o.(Options.height);
     Options.backgroundColor := o.(Options.backgroundColor);
     Options.transparent := o.(Options.transparent);
     Options.waitTime := o.(Options.waitTime);
     Options.outputPath := o.(Options.outputPath);
     Options.themeId := o.(Options.themeId);
     Options.onProgress := o.(Options.onProgress) |}.

Definition with_format (f : field string) (o : ImageConversionOptions)
  : ImageConversionOptions :=
  {| Options.format := f;
     Options.quality := o.(Options.quality);
     Options.scale := o.(Options.scale);
     Options.width := o.(Options.width);
     Options.height := o.(Options.height);
     Options.backgroundColor := o.(Options.backgroundColor);
     Options.transparent := o.(Options.transparent);
     Options.waitTime := o.(Options.waitTime);
     Options.outputPath := o.(Options.outputPath);
     Options.themeId := o.(Options.themeId);
     Options.onProgress := o.(Options.onProgress) |}.

(** [q < 1 || q > 100] *)
Definition quality_outside (q : number) : bool :=
  Number.ltb q (num 1) || Number.gtb q (num 100).

(** The progress events of a trace, as the observer sees them. *)
Definition progress_item (ev : event) : list ImageProgressInfo :=
  match ev with
  | OnProgress info => [info]
  | _ => []
  end.

Definition progress_of (t : list event) : list ImageProgressInfo :=
  flat_map progress_item t.

(** The calls that go to the browser. *)
Definition browser_item (ev : event) : list event :=
  match ev with
  | Launch | NewPage | SetViewport _ _ _ | SetContent _ _ | Evaluate
  | Screenshot _ | Close => [ev]
  | _ => []
  end.

Definition browser_calls (t : list event) : list event :=
  flat_map browser_item t.

(** A computation that adds nothing to a projection of the trace. *)
Definition silent {X A} (g : event -> list X) (m : M A) : Prop :=
  forall w, flat_map g (trace (snd (m w))) = flat_map g (trace w).

(** The failure result of [_createErrorResult]. *)
Definition error_result (taskId code message : string) (cause : option thrown)
                        (duration : Z) : ImageConversionResult :=
  {| Result.success := false;
     Result.taskId := taskId;
     Result.outputPath := None;
     Result.data := None;
     Result.format := None;
     Result.width := None;
     Result.height := None;
     Result.error := Some {| code := code; message := message; cause := cause |};
     Result.duration := Some duration |}.

(** A file set, and an environment in which every collaborator succeeds;
    [puppeteer] tells whether the browser library can be loaded. *)
Definition sample_files : FileSet :=
  [ ("index.html",
     Text "<html><link rel='stylesheet' href='theme.css'><img src='img/a.png'></html>");
    ("theme.css", Text "body{}");
    ("img/a.png", Binary [Byte.x4d; Byte.x61; Byte.x6e]) ].

Definition sample_metrics : Metrics :=
  {| widths := {| body_scroll := 100; body_offset := 100; html_client := 800;
                  html_scroll := 800; html_offset := 800 |};
     heights := {| body_scroll := 50; body_offset := 50; html_client := 600;
                   html_scroll := 600; html_offset := 50 |} |}.

Definition sample_env (files : FileSet) (puppeteer : bool) : Env :=
  {| uuidv4 := "3b241101-e2bb-4255-8caf-4136c566a962";
     Date_now := fun n => 1700000000000 + 250 * Z.of_nat n;
     htmlPlugin_convert := fun _ _ =>
       Return {| html_success := true; html_data := Some files;
                 html_error := None |};
     import_puppeteer := puppeteer;
     puppeteer_launch := Return tt;
     browser_newPage := Return tt;
     page_setViewport := fun _ _ _ => Return tt;
     page_setContent := fun _ => Return tt;
     page_evaluate := Return sample_metrics;
     page_screenshot := fun _ => Return [Byte.x89; Byte.x50; Byte.x4e; Byte.x47];
     browser_close := Return tt;
     process_versions_node := true;
     path_dirname := fun _ => "/tmp";
     fs_mkdir := fun _ => Return tt;
     fs_writeFile := fun _ _ => Return tt |}.

Definition sample_source : ConversionSource := SourcePath "/cards/a.card" "card".

Definition with_onProgress (f : field callback) (o : ImageConversionOptions)
  : ImageConversionOptions :=
  {| Options.format := o.(Options.format);
     Options.quality := o.(Options.quality);
     Options.scale := o.(Options.scale);
     Options.width := o.(Options.width);
     Options.height := o.(Options.height);
     Options.backgroundColor := o.(Options.backgroundColor);
     Options.transparent := o.(Options.transparent);
     Options.waitTime := o.(Options.waitTime);
     Options.outputPath := o.(Options.outputPath);
     Options.themeId := o.(Options.themeId);
     Options.onProgress := f |}.

Definition with_outputPath (f : field string) (o : ImageConversionOptions)
  : ImageConversionOptions :=
  {| Options.format := o.(Options.format);
     Options.quality := o.(Options.quality);
     Options.scale := o.(Options.scale);
     Options.width := o.(Options.width);
     Options.height := o.(Options.height);
     Options.backgroundColor := o.(Options.backgroundColor);
     Options.transparent := o.(Options.transparent);
     Options.waitTime := o.(Options.waitTime);
     Options.outputPath := f;
     Options.themeId := o.(Options.themeId);
     Options.onProgress := o.(Options.onProgress) |}.

(** [{quality: 150, onProgress}] *)
Definition invalid_options : ImageConversionOptions :=
  with_onProgress (Present Callback) (with_quality (Present (num 150)) Options.empty).

(** The file set has no text entry named index.html. *)
Definition no_index_text (files : FileSet) : bool :=
  match files_get files "index.html" with
  | Some (Text _) => false
  | _ => true
  end.

(** The message with which the render step refuses such a file set. *)
Definition refusal (env : Env) : string :=
  if env.(import_puppeteer) then INDEX_MISSING else PUPPETEER_MISSING.

(** The checkpoints of [convert] for a task. *)
Definition checkpoint (taskId : string) (status : ImageConversionStatus)
                      (percent : Z) (step : string) : ImageProgressInfo :=
  {| Progress.taskId := taskId;
     Progress.status := status;
     Progress.percent := num percent;
     Progress.currentStep := Some step |}.

Definition is_failed (info : ImageProgressInfo) : bool :=
  match info.(Progress.status) with
  | failed => true
  | _ => false
  end.

(** Each value is at most the next one. *)
Fixpoint nondecreasing (l : list number) : bool :=
  match l with
  | x :: (y :: _) as rest => Number.leb x y && nondecreasing rest
  | _ => true
  end.

(** Nothing comes after a failed event. *)
Fixpoint failed_is_last (l : list ImageProgressInfo) : bool :=
  match l with
  | [] => true
  | info :: rest =>
      if is_failed info then match rest with [] => true | _ :: _ => false end
      else failed_is_last rest
  end.

(** The event streams an observer can see. *)
Definition progress_streams (taskId : string) : list (list ImageProgressInfo) :=
  let A := checkpoint taskId converting_html 0 "正在解析卡片并生成 HTML" in
  let B := checkpoint taskId rendering 30 "HTML 生成完成，正在启动浏览器" in
  let C := checkpoint taskId rendering 40 "正在渲染页面" in
  let D := checkpoint taskId capturing 80 "正在生成图片" in
  let E1 := checkpoint taskId completed 100 "图片已保存到文件" in
  let E2 := checkpoint taskId completed 100 "转换完成" in
  let F1 := checkpoint taskId failed 0 "HTML 转换失败" in
  let F2 := checkpoint taskId failed 0 "转换过程发生错误" in
  [ []; [A; F1]; [A; F2]; [A; B; C; F2]; [A; B; C; D; F2];
    [A; B; C; D; E1]; [A; B; C; D; E2] ].

(** [{onProgress}], [{outputPath: ''}] and [{outputPath: '/tmp/out.png'}] *)
Definition observed_options : ImageConversionOptions :=
  with_onProgress (Present Callback) Options.empty.

Definition empty_path_options : ImageConversionOptions :=
  with_outputPath (Present "") Options.empty.

Definition file_options : ImageConversionOptions :=
  with_outputPath (Present "/tmp/out.png") Options.empty.

Definition not_failed (info : ImageProgressInfo) : bool := negb (is_failed info).

(** ** External references that the inliner would resolve *)

(** The first step applies: theme.css is a non-empty text. *)
Definition theme_applies (files : FileSet) : bool :=
  match files_get files "theme.css" with
  | Some (Text css) => truthy (Some css)
  | _ => false
  end.

(** The entries of the two loops. *)
Definition is_css_entry (filePath : string) (c : content) : bool :=
  match c with
  | Text _ => endsWith filePath ".css" && negb (String.eqb filePath "theme.css")
  | Binary _ => false
  end.

Definition is_image_entry (filePath : string) (c : content) : bool :=
  match c with
  | Text _ => false
  | Binary _ => _isImagePath filePath
  end.

Definition basename (filePath : string) : string := pop (split filePath "/") ?? "".

(** Does the regular expression with this source and the flags gi match
    somewhere in [s]? *)
Definition matches_somewhere (pattern s : string) : bool :=
  match RegExp.RegExp_new pattern "gi" with
  | Some re => RegExp.test re s
  | None => false
  end.

Definition css_reference (s : string) (entry : string * content) : bool :=
  is_css_entry (fst entry) (snd entry)
  && matches_somewhere (link_pattern (_escapeRegex (basename (fst entry)))) s.

Definition image_reference (s : string) (entry : string * content) : bool :=
  is_image_entry (fst entry) (snd entry)
  && matches_somewhere (src_pattern (_escapeRegex (basename (fst entry)))) s.

(** [s] still contains a link tag, or a src or href attribute, that
    matches an entry of [files] the inliner would embed. *)
Definition has_external_references (files : FileSet) (s : string) : bool :=
  (theme_applies files && RegExp.test THEME_LINK s)
  || existsb (css_reference s) files
  || existsb (image_reference s) files.

(** The text contains no [$], the character that starts a replacement
    pattern. *)
Fixpoint no_dollar (s : string) : bool :=
  match s with
  | "" => true
  | String c s' => negb (Ascii.eqb c "$") && no_dollar s'
  end.

(** The first step as the specification words it: the first link tag
    that refers to theme.css becomes the style block with the style
    sheet as it is, and nothing else changes. *)
Definition inline_first_theme_link (html : string) (files : FileSet) : string :=
  match files_get files "theme.css" with
  | Some (Text css) =>
      match RegExp.search THEME_LINK html with
      | Some (before, _, after) => before ++ style_tag css ++ after
      | None => html
      end
  | _ => html
  end.

Definition two_links : string :=
  "<link rel='stylesheet' href='theme.css'><p><link rel='stylesheet' href='theme.css'>".

Definition one_link : string := "<link href='theme.css'>".

(** ** Numbers in the statements *)

(** A finite Number in normal form: 53 digits, exponent in range. *)
Definition normal (x : number) : Prop :=
  match x with
  | S754_finite _ m e => Zpos (digits2_pos m) = 53 /\ -1074 <= e <= 971
  | _ => False
  end.

(** An integral Number: the conversion of an integer below 2^53. *)
Definition integral (x : number) : Prop :=
  exists z, Z.abs z < 2 ^ 53 /\ x = Number.of_Z z.

(** [n] is the integer nearest to [q], the greater one of two. *)
Definition nearest (n : Z) (q : Q) : Prop :=
  (inject_Z n - (1 # 2) <= q)%Q /\ (q < inject_Z n + (1 # 2))%Q.

(** A well-formed binary64 value. *)
Definition is_binary64 (x : number) : bool :=
  valid_binary Number.prec Number.emax x.

(** [r] is the integer nearest to the value of [p], when [p] is finite. *)
Definition rounds (p r : number) : Prop :=
  forall q, Number.value p = Some q ->
    exists n q', Number.value r = Some q' /\ (q' == inject_Z n)%Q /\ nearest n q.

(** The range of the DOM type long. *)
Definition is_long (z : Z) : bool := (- 2 ^ 31 <=? z) && (z <? 2 ^ 31).

Definition long_extents (e : Extents) : bool :=
  forallb is_long
    [ e.(body_scroll); e.(body_offset); e.(html_client); e.(html_scroll);
      e.(html_offset) ].

Definition with_scale (f : field number) (o : ImageConversionOptions)
  : ImageConversionOptions :=
  {| Options.format := o.(Options.format);
     Options.quality := o.(Options.quality);
     Options.scale := f;
     Options.width := o.(Options.width);
     Options.height := o.(Options.height);
     Options.backgroundColor := o.(Options.backgroundColor);
     Options.transparent := o.(Options.transparent);
     Options.waitTime := o.(Options.waitTime);
     Options.outputPath := o.(Options.outputPath);
     Options.themeId := o.(Options.themeId);
     Options.onProgress := o.(Options.onProgress) |}.

(** ** Strings in the statements *)

(** [rest] is what remains of [s] after some prefix. *)
Definition is_suffix (rest s : string) : Prop := exists u, s = u ++ rest.

(** What [_escapeRegex] comes to: a backslash before every syntax
    character. *)
Fixpoint escaped (s : string) : string :=
  match s with
  | "" => ""
  | String c s' =>
      if RegExp.is_syntax_character c then String "\" (String c (escaped s'))
      else String c (escaped s')
  end.

(** The tokens of a literal text. *)
Definition literal_tokens (s : string) : list RegExp.token :=
  map (fun c => RegExp.TAtom (RegExp.Lit c)) (list_ascii_of_string s).

Definition literal_terms (s : string) : list RegExp.node :=
  map (fun c => RegExp.One (RegExp.Lit c)) (list_ascii_of_string s).

Definition add_terms (f : RegExp.frame) (ts : list RegExp.node) : RegExp.frame :=
  {| RegExp.index := f.(RegExp.index);
     RegExp.alternatives := f.(RegExp.alternatives);
     RegExp.terms := (f.(RegExp.terms) ++ ts)%list |}.

(** The tokens around the file name in the pattern of the first loop,
    and the state of the parser before the file name. *)
Definition tokens_of (pattern : string) : list RegExp.token :=
  match RegExp.tokenize RegExp.Normal false pattern with
  | Some ts => ts
  | None => []
  end.

Definition LINK_PRE : list RegExp.token :=
  Eval vm_compute in tokens_of ("<link[^>]*href=[" ++ dquote ++ "'][^" ++ dquote ++ "']*").

Definition LINK_POST : list RegExp.token :=
  Eval vm_compute in tokens_of ("[" ++ dquote ++ "'][^>]*>").

Definition LINK_FRAME : RegExp.frame :=
  Eval vm_compute in
    {| RegExp.index := 0; RegExp.alternatives := [];
       RegExp.terms :=
         match RegExp.source THEME_LINK with
         | RegExp.Seq a (RegExp.Seq b (RegExp.Seq c (RegExp.Seq d (RegExp.Seq e
             (RegExp.Seq f (RegExp.Seq g (RegExp.Seq h (RegExp.Seq i (RegExp.Seq j
             (RegExp.Seq k (RegExp.Seq l (RegExp.Seq m _)))))))))))) =>
             [a; b; c; d; e; f; g; h; i; j; k; l; m]
         | _ => []
         end |}.

(** The same for the pattern of the second loop, where the file name is
    inside the second group. *)
Definition SRC_PRE : list RegExp.token :=
  Eval vm_compute in tokens_of ("(src|href)=[" ++ dquote ++ "']([^" ++ dquote ++ "']*").

Definition SRC_POST : list RegExp.token :=
  Eval vm_compute in tokens_of (")[" ++ dquote ++ "']").

Definition SRC_FRAME : RegExp.frame :=
  {| RegExp.index := 2; RegExp.alternatives := [];
     RegExp.terms := [RegExp.Star (RegExp.Class true [ascii_of_nat 34; "'"%char])] |}.

Definition SRC_PARENT : RegExp.frame :=
  Eval vm_compute in
    {| RegExp.index := 0; RegExp.alternatives := [];
       RegExp.terms :=
         match RegExp.RegExp_new ("(src|href)=[" ++ dquote ++ "']") "gi" with
         | Some re =>
             match RegExp.source re with
             | RegExp.Seq a (RegExp.Seq b (RegExp.Seq c _)) => [a; b; c]
             | _ => []
             end
         | None => []
         end |}.

(** The tests of [validateOptions] that add an error. *)
Definition rejected (o : ImageConversionOptions) : bool :=
  match read o.(Options.format) with
  | Some f => truthy (Some f) && negb (includes ["png"; "jpg"; "jpeg"] f)
  | None => false
  end
  || match read o.(Options.quality) with
     | Some q => Number.ltb q (num 1) || Number.gtb q (num 100)
     | None => false
     end
  || match read o.(Options.scale) with
     | Some x => Number.leb x (num 0) || Number.gtb x (num 4)
     | None => false
     end
  || match read o.(Options.width) with
     | Some x => Number.leb x (num 0)
     | None => false
     end
  || match read o.(Options.height) with
     | Some x => Number.leb x (num 0)
     | None => false
     end
  || match read o.(Options.waitTime) with
     | Some x => Number.ltb x (num 0)
     | None => false
     end.

(** ** The calls of a conversion *)

(** Did the launch of the browser succeed? *)
Definition launch_succeeds (env : Env) : bool :=
  match env.(puppeteer_launch) with
  | Return _ => true
  | Throw _ => false
  end.

Definition is_page_call (ev : event) : bool :=
  match ev with
  | NewPage | SetViewport _ _ _ | SetContent _ _ | SetTimeout _ | Evaluate
  | Screenshot _ => true
  | _ => false
  end.

(** Calls on the page, and then the close of the browser as the last
    call. *)
Fixpoint closes_at_end (evs : list event) : bool :=
  match evs with
  | [] => false
  | [ev] => match ev with Close => true | _ => false end
  | ev :: rest => is_page_call ev && closes_at_end rest
  end.

(** The calls that concern the browser in one conversion: none; the
    launch alone, when it fails; or the launch, calls on the page and
    the close. *)
Definition browser_session (launched : bool) (evs : list event) : bool :=
  match evs with
  | [] => true
  | Launch :: rest =>
      if launched then closes_at_end rest
      else match rest with [] => true | _ :: _ => false end
  | _ => false
  end.

(** The calls on the page of a render step in which every call
    succeeds. *)
Definition page_calls (htmlContent : string) (options : ImageConversionOptions)
  : list event :=
  let waitTime := read options.(Options.waitTime) ?? num 1000 in
  ([ NewPage;
     SetViewport (read options.(Options.width) ?? num 800)
                 (read options.(Options.height) ?? num 600)
                 (read options.(Options.scale) ?? num 1);
     SetContent htmlContent (num 30000) ]
   ++ (if Number.gtb waitTime (num 0) then [SetTimeout waitTime] else [])
   ++ [ Evaluate; Screenshot (screenshotOptions options) ])%list.

(** The calls that go to the file system. *)
Definition fs_item (ev : event) : list event :=
  match ev with
  | Mkdir _ | WriteFile _ _ => [ev]
  | _ => []
  end.

Definition fs_calls (t : list event) : list event := flat_map fs_item t.

(** The calls of [_writeToFile]: none outside Node.js; under Node.js
    the directory is made, and the file is written when that
    succeeded. *)
Definition write_calls (env : Env) (data : bytes) (outputPath : string) : list event :=
  if env.(process_versions_node) then
    Mkdir (env.(path_dirname) outputPath)
    :: match env.(fs_mkdir) (env.(path_dirname) outputPath) with
       | Return _ => [WriteFile outputPath data]
       | Throw _ => []
       end
  else [].

(** The events of a checkpoint: the observer is called when there is
    one. *)
Definition reported (o : ImageConversionOptions) (info : ImageProgressInfo)
  : list event :=
  match read o.(Options.onProgress) with
  | Some _ => [OnProgress info]
  | None => []
  end.

(** ** The failures of a conversion *)

(** What the catch clause of [convert] makes of a thrown value. *)
Definition caught (e : thrown) : ConversionError :=
  {| code := "CONV-IMG-004";
     message := match e with
                | JsError m => m
                | NotAnError => "图片渲染过程发生未知错误"
                end;
     cause := match e with
              | JsError _ => Some e
              | NotAnError => None
              end |}.

(** The error [convert] reports for an HTML result without an error of
    its own. *)
Definition HTML_FAILED : ConversionError :=
  {| code := "CONV-HTML-002";
     message := "HTML 转换失败，未能获取有效数据";
     cause := None |}.

(** [!htmlResult.success || !htmlResult.data] *)
Definition html_failed (h : HtmlResult) : bool :=
  negb h.(html_success)
  || match h.(html_data) with Some _ => false | None => true end.

(** A failure carries nothing but the task, the error and the
    duration. *)
Definition failure (taskId : string) (err : ConversionError) (duration : Z)
  : ImageConversionResult :=
  {| Result.success := false;
     Result.taskId := taskId;
     Result.outputPath := None;
     Result.data := None;
     Result.format := None;
     Result.width := None;
     Result.height := None;
     Result.error := Some err;
     Result.duration := Some duration |}.

(** Environments for the examples: one collaborator answers
    differently. *)
Definition with_html (answer : completion HtmlResult) (env : Env) : Env :=
  {| uuidv4 := env.(uuidv4);
     Date_now := env.(Date_now);
     htmlPlugin_convert := fun _ _ => answer;
     import_puppeteer := env.(import_puppeteer);
     puppeteer_launch := env.(puppeteer_launch);
     browser_newPage := env.(browser_newPage);
     page_setViewport := env.(page_setViewport);
     page_setContent := env.(page_setContent);
     page_evaluate := env.(page_evaluate);
     page_screenshot := env.(page_screenshot);
     browser_close := env.(browser_close);
     process_versions_node := env.(process_versions_node);
     path_dirname := env.(path_dirname);
     fs_mkdir := env.(fs_mkdir);
     fs_writeFile := env.(fs_writeFile) |}.

Definition with_close (answer : completion unit) (env : Env) : Env :=
  {| uuidv4 := env.(uuidv4);
     Date_now := env.(Date_now);
     htmlPlugin_convert := env.(htmlPlugin_convert);
     import_puppeteer := env.(import_puppeteer);
     puppeteer_launch := env.(puppeteer_launch);
     browser_newPage := env.(browser_newPage);
     page_setViewport := env.(page_setViewport);
     page_setContent := env.(page_setContent);
     page_evaluate := env.(page_evaluate);
     page_screenshot := env.(page_screenshot);
     browser_close := answer;
     process_versions_node := env.(process_versions_node);
     path_dirname := env.(path_dirname);
     fs_mkdir := env.(fs_mkdir);
     fs_writeFile := env.(fs_writeFile) |}.

Definition html_refusal : HtmlResult :=
  {| html_success := false;
     html_data := None;
     html_error := Some {| code := "CONV-HTML-001"; message := "no card";
                           cause := None |} |}.

(** ** The tests of the validation, one by one *)

Definition format_errors (f : option string) : list string :=
  match f with
  | Some f =>
      if truthy (Some f) && negb (includes ["png"; "jpg"; "jpeg"] f)
      then [unsupported_format f] else []
  | None => []
  end.

Definition quality_errors (q : option number) : list string :=
  match q with
  | Some q =>
      if Number.ltb q (num 1) || Number.gtb q (num 100)
      then [quality_out_of_range q] else []
  | None => []
  end.

Definition scale_errors (x : option number) : list string :=
  match x with
  | Some x =>
      if Number.leb x (num 0) || Number.gtb x (num 4)
      then [scale_out_of_range x] else []
  | None => []
  end.

Definition extent_errors (describe : number -> string) (x : option number)
  : list string :=
  match x with
  | Some x => if Number.leb x (num 0) then [describe x] else []
  | None => []
  end.

Definition waitTime_errors (x : option number) : list string :=
  match x with
  | Some x => if Number.ltb x (num 0) then [waitTime_negative x] else []
  | None => []
  end.

(** The errors in the order of the tests. *)
Definition errors_of (o : ImageConversionOptions) : list string :=
  (format_errors (read o.(Options.format))
   ++ quality_errors (read o.(Options.quality))
   ++ scale_errors (read o.(Options.scale))
   ++ extent_errors width_not_positive (read o.(Options.width))
   ++ extent_errors height_not_positive (read o.(Options.height))
   ++ waitTime_errors (read o.(Options.waitTime)))%list.

(** An options object with its five numeric properties replaced. *)
Definition with_numbers (x : field number) (o : ImageConversionOptions)
  : ImageConversionOptions :=
  {| Options.format := o.(Options.format);
     Options.quality := x;
     Options.scale := x;
     Options.width := x;
     Options.height := x;
     Options.backgroundColor := o.(Options.backgroundColor);
     Options.transparent := o.(Options.transparent);
     Options.waitTime := x;
     Options.outputPath := o.(Options.outputPath);
     Options.themeId := o.(Options.themeId);
     Options.onProgress := o.(Options.onProgress) |}.

(** [{quality, scale, width, height, waitTime}] with integer values. *)
Definition integer_options (quality scale width height waitTime : Z)
  : ImageConversionOptions :=
  {| Options.format := Absent;
     Options.quality := Present (num quality);
     Options.scale := Present (num scale);
     Options.width := Present (num width);
     Options.height := Present (num height);
     Options.backgroundColor := Absent;
     Options.transparent := Absent;
     Options.waitTime := Present (num waitTime);
     Options.outputPath := Absent;
     Options.themeId := Absent;
     Options.onProgress := Absent |}.

(** The integers that a Number holds exactly. *)
Definition is_safe_integer (z : Z) : bool := Z.abs z <? 2 ^ 53.

(** The greatest of the five extents. *)
Definition greatest (e : Extents) : Z :=
  Z.max (Z.max (Z.max (Z.max e.(body_scroll) e.(body_offset)) e.(html_client))
               e.(html_scroll))
        e.(html_offset).

(** ** File names and patterns *)

(** [s] without the prefix [p], when it starts with [p]; letters are
    compared without regard to case when [i] is set. *)
Fixpoint strip_prefix (i : bool) (p s : string) : option string :=
  match p, s with
  | "", _ => Some s
  | String a p', String b s' =>
      if Ascii.eqb (RegExp.canonicalize i a) (RegExp.canonicalize i b)
      then strip_prefix i p' s' else None
  | String _ _, "" => None
  end.

Definition IMAGE_EXTENSIONS : list string :=
  ["png"; "jpg"; "jpeg"; "gif"; "webp"; "svg"; "ico"; "bmp"].

(** The path ends, in lower case, in a dot and one of the extensions. *)
Definition has_image_extension (path : string) : bool :=
  existsb (fun ext => endsWith (toLowerCase path) ("." ++ ext)) IMAGE_EXTENSIONS.

Definition is_some {A} (x : option A) : bool :=
  match x with Some _ => true | None => false end.

(** The 256 code units. *)
Definition code_units : list ascii := map ascii_of_nat (seq 0 256).

(** A text without upper-case letters. *)
Fixpoint lower_only (s : string) : bool :=
  match s with
  | "" => true
  | String c s' => negb (is_upper c) && lower_only s'
  end.

(** The character does not occur in the text. *)
Fixpoint no_char (c : ascii) (s : string) : bool :=
  match s with
  | "" => true
  | String x s' => negb (Ascii.eqb x c) && no_char c s'
  end.

(** The quote characters of the two patterns, and the regular
    expressions the patterns stand for, for a file name. *)
Definition QUOTE : RegExp.charset :=
  RegExp.Class false [ascii_of_nat 34; "'"%char].

Definition link_regexp (name : string) : RegExp.regexp :=
  {| RegExp.source :=
       RegExp.seq_of
         (RegExp.terms LINK_FRAME ++ literal_terms name
          ++ [ RegExp.One QUOTE; RegExp.Star (RegExp.Class true [">"%char]);
               RegExp.One (RegExp.Lit ">") ])%list;
     RegExp.global := true;
     RegExp.ignoreCase := true;
     RegExp.groups := 0 |}.

Definition src_regexp (name : string) : RegExp.regexp :=
  {| RegExp.source :=
       RegExp.seq_of
         (RegExp.terms SRC_PARENT
          ++ [ RegExp.Group 2
                 (RegExp.seq_of (RegExp.terms SRC_FRAME ++ literal_terms name));
               RegExp.One QUOTE ])%list;
     RegExp.global := true;
     RegExp.ignoreCase := true;
     RegExp.groups := 2 |}.

(** No group of the expression has the index 1. *)
Fixpoint no_group_1 (r : RegExp.node) : bool :=
  match r with
  | RegExp.Seq r1 r2 | RegExp.Alt r1 r2 => no_group_1 r1 && no_group_1 r2
  | RegExp.Group n r' => negb (n =? 1)%nat && no_group_1 r'
  | _ => true
  end.

(** The data URL of an image. *)
Definition data_url (filePath : string) (b : bytes) : string :=
  "data:" ++ _getMimeType filePath ++ ";base64," ++ _uint8ArrayToBase64 b.

(** The entries the inliner can use: theme.css, a style sheet of the
    first loop, an image of the second. *)
Definition qualifies (entry : string * content) : bool :=
  String.eqb (fst entry) "theme.css"
  || is_css_entry (fst entry) (snd entry)
  || is_image_entry (fst entry) (snd entry).

(** ** Tags and attributes *)

(** The two quote characters. *)
Definition is_quote (c : ascii) : bool :=
  Ascii.eqb c (ascii_of_nat 34) || Ascii.eqb c "'".

(** No quote character occurs in the text. *)
Fixpoint no_quote (s : string) : bool :=
  match s with
  | "" => true
  | String x s' => negb (is_quote x) && no_quote s'
  end.

(** Every character of the text is in the set. *)
Fixpoint all_match (i : bool) (cs : RegExp.charset) (u : string) : bool :=
  match u with
  | "" => true
  | String x u' => RegExp.charset_matches i cs x && all_match i cs u'
  end.

(** No match of the expression starts at a position of [pre] in
    [pre ++ s]. *)
Fixpoint none_starts (re : RegExp.regexp) (pre s : string) : bool :=
  match pre with
  | "" => true
  | String x pre' =>
      negb (is_some (RegExp.match_at re (pre ++ s))) && none_starts re pre' s
  end.

(** A link tag: attributes, a quoted href, attributes. *)
Definition link_tag (attrs1 : string) (q1 : ascii) (href : string) (q2 : ascii)
           (attrs2 : string) : string :=
  "<link" ++ attrs1 ++ "href=" ++ String q1 (href ++ String q2 (attrs2 ++ ">")).

(** An attribute with a quoted value. *)
Definition attribute (attr : string) (q1 : ascii) (value : string) (q2 : ascii)
  : string :=
  attr ++ "=" ++ String q1 (value ++ String q2 "").

(** The sets and the end of the pattern of the first loop, and what
    follows its first star. *)
Definition NOT_GT : RegExp.charset := RegExp.Class true [">"%char].
Definition NOT_QUOTE : RegExp.charset :=
  RegExp.Class true [ascii_of_nat 34; "'"%char].
Definition LINK_TAIL : RegExp.node :=
  RegExp.Seq (RegExp.One QUOTE)
    (RegExp.Seq (RegExp.Star NOT_GT)
       (RegExp.Seq (RegExp.One (RegExp.Lit ">")) RegExp.Empty)).

Definition accept : RegExp.continuation := fun s' c' => Some (s', c').

Definition after_star (name : string) : RegExp.continuation :=
  RegExp.match_node true
    (fold_right RegExp.Seq
       (RegExp.Seq (RegExp.One QUOTE)
          (RegExp.Seq (RegExp.Star NOT_QUOTE)
             (fold_right RegExp.Seq LINK_TAIL (literal_terms name))))
       (literal_terms "href="))
    accept.

(** ** Undefined properties *)

(** A property given as undefined, left out. *)
Definition omitted {A} (f : field A) : field A :=
  match f with
  | Undefined => Absent
  | _ => f
  end.

(** The options without the properties that are undefined, the format
    apart. *)
Definition without_undefined (o : ImageConversionOptions) : ImageConversionOptions :=
  {| Options.format := o.(Options.format);
     Options.quality := omitted o.(Options.quality);
     Options.scale := omitted o.(Options.scale);
     Options.width := omitted o.(Options.width);
     Options.height := omitted o.(Options.height);
     Options.backgroundColor := omitted o.(Options.backgroundColor);
     Options.transparent := omitted o.(Options.transparent);
     Options.waitTime := omitted o.(Options.waitTime);
     Options.outputPath := omitted o.(Options.outputPath);
     Options.themeId := omitted o.(Options.themeId);
     Options.onProgress := omitted o.(Options.onProgress) |}.

(** ** Replacement patterns *)

(** The characters that make a replacement pattern after [$], for a
    regular expression without groups. *)
Definition is_pattern_character (d : ascii) : bool :=
  Ascii.eqb d "$" || Ascii.eqb d "&" || Ascii.eqb d "`" || Ascii.eqb d "'".

(** No replacement pattern occurs in the text: no [$] is followed by
    [$], [&], a backquote or a quote. *)
Fixpoint no_pattern (s : string) : bool :=
  match s with
  | "" => true
  | String c t =>
      match t with
      | String d _ => negb (Ascii.eqb c "$" && is_pattern_character d)
      | "" => true
      end && no_pattern t
  end.

Definition upper_link : string :=
  "<LINK REL='stylesheet' HREF='Theme.CSS'><p><link href='theme.css'>".

(** ** The page and the image *)

Definition with_metrics (m : Metrics) (env : Env) : Env :=
  {| uuidv4 := env.(uuidv4);
     Date_now := env.(Date_now);
     htmlPlugin_convert := env.(htmlPlugin_convert);
     import_puppeteer := env.(import_puppeteer);
     puppeteer_launch := env.(puppeteer_launch);
     browser_newPage := env.(browser_newPage);
     page_setViewport := env.(page_setViewport);
     page_setContent := env.(page_setContent);
     page_evaluate := Return m;
     page_screenshot := env.(page_screenshot);
     browser_close := env.(browser_close);
     process_versions_node := env.(process_versions_node);
     path_dirname := env.(path_dirname);
     fs_mkdir := env.(fs_mkdir);
     fs_writeFile := env.(fs_writeFile) |}.

(** A page whose body is wider than its window and whose root element
    is taller than everything else. *)
Definition uneven_metrics : Metrics :=
  {| widths := {| body_scroll := 1024; body_offset := 640; html_client := 800;
                  html_scroll := 800; html_offset := 800 |};
     heights := {| body_scroll := 50; body_offset := 1999; html_client := 600;
                   html_scroll := 600; html_offset := 2000 |} |}.

(** The five extents the page reads. *)
Definition extents (e : Extents) : list Z :=
  [ e.(body_scroll); e.(body_offset); e.(html_client); e.(html_scroll);
    e.(html_offset) ].

(** The image that the render step hands to [convert], when the
    conversion gets that far: the options are valid, the HTML plugin
    returns a success with data and the render step returns. *)
Definition rendered (env : Env) (source : ConversionSource)
           (o : ImageConversionOptions) : option bytes :=
  if (validateOptions o).(Validation.valid) then
    match env.(htmlPlugin_convert) source (read o.(Options.themeId)) with
    | Return h =>
        match h.(html_success), h.(html_data) with
        | true, Some files =>
            match fst (_renderHTMLToImage env files o initial) with
            | Return out => Some out.(imageData)
            | Throw _ => None
            end
        | _, _ => None
        end
    | Throw _ => None
    end
  else None.

(** A text of ASCII characters only. *)
Fixpoint ascii_only (s : string) : bool :=
  match s with
  | "" => true
  | String c s' => (nat_of_ascii c <? 128)%nat && ascii_only s'
  end.

(* ===================================================================== *)
(** * Option validation *)
(* ===================================================================== *)

Create HintDb push.

Lemma In_push_l (a : list string) (x y : string) : In x a -> In x (push a y).
Proof. unfold push. intros H. apply in_or_app. now left. Qed.

Lemma In_push_r (a : list string) (x : string) : In x (push a x).
Proof. unfold push. apply in_or_app. right. now left. Qed.

#[local] Hint Resolve In_push_l In_push_r : push.

(** Case analysis on every test that a goal still branches on. *)
Ltac split_tests :=
  repeat match goal with
         | |- context [match ?x with _ => _ end] => destruct x
         end.

Lemma quality_error_collected (o : ImageConversionOptions) (q : number) :
  read o.(Options.quality) = Some q ->
  quality_outside q = true ->
  In (quality_out_of_range q) (fst (collect o)).
Proof.
  unfold quality_outside. intros Hq Hr. unfold collect. rewrite Hq, Hr.
  split_tests; cbn [fst]; auto 10 with push.
Qed.

Lemma png_warning_collected (o : ImageConversionOptions) (q : number) :
  read o.(Options.quality) = Some q ->
  read o.(Options.format) = Some "png" ->
  In png_ignores_quality (snd (collect o)).
Proof.
  intros Hq Hf. unfold collect. rewrite Hq, Hf.
  change (strict_eq (Some "png") "png") with true.
  split_tests; cbn [snd]; auto 10 with push.
Qed.

Lemma quality_in_range_adds_no_error (o : ImageConversionOptions) (q : number) :
  read o.(Options.quality) = Some q ->
  quality_outside q = false ->
  fst (collect o) = fst (collect (with_quality Absent o)).
Proof.
  unfold quality_outside. intros Hq Hr. unfold collect. cbn [with_quality Options.quality
    Options.format Options.scale Options.width Options.height Options.waitTime
    Options.transparent read]. rewrite Hq, Hr.
  split_tests; reflexivity.
Qed.

Lemma png_adds_no_error (o : ImageConversionOptions) :
  read o.(Options.format) = Some "png" ->
  fst (collect o) = fst (collect (with_format (Present "jpg") o)).
Proof.
  intros Hf. unfold collect. cbn [with_format Options.quality Options.format
    Options.scale Options.width Options.height Options.waitTime
    Options.transparent]. rewrite Hf. cbn [read].
  change (truthy (Some "png") && negb (includes ["png"; "jpg"; "jpeg"] "png"))
    with false.
  change (truthy (Some "jpg") && negb (includes ["png"; "jpg"; "jpeg"] "jpg"))
    with false.
  change (strict_eq (Some "png") "png") with true.
  change (strict_eq (Some "jpg") "png") with false.
  destruct (read (Options.quality o)); split_tests; reflexivity.
Qed.

Lemma errors_field (o : ImageConversionOptions) :
  (validateOptions o).(Validation.errors)
  = match fst (collect o) with [] => None | _ :: _ => Some (fst (collect o)) end.
Proof. unfold validateOptions. destruct (collect o) as [[|e es] ws]; reflexivity. Qed.

Lemma warnings_field (o : ImageConversionOptions) :
  (validateOptions o).(Validation.warnings)
  = match snd (collect o) with [] => None | _ :: _ => Some (snd (collect o)) end.
Proof. unfold validateOptions. destruct (collect o) as [es [|x ws]]; reflexivity. Qed.

Lemma valid_field (o : ImageConversionOptions) :
  (validateOptions o).(Validation.valid)
  = match fst (collect o) with [] => true | _ :: _ => false end.
Proof. unfold validateOptions. destruct (collect o) as [[|e es] ws]; reflexivity. Qed.

(** Options that one of the six tests on format, quality, scale, width,
    height and waitTime rejects are not valid. *)
Lemma rejected_not_valid (o : ImageConversionOptions) :
  rejected o = true -> (validateOptions o).(Validation.valid) = false.
Proof.
  intros H. rewrite valid_field.
  assert (Hin : exists m, In m (fst (collect o))).
  { unfold rejected in H. unfold collect.
    repeat (apply orb_prop in H as [H | H]).
    - destruct (read (Options.format o)) as [f|]; [| discriminate H]. rewrite H.
      exists (unsupported_format f); destruct (read (Options.quality o)); split_tests; cbn [fst]; auto 10 with push.
    - destruct (read (Options.quality o)) as [q|]; [| discriminate H]. rewrite H.
      exists (quality_out_of_range q); split_tests; cbn [fst]; auto 10 with push.
    - destruct (read (Options.scale o)) as [x|]; [| discriminate H]. rewrite H.
      exists (scale_out_of_range x); destruct (read (Options.quality o)); split_tests; cbn [fst]; auto 10 with push.
    - destruct (read (Options.width o)) as [x|]; [| discriminate H]. rewrite H.
      exists (width_not_positive x); destruct (read (Options.quality o)); split_tests; cbn [fst]; auto 10 with push.
    - destruct (read (Options.height o)) as [x|]; [| discriminate H]. rewrite H.
      exists (height_not_positive x); destruct (read (Options.quality o)); split_tests; cbn [fst]; auto 10 with push.
    - destruct (read (Options.waitTime o)) as [x|]; [| discriminate H]. rewrite H.
      exists (waitTime_negative x); destruct (read (Options.quality o)); split_tests; cbn [fst]; auto 10 with push. }
  destruct Hin as [m Hin]. destruct (fst (collect o)); [destruct Hin | reflexivity].
Qed.

(** C6.  A quality below 1 or above 100 makes the options invalid, with
    the error that names the value; a quality given with format png
    adds the warning that PNG ignores it and no error: the errors are
    those of the same options with format jpg, and for a quality within
    the range those of the same options without quality.
    For [{quality: 150}] the result is invalid with the one error that
    ends in 150, for [{format: 'png', quality: 50}] it is valid with the
    one warning. *)
Theorem validateOptions_quality (o : ImageConversionOptions) (q : number) :
  read o.(Options.quality) = Some q ->
  let v := validateOptions o in
  (quality_outside q = true ->
     v.(Validation.valid) = false /\
     exists es, v.(Validation.errors) = Some es /\ In (quality_out_of_range q) es) /\
  (read o.(Options.format) = Some "png" ->
     (exists ws, v.(Validation.warnings) = Some ws /\ In png_ignores_quality ws) /\
     fst (collect o) = fst (collect (with_format (Present "jpg") o)) /\
     (quality_outside q = false ->
        fst (collect o) = fst (collect (with_quality Absent o)))) /\
  validateOptions (with_quality (Present (num 150)) Options.empty)
  = {| Validation.valid := false;
       Validation.errors := Some ["质量参数必须在 1-100 之间，当前值: 150"];
       Validation.warnings := None |} /\
  validateOptions (with_format (Present "png")
                     (with_quality (Present (num 50)) Options.empty))
  = {| Validation.valid := true;
       Validation.errors := None;
       Validation.warnings := Some ["PNG 格式忽略质量参数"] |}.
Proof.
  intros Hq v. subst v. split; [| split; [| split]].
  - intros Ho. pose proof (quality_error_collected o q Hq Ho) as Hin.
    rewrite valid_field, errors_field.
    destruct (fst (collect o)) as [|e es]; [destruct Hin |].
    split; [reflexivity |]. exists (e :: es). split; [reflexivity | exact Hin].
  - intros Hf. split; [| split].
    + pose proof (png_warning_collected o q Hq Hf) as Hin.
      rewrite warnings_field.
      destruct (snd (collect o)) as [|x ws]; [destruct Hin |].
      exists (x :: ws). split; [reflexivity | exact Hin].
    + now apply png_adds_no_error.
    + intros Hr. now apply quality_in_range_adds_no_error with q.
  - vm_compute. reflexivity.
  - vm_compute. reflexivity.
Qed.

Lemma validateOptions_quality_witness :
  read (with_quality (Present (num 150)) Options.empty).(Options.quality)
  = Some (num 150) /\
  (validateOptions (with_quality (Present (num 150)) Options.empty)).(Validation.valid)
  = false.
Proof.
  split; [reflexivity |].
  apply (validateOptions_quality (with_quality (Present (num 150)) Options.empty)
           (num 150) eq_refl).
  vm_compute. reflexivity.
Defined.

(** C10.  For the empty options object the result is valid and has
    neither an errors nor a warnings property.  In general either
    property is there exactly when something was collected for it, and
    then it is the collected list, never an empty one; and the result is
    valid exactly when it has no errors property. *)
Theorem validateOptions_omits_empty_lists :
  validateOptions Options.empty
  = {| Validation.valid := true;
       Validation.errors := None;
       Validation.warnings := None |} /\
  forall o : ImageConversionOptions,
    let v := validateOptions o in
    (v.(Validation.errors) = None <-> fst (collect o) = []) /\
    (v.(Validation.warnings) = None <-> snd (collect o) = []) /\
    (forall es, v.(Validation.errors) = Some es -> es = fst (collect o) /\ es <> []) /\
    (forall ws, v.(Validation.warnings) = Some ws -> ws = snd (collect o) /\ ws <> []) /\
    (v.(Validation.valid) = true <-> v.(Validation.errors) = None).
Proof.
  split; [vm_compute; reflexivity |].
  intros o v. subst v. rewrite errors_field, warnings_field, valid_field.
  destruct (fst (collect o)) as [|e es]; destruct (snd (collect o)) as [|x ws];
    repeat split; intros; try congruence; try discriminate;
    try (injection H as <-; reflexivity).
Qed.

(* ===================================================================== *)
(** * Invalid options *)
(* ===================================================================== *)

(** With invalid options [convert] reads the clock twice and does
    nothing else. *)
Lemma convert_rejected (env : Env) (source : ConversionSource)
      (options : option ImageConversionOptions) (w : World) :
  (validateOptions (_mergeOptions options)).(Validation.valid) = false ->
  convert env source options w
  = (Return (error_result env.(uuidv4) ImageErrorCode.INVALID_FORMAT
               (option_map (join "; ")
                  (validateOptions (_mergeOptions options)).(Validation.errors)
                ?? "选项验证失败")
               None
               (env.(Date_now) (S w.(clock_reads)) - env.(Date_now) w.(clock_reads))),
     {| trace := w.(trace); clock_reads := S (S w.(clock_reads)) |}).
Proof.
  intros Hv. unfold convert, bind, try_catch, now. cbn [trace clock_reads].
  rewrite Hv. reflexivity.
Qed.

(** C1.  When the merged options fail validation, [convert] returns a
    failure whose error code is INVALID_FORMAT, that is CONV-IMG-006,
    with the collected errors as message, and the trace of outside calls
    is what it was: the HTML plugin is not invoked, nothing is rendered,
    no screenshot is taken. *)
Theorem convert_invalid_options_fail_at_once
        (env : Env) (source : ConversionSource)
        (options : option ImageConversionOptions) (w : World) :
  (validateOptions (_mergeOptions options)).(Validation.valid) = false ->
  exists r,
    fst (convert env source options w) = Return r /\
    r.(Result.success) = false /\
    option_map code r.(Result.error) = Some "CONV-IMG-006" /\
    option_map message r.(Result.error)
    = Some (join "; " (fst (collect (_mergeOptions options)))) /\
    trace (snd (convert env source options w)) = trace w.
Proof.
  intros Hv. rewrite (convert_rejected env source options w Hv).
  eexists. split; [reflexivity |]. cbn [error_result Result.success Result.error
    option_map code message snd trace].
  repeat split. f_equal.
  rewrite valid_field in Hv. rewrite errors_field.
  destruct (fst (collect (_mergeOptions options))); [discriminate | reflexivity].
Qed.

Lemma convert_invalid_options_fail_at_once_witness :
  exists r,
    fst (convert (sample_env sample_files true) sample_source
                 (Some invalid_options) initial) = Return r /\
    r.(Result.success) = false /\
    option_map code r.(Result.error) = Some "CONV-IMG-006" /\
    option_map message r.(Result.error)
    = Some (join "; " (fst (collect (_mergeOptions (Some invalid_options))))) /\
    trace (snd (convert (sample_env sample_files true) sample_source
                        (Some invalid_options) initial)) = [].
Proof.
  apply (convert_invalid_options_fail_at_once (sample_env sample_files true)
           sample_source (Some invalid_options) initial).
  vm_compute. reflexivity.
Defined.

(** C9.  When the merged options fail validation, the progress observer
    is not invoked: the progress events after [convert] are those before
    it, so an observer passed with invalid options sees nothing, not
    even a failed event. *)
Theorem convert_invalid_options_report_nothing
        (env : Env) (source : ConversionSource)
        (options : option ImageConversionOptions) (w : World) :
  (validateOptions (_mergeOptions options)).(Validation.valid) = false ->
  progress_of (trace (snd (convert env source options w))) = progress_of (trace w).
Proof.
  intros Hv. rewrite (convert_rejected env source options w Hv). reflexivity.
Qed.

Lemma convert_invalid_options_report_nothing_witness :
  read (_mergeOptions (Some invalid_options)).(Options.onProgress) = Some Callback /\
  progress_of (trace (snd (convert (sample_env sample_files true) sample_source
                                   (Some invalid_options) initial))) = [].
Proof.
  split; [reflexivity |].
  apply (convert_invalid_options_report_nothing (sample_env sample_files true)
           sample_source (Some invalid_options) initial).
  vm_compute. reflexivity.
Defined.

(* ===================================================================== *)
(** * Effects of the steps *)
(* ===================================================================== *)

Section Silent.
Context {X : Type} (g : event -> list X).

Lemma silent_ret {A} (a : A) : silent g (ret a).
Proof. intros w. reflexivity. Qed.

Lemma silent_throw {A} (e : thrown) : silent g (@throw A e).
Proof. intros w. reflexivity. Qed.

Lemma silent_lift {A} (c : completion A) : silent g (lift c).
Proof. intros w. reflexivity. Qed.

Lemma silent_call {A} (ev : event) (c : completion A) :
  g ev = [] -> silent g (call ev c).
Proof.
  intros H w. unfold call. cbn [snd trace].
  rewrite flat_map_app. cbn [flat_map]. rewrite H. now rewrite !app_nil_r.
Qed.

Lemma silent_bind {A B} (m : M A) (f : A -> M B) :
  silent g m -> (forall a, silent g (f a)) -> silent g (bind m f).
Proof.
  intros Hm Hf w. unfold bind. specialize (Hm w).
  destruct (m w) as [[a|e] w']; cbn [snd] in *.
  - now rewrite Hf.
  - exact Hm.
Qed.

Lemma silent_try_catch {A} (m : M A) (h : thrown -> M A) :
  silent g m -> (forall e, silent g (h e)) -> silent g (try_catch m h).
Proof.
  intros Hm Hh w. unfold try_catch. specialize (Hm w).
  destruct (m w) as [[a|e] w']; cbn [snd] in *.
  - exact Hm.
  - now rewrite Hh.
Qed.

Lemma silent_try_finally {A} (m : M A) (f : M unit) :
  silent g m -> silent g f -> silent g (try_finally m f).
Proof.
  intros Hm Hf w. unfold try_finally. specialize (Hm w).
  destruct (m w) as [c w']. specialize (Hf w').
  destruct (f w') as [[u|e] w'']; cbn [snd] in *; congruence.
Qed.
End Silent.

(** Breaks a computation into its steps. *)
Ltac silence :=
  cbv zeta;
  repeat first
    [ apply silent_ret | apply silent_throw | apply silent_lift
    | apply silent_call; reflexivity
    | apply silent_bind; [| intros ?]
    | apply silent_try_catch; [| intros ?]
    | apply silent_try_finally
    | match goal with
      | |- silent _ (if ?b then _ else _) => destruct b
      | |- silent _ (match ?x with _ => _ end) => destruct x
      end ].

(** The render step and the file write do not touch the observer. *)
Lemma render_reports_nothing (env : Env) (files : FileSet)
      (options : ImageConversionOptions) :
  silent progress_item (_renderHTMLToImage env files options).
Proof. unfold _renderHTMLToImage, render_page. silence. Qed.

Lemma write_reports_nothing (env : Env) (data : bytes) (outputPath : string) :
  silent progress_item (_writeToFile env data outputPath).
Proof. unfold _writeToFile. silence. Qed.

(** Symbolic execution: case analysis on the next answer of the outside,
    which is a scrutinee that contains no other case analysis. *)
Ltac next_answer :=
  match goal with
  | |- context [match ?x with _ => _ end] =>
      lazymatch x with
      | context [match _ with _ => _ end] => fail
      | _ => destruct x eqn:?
      end
  end.

Ltac run :=
  repeat (cbv beta iota zeta delta
            [bind try_catch try_finally call lift ret throw now];
          cbn [fst snd trace clock_reads html_success html_data];
          try next_answer).

(** What the render step returns as image is what the screenshot gave. *)
Lemma render_returns_screenshot (env : Env) (files : FileSet)
      (options : ImageConversionOptions) (w : World) (out : RenderOutput) :
  fst (_renderHTMLToImage env files options w) = Return out ->
  env.(page_screenshot) (screenshotOptions options) = Return out.(imageData).
Proof.
  unfold _renderHTMLToImage, render_page. run.
  all: intros H; try discriminate H.
  all: injection H as <-; reflexivity.
Qed.

(* ===================================================================== *)
(** * A file set without index.html *)
(* ===================================================================== *)

Lemma render_refuses (env : Env) (files : FileSet)
      (options : ImageConversionOptions) (w : World) :
  no_index_text files = true ->
  _renderHTMLToImage env files options w
  = (Throw (JsError (refusal env)),
     {| trace := (w.(trace) ++ [ImportPuppeteer])%list;
        clock_reads := w.(clock_reads) |}).
Proof.
  unfold no_index_text, refusal, _renderHTMLToImage. intros H.
  destruct (files_get files "index.html") as [[s|b]|]; try discriminate H;
    destruct (import_puppeteer env); reflexivity.
Qed.

(** C2, as the code has it.  For a file set without a text entry named
    index.html the render step throws before it launches the browser:
    its only effect is the attempt to load the browser library.  The
    error says that index.html was not found when the library could be
    loaded, and that the library must be installed when it could not.
    The orchestrator turns it into a failure with the code
    SCREENSHOT_FAILED, that is CONV-IMG-004, the same message and the
    error as cause, and no call has gone to the browser. *)
Theorem render_without_index_html
        (env : Env) (files : FileSet) (options : ImageConversionOptions) (w : World) :
  no_index_text files = true ->
  _renderHTMLToImage env files options w
  = (Throw (JsError (refusal env)),
     {| trace := (w.(trace) ++ [ImportPuppeteer])%list;
        clock_reads := w.(clock_reads) |}) /\
  forall (source : ConversionSource) (given : option ImageConversionOptions)
         (e : option ConversionError),
    (validateOptions (_mergeOptions given)).(Validation.valid) = true ->
    env.(htmlPlugin_convert) source (read (_mergeOptions given).(Options.themeId))
    = Return {| html_success := true; html_data := Some files; html_error := e |} ->
    exists duration,
      fst (convert env source given w)
      = Return (error_result env.(uuidv4) "CONV-IMG-004" (refusal env)
                  (Some (JsError (refusal env))) duration) /\
      browser_calls (trace (snd (convert env source given w)))
      = browser_calls (trace w).
Proof.
  intros Hn. split; [now apply render_refuses |].
  intros source given e Hv Hh.
  unfold convert, reportProgress, _createErrorResult. rewrite Hv, Hh.
  cbn [negb html_success html_data]. run.
  all: match goal with
       | H : _renderHTMLToImage _ _ _ _ = _ |- _ =>
           rewrite (render_refuses env files _ _ Hn) in H;
           first [discriminate H | injection H as <- <-]
       end.
  all: eexists; split; [reflexivity |].
  all: unfold browser_calls; cbn [trace]; rewrite !flat_map_app;
       cbn [flat_map browser_item]; now rewrite !app_nil_r.
Qed.

Lemma render_without_index_html_witness :
  no_index_text [] = true /\
  _renderHTMLToImage (sample_env [] true) [] DEFAULT_OPTIONS initial
  = (Throw (JsError INDEX_MISSING),
     {| trace := [ImportPuppeteer]; clock_reads := 0 |}).
Proof.
  split; [reflexivity |].
  apply (render_without_index_html (sample_env [] true) [] DEFAULT_OPTIONS initial
           eq_refl).
Defined.

(** C2 as the specification has it fails where the browser library is
    not installed: the render step refuses the empty file set with the
    error about the library, not with the one about index.html, and that
    is the message of the failure [convert] returns. *)
Lemma render_without_index_html_counterexample :
  no_index_text [] = true /\
  fst (_renderHTMLToImage (sample_env [] false) [] DEFAULT_OPTIONS initial)
  = Throw (JsError PUPPETEER_MISSING) /\
  fst (_renderHTMLToImage (sample_env [] false) [] DEFAULT_OPTIONS initial)
  <> Throw (JsError INDEX_MISSING) /\
  option_map (fun r => option_map message r.(Result.error))
    (match fst (convert (sample_env [] false) sample_source None initial) with
     | Return r => Some r
     | Throw _ => None
     end)
  = Some (Some PUPPETEER_MISSING).
Proof.
  split; [reflexivity |]. split; [reflexivity |]. split.
  - vm_compute. intros H. discriminate H.
  - vm_compute. reflexivity.
Qed.

(* ===================================================================== *)
(** * The progress stream *)
(* ===================================================================== *)

Lemma convert_progress_cases (env : Env) (source : ConversionSource)
      (options : option ImageConversionOptions) (w : World) :
  exists ps,
    progress_of (trace (snd (convert env source options w)))
    = (progress_of (trace w) ++ ps)%list /\
    In ps (progress_streams env.(uuidv4)).
Proof.
  unfold convert, reportProgress, _createErrorResult. run.
  all: repeat match goal with
       | H : _renderHTMLToImage ?e ?f ?o ?W = (_, _) |- _ =>
           let S := fresh "S" in
           pose proof (render_reports_nothing e f o W) as S;
           rewrite H in S; cbn [snd trace] in S; clear H
       | H : _writeToFile ?e ?d ?p ?W = (_, _) |- _ =>
           let S := fresh "S" in
           pose proof (write_reports_nothing e d p W) as S;
           rewrite H in S; cbn [snd trace] in S; clear H
       end.
  all: unfold progress_of in *;
       repeat match goal with
       | S : flat_map _ _ = _ |- _ => rewrite !flat_map_app in S
       end;
       rewrite ?flat_map_app;
       repeat match goal with
       | S : flat_map progress_item (trace ?x) = _ |- _ => rewrite S; clear S
       end;
       cbn [flat_map progress_item]; rewrite <- ?app_assoc; cbn [app].
  all: eexists; split; [reflexivity || (rewrite app_nil_r; reflexivity) |].
  all: unfold progress_streams, checkpoint; cbn [In];
       repeat first [left; reflexivity | right].
Qed.

(** C4, as the code has it.  The progress events of one [convert] call
    are one of seven streams: none; the five checkpoints 0, 30, 40, 80,
    100; or the first one, three or four checkpoints followed by a
    failed event.  So the percents of the events before a failed event
    never decrease, a failed event is the last event of the call, and a
    failed event always reports percent 0, whatever was reported before
    it. *)
Theorem convert_progress_stream
        (env : Env) (source : ConversionSource)
        (options : option ImageConversionOptions) (w : World) :
  exists ps,
    progress_of (trace (snd (convert env source options w)))
    = (progress_of (trace w) ++ ps)%list /\
    In ps (progress_streams env.(uuidv4)) /\
    nondecreasing (map Progress.percent (filter not_failed ps)) = true /\
    failed_is_last ps = true /\
    Forall (fun info => is_failed info = true -> info.(Progress.percent) = num 0) ps.
Proof.
  destruct (convert_progress_cases env source options w) as [ps [Hps Hin]].
  exists ps. split; [exact Hps |]. split; [exact Hin |].
  unfold progress_streams in Hin. cbn [In] in Hin.
  repeat (destruct Hin as [<- | Hin]); try contradiction.
  all: split; [vm_compute; reflexivity |]; split; [reflexivity |].
  all: repeat constructor; intros H; try discriminate H; reflexivity.
Qed.

(** C4 as the specification has it fails when the render step throws:
    the observer sees the percents 0, 30, 40 and then the 0 of the
    failed event. *)
Lemma convert_progress_stream_counterexample :
  let ps :=
    progress_of (trace (snd (convert (sample_env [] true) sample_source
                                     (Some observed_options) initial))) in
  map Progress.status ps = [converting_html; rendering; rendering; failed] /\
  map Progress.percent ps = [num 0; num 30; num 40; num 0] /\
  nondecreasing (map Progress.percent ps) = false.
Proof.
  cbv zeta. repeat split; vm_compute; reflexivity.
Qed.

(* ===================================================================== *)
(** * Strings and matching *)
(* ===================================================================== *)

Lemma append_nil_r (s : string) : s ++ "" = s.
Proof. induction s as [|c s IH]; cbn; [reflexivity | now rewrite IH]. Qed.

Lemma append_assoc (a b c : string) : (a ++ b) ++ c = a ++ (b ++ c).
Proof. induction a as [|x a IH]; cbn; [reflexivity | now rewrite IH]. Qed.

Lemma length_append (a b : string) :
  String.length (a ++ b) = (String.length a + String.length b)%nat.
Proof. induction a as [|x a IH]; cbn; [reflexivity | now rewrite IH]. Qed.

Lemma substring_prefix (u v : string) : substring 0 (String.length u) (u ++ v) = u.
Proof.
  induction u as [|x u IH]; cbn.
  - destruct v; reflexivity.
  - now rewrite IH.
Qed.

Lemma is_suffix_refl (s : string) : is_suffix s s.
Proof. now exists "". Qed.

Lemma is_suffix_cons (x : ascii) (rest s : string) :
  is_suffix rest s -> is_suffix rest (String x s).
Proof. intros [u ->]. now exists (String x u). Qed.

Lemma is_suffix_trans (a b c : string) :
  is_suffix a b -> is_suffix b c -> is_suffix a c.
Proof. intros [u ->] [v ->]. exists (v ++ u). now rewrite append_assoc. Qed.

Lemma is_suffix_length (rest s : string) :
  is_suffix rest s -> (String.length rest <= String.length s)%nat.
Proof. intros [u ->]. rewrite length_append. lia. Qed.

Lemma consumed_append (u rest : string) : RegExp.consumed (u ++ rest) rest = u.
Proof.
  unfold RegExp.consumed. rewrite length_append.
  replace (String.length u + String.length rest - String.length rest)%nat
    with (String.length u) by lia.
  apply substring_prefix.
Qed.

Lemma consumed_spec (rest s : string) :
  is_suffix rest s -> s = RegExp.consumed s rest ++ rest.
Proof. intros [u ->]. now rewrite consumed_append. Qed.

Module RegExpFacts.
Import RegExp.

(** The matcher hands to its continuation a suffix of the subject. *)
Lemma match_star_suffix (i : bool) (cs : charset) (k : continuation)
      (s : string) (c : captures) (res : string * captures) :
  match_star i cs k s c = Some res ->
  exists s', is_suffix s' s /\ k s' c = Some res.
Proof.
  induction s as [|x s IH]; cbn.
  - intros H. exists "". split; [apply is_suffix_refl | exact H].
  - destruct (charset_matches i cs x).
    + destruct (match_star i cs k s c) as [r|] eqn:E.
      * intros H. destruct (IH H) as [s' [Hs Hk]].
        exists s'. split; [now apply is_suffix_cons | exact Hk].
      * intros H. exists (String x s). split; [apply is_suffix_refl | exact H].
    + intros H. exists (String x s). split; [apply is_suffix_refl | exact H].
Qed.

Lemma match_node_suffix (i : bool) (r : node) :
  forall (k : continuation) (s : string) (c : captures) (res : string * captures),
    match_node i r k s c = Some res ->
    exists s' c', is_suffix s' s /\ k s' c' = Some res.
Proof.
  induction r as [| cs | cs | r1 IH1 r2 IH2 | r1 IH1 r2 IH2 | n r IH |];
    intros k s c res; cbn.
  - intros H. exists s, c. split; [apply is_suffix_refl | exact H].
  - destruct s as [|x s]; [discriminate |].
    destruct (charset_matches i cs x); [| discriminate].
    intros H. exists s, c. split; [apply is_suffix_cons, is_suffix_refl | exact H].
  - intros H. destruct (match_star_suffix _ _ _ _ _ _ H) as [s' [Hs Hk]].
    now exists s', c.
  - intros H. destruct (IH1 _ _ _ _ H) as [s1 [c1 [Hs1 H1]]].
    destruct (IH2 _ _ _ _ H1) as [s2 [c2 [Hs2 H2]]].
    exists s2, c2. split; [now apply is_suffix_trans with s1 | exact H2].
  - destruct (match_node i r1 k s c) as [r|] eqn:E.
    + intros H. destruct (IH1 _ _ _ _ E) as [s1 [c1 [Hs1 H1]]].
      exists s1, c1. split; [exact Hs1 | congruence].
    + intros H. now apply IH2 in H.
  - intros H. destruct (IH _ _ _ _ H) as [s1 [c1 [Hs1 H1]]].
    now exists s1, (set_capture n (consumed s s1) c1).
  - destruct s; [| discriminate].
    intros H. exists "", c. split; [apply is_suffix_refl | exact H].
Qed.

Lemma match_at_suffix (re : regexp) (s rest : string) (caps : captures) :
  match_at re s = Some (rest, caps) -> is_suffix rest s.
Proof.
  unfold match_at. intros H.
  destruct (match_node_suffix _ _ _ _ _ _ H) as [s' [c' [Hs Hk]]].
  now injection Hk as -> _.
Qed.

(** Where nothing matches, replacing changes nothing. *)
Lemma replace_from_no_match (re : regexp) (template : string) (s : string) :
  test re s = false ->
  forall before, replace_from re template before 0 s = s.
Proof.
  induction s as [|x s IH]; cbn; intros H before.
  - destruct (match_at re "") as [[rest caps]|]; [discriminate | reflexivity].
  - destruct (match_at re (String x s)) as [[rest caps]|]; [discriminate |].
    now rewrite IH.
Qed.

Lemma replace_first_no_match (re : regexp) (template : string) (s : string) :
  test re s = false ->
  forall before, replace_first re template before s = s.
Proof.
  induction s as [|x s IH]; cbn; intros H before.
  - destruct (match_at re "") as [[rest caps]|]; [discriminate | reflexivity].
  - destruct (match_at re (String x s)) as [[rest caps]|]; [discriminate |].
    now rewrite IH.
Qed.

Lemma replace_no_match (re : regexp) (template : string) (s : string) :
  test re s = false -> replace s re template = s.
Proof.
  intros H. unfold replace. destruct (global re).
  - now apply replace_from_no_match.
  - now apply replace_first_no_match.
Qed.

End RegExpFacts.

(* ===================================================================== *)
(** * The inliner on a document without external references *)
(* ===================================================================== *)

Lemma inline_theme_fixed (files : FileSet) (s : string) :
  theme_applies files && RegExp.test THEME_LINK s = false ->
  inline_theme s files = s.
Proof.
  unfold theme_applies, inline_theme.
  destruct (files_get files "theme.css") as [[css|b]|]; try reflexivity.
  destruct (truthy (Some css)); [| reflexivity].
  cbn [andb]. intros H. now apply RegExpFacts.replace_no_match.
Qed.

(** The loops leave [s] as it is when no entry matches in it; that the
    patterns are well formed is known from a run that returned. *)
Lemma inline_css_fixed (entries : FileSet) :
  forall (s0 r0 s : string),
    inline_css entries s0 = Return r0 ->
    existsb (css_reference s) entries = false ->
    inline_css entries s = Return s.
Proof.
  induction entries as [|[filePath c] rest IH]; intros s0 r0 s Hrun Hno.
  - reflexivity.
  - cbn [existsb] in Hno. apply orb_false_elim in Hno as [Hhere Hrest].
    unfold css_reference, matches_somewhere, is_css_entry, basename in Hhere.
    cbn [fst snd] in Hhere. cbn [inline_css] in *.
    destruct c as [css|b]; [| now apply IH with s0 r0].
    destruct (endsWith filePath ".css" && negb (String.eqb filePath "theme.css"));
      [| now apply IH with s0 r0].
    destruct (RegExp.RegExp_new _ "gi") as [re|]; [| discriminate Hrun].
    cbn [andb] in Hhere. rewrite RegExpFacts.replace_no_match by exact Hhere.
    now apply IH with (RegExp.replace s0 re (style_tag css)) r0.
Qed.

Lemma inline_images_fixed (entries : FileSet) :
  forall (s0 r0 s : string),
    inline_images entries s0 = Return r0 ->
    existsb (image_reference s) entries = false ->
    inline_images entries s = Return s.
Proof.
  induction entries as [|[filePath c] rest IH]; intros s0 r0 s Hrun Hno.
  - reflexivity.
  - cbn [existsb] in Hno. apply orb_false_elim in Hno as [Hhere Hrest].
    unfold image_reference, matches_somewhere, is_image_entry, basename in Hhere.
    cbn [fst snd] in Hhere. cbn [inline_images] in *.
    destruct c as [css|b]; [now apply IH with s0 r0 |].
    destruct (_isImagePath filePath); [| now apply IH with s0 r0].
    destruct (RegExp.RegExp_new _ "gi") as [re|]; [| discriminate Hrun].
    cbn [andb] in Hhere. rewrite RegExpFacts.replace_no_match by exact Hhere.
    now apply IH with (RegExp.replace s0 re (data_url_template filePath b)) r0.
Qed.

(** C8.  When the output of the inliner contains no link tag and no src
    or href attribute that matches an entry of the file set the inliner
    embeds, inlining that output again, with the same file set, returns
    it unchanged. *)
Theorem inline_idempotent_without_references
        (html : string) (files : FileSet) (r : string) :
  _inlineResources html files = Return r ->
  has_external_references files r = false ->
  _inlineResources r files = Return r.
Proof.
  unfold _inlineResources, has_external_references. intros Hrun Hno.
  apply orb_false_elim in Hno as [Hno Himg].
  apply orb_false_elim in Hno as [Htheme Hcss].
  destruct (inline_css files (inline_theme html files)) as [r1|e] eqn:Hcssrun;
    [| discriminate Hrun].
  rewrite (inline_theme_fixed files r Htheme).
  rewrite (inline_css_fixed files _ _ r Hcssrun Hcss).
  exact (inline_images_fixed files _ _ r Hrun Himg).
Qed.

Lemma inline_idempotent_without_references_witness :
  _inlineResources
    "<html><link rel='stylesheet' href='theme.css'><img src='img/a.png'></html>"
    sample_files
  = Return ("<html>" ++ style_tag "body{}" ++ "<img src=" ++ dquote
            ++ "data:image/png;base64,TWFu" ++ dquote ++ "></html>") /\
  _inlineResources
    ("<html>" ++ style_tag "body{}" ++ "<img src=" ++ dquote
     ++ "data:image/png;base64,TWFu" ++ dquote ++ "></html>")
    sample_files
  = Return ("<html>" ++ style_tag "body{}" ++ "<img src=" ++ dquote
            ++ "data:image/png;base64,TWFu" ++ dquote ++ "></html>").
Proof.
  split; [vm_compute; reflexivity |].
  apply (inline_idempotent_without_references
           "<html><link rel='stylesheet' href='theme.css'><img src='img/a.png'></html>"
           sample_files).
  - vm_compute. reflexivity.
  - vm_compute. reflexivity.
Defined.

(* ===================================================================== *)
(** * The first step of the inliner *)
(* ===================================================================== *)

Module ReplaceFacts.
Import RegExp.

Lemma GetSubstitution_plain (matched before after : string) (caps : captures)
      (template : string) :
  no_dollar template = true ->
  GetSubstitution matched before after caps template = template.
Proof.
  induction template as [|c t IH]; cbn; [reflexivity |].
  destruct (Ascii.eqb c "$"); cbn; [discriminate |].
  intros H. now rewrite IH.
Qed.

Lemma no_dollar_append (a b : string) :
  no_dollar (a ++ b) = no_dollar a && no_dollar b.
Proof.
  induction a as [|c a IH]; cbn; [reflexivity |].
  rewrite IH. now rewrite andb_assoc.
Qed.

Lemma test_search (re : regexp) (s : string) :
  test re s = false <-> search re s = None.
Proof.
  induction s as [|x s IH]; cbn.
  - destruct (match_at re "") as [[rest caps]|]; split; congruence.
  - destruct (match_at re (String x s)) as [[rest caps]|]; [split; congruence |].
    rewrite IH. destruct (search re s) as [[[pre m] post]|]; split; congruence.
Qed.

(** The parts that [search] returns make up the subject. *)
Lemma search_parts (re : regexp) (s : string) :
  forall pre m post,
    search re s = Some (pre, m, post) -> s = pre ++ m ++ post.
Proof.
  induction s as [|x s IH]; intros pre m post; cbn [search].
  - destruct (match_at re "") as [[rest caps]|] eqn:E; [| discriminate].
    intros H. injection H as <- <- <-. cbn [append].
    apply RegExpFacts.match_at_suffix in E. now apply consumed_spec.
  - destruct (match_at re (String x s)) as [[rest caps]|] eqn:E.
    + intros H. injection H as <- <- <-. cbn [append].
      apply RegExpFacts.match_at_suffix in E. now apply consumed_spec.
    + destruct (search re s) as [[[pre' m'] post']|]; [| discriminate].
      intros H. injection H as <- <- <-. cbn [append]. f_equal. now apply IH.
Qed.

Section Plain.
Variables (re : regexp) (template : string).
Hypothesis plain : no_dollar template = true.

(** The characters a match covers are passed over. *)
Lemma replace_from_skip (u rest : string) :
  forall before,
    replace_from re template before (String.length u) (u ++ rest)
    = replace_from re template (before ++ u) 0 rest.
Proof.
  induction u as [|x u IH]; intros before.
  - cbn [String.length append]. rewrite append_nil_r.
    destruct rest; reflexivity.
  - cbn [String.length append replace_from]. rewrite IH.
    now rewrite append_assoc.
Qed.

(** Without replacement patterns the text before the position does
    not matter. *)
Lemma replace_from_before (s : string) :
  forall n b1 b2,
    replace_from re template b1 n s = replace_from re template b2 n s.
Proof.
  induction s as [|x s IH]; intros n b1 b2.
  - destruct n; cbn [replace_from]; [| reflexivity].
    destruct (match_at re "") as [[rest caps]|]; [| reflexivity].
    now rewrite !GetSubstitution_plain.
  - destruct n; cbn [replace_from].
    + destruct (match_at re (String x s)) as [[rest caps]|].
      * rewrite !GetSubstitution_plain by exact plain.
        destruct (String.length (consumed (String x s) rest));
          f_equal; [f_equal |]; apply IH.
      * f_equal. apply IH.
    + apply IH.
Qed.

Hypothesis nonempty :
  forall s rest caps, match_at re s = Some (rest, caps) -> consumed s rest <> "".

(** The leftmost match is replaced by the template, and what follows
    it is treated in the same way. *)
Lemma replace_from_search (s : string) :
  forall pre m post before,
    search re s = Some (pre, m, post) ->
    replace_from re template before 0 s
    = pre ++ template ++ replace_from re template "" 0 post.
Proof.
  induction s as [|x s IH]; intros pre m post before.
  - cbn [search]. destruct (match_at re "") as [[rest caps]|] eqn:E; [| discriminate].
    exfalso. apply (nonempty _ _ _ E). reflexivity.
  - cbn [search replace_from].
    destruct (match_at re (String x s)) as [[rest caps]|] eqn:E.
    + intros H. injection H as <- <- <-.
      rewrite GetSubstitution_plain by exact plain. cbn [append].
      pose proof (nonempty _ _ _ E) as Hne.
      pose proof (consumed_spec _ _ (RegExpFacts.match_at_suffix _ _ _ _ E)) as Hs.
      destruct (consumed (String x s) rest) as [|y m'] eqn:Em; [now destruct Hne |].
      cbn [append] in Hs. injection Hs as <- ->.
      cbn [String.length]. rewrite replace_from_skip.
      f_equal. apply replace_from_before.
    + destruct (search re s) as [[[pre' m'] post']|] eqn:Es; [| discriminate].
      intros H. injection H as <- <- <-. cbn [append]. f_equal.
      now apply IH with m'.
Qed.
End Plain.

(** A regular expression that starts with a character matches
    nothing empty. *)
Lemma starts_with_character (re : regexp) (cs : charset) (r : node) :
  source re = Seq (One cs) r ->
  forall s rest caps, match_at re s = Some (rest, caps) -> consumed s rest <> "".
Proof.
  intros Hsrc s rest caps. unfold match_at. rewrite Hsrc. cbn [match_node].
  destruct s as [|x s]; [discriminate |].
  destruct (charset_matches (ignoreCase re) cs x); [| discriminate].
  intros H. apply RegExpFacts.match_node_suffix in H as [s' [c' [[u ->] Hk]]].
  injection Hk as -> _.
  change (String x (u ++ rest)) with (String x u ++ rest).
  rewrite consumed_append. discriminate.
Qed.

End ReplaceFacts.

Module InertFacts.
Import RegExp.

(** Without groups there are no captures. *)
Lemma match_star_empty (i : bool) (cs : charset) (k : continuation) :
  (forall s res, k s [] = Some res -> snd res = []) ->
  forall s res, match_star i cs k s [] = Some res -> snd res = [].
Proof.
  intros Hk. induction s as [|x s IH]; intros res; cbn [match_star].
  - apply Hk.
  - destruct (charset_matches i cs x); [| apply Hk].
    destruct (match_star i cs k s []) as [r|] eqn:E; [| apply Hk].
    intros H. injection H as <-. now apply IH.
Qed.

Lemma set_capture_empty (n : nat) (v : string) : set_capture n v [] = [].
Proof. destruct n as [|[|n]]; reflexivity. Qed.

Lemma match_node_empty (i : bool) (r : node) :
  forall (k : continuation),
    (forall s res, k s [] = Some res -> snd res = []) ->
    forall s res, match_node i r k s [] = Some res -> snd res = [].
Proof.
  induction r as [| cs | cs | r1 IH1 r2 IH2 | r1 IH1 r2 IH2 | n r IH |];
    intros k Hk s res; cbn [match_node].
  - apply Hk.
  - destruct s as [|x s]; [discriminate |].
    destruct (charset_matches i cs x); [apply Hk | discriminate].
  - now apply match_star_empty.
  - apply IH1. intros s' res'. now apply IH2.
  - destruct (match_node i r1 k s []) as [r|] eqn:E.
    + intros H. injection H as <-. now apply IH1 with k s.
    + now apply IH2.
  - apply IH. intros s' res'. rewrite set_capture_empty. apply Hk.
  - destruct s; [apply Hk | discriminate].
Qed.

Lemma match_at_empty (re : regexp) (s rest : string) (caps : captures) :
  groups re = 0%nat -> match_at re s = Some (rest, caps) -> caps = [].
Proof.
  unfold match_at. intros -> H.
  apply (match_node_empty _ _ _) in H; [exact H |].
  intros s' res' E. now injection E as <-.
Qed.

Lemma is_capture_empty (n : nat) : is_capture [] n = false.
Proof. destruct n; [reflexivity |]. unfold is_capture. now rewrite andb_false_r. Qed.

(** A template without replacement patterns stands for itself. *)
Lemma GetSubstitution_inert (matched before after : string) :
  forall template,
    no_pattern template = true ->
    GetSubstitution matched before after [] template = template.
Proof.
  induction template as [|c t IH]; [reflexivity |].
  cbn [no_pattern GetSubstitution]. intros H. apply andb_prop in H as [Hc Ht].
  specialize (IH Ht).
  destruct (Ascii.eqb c "$") eqn:Ec; cbn [negb].
  - apply Ascii.eqb_eq in Ec. subst c.
    destruct t as [|d t']; [reflexivity |].
    cbn [andb] in Hc. unfold is_pattern_character in Hc.
    destruct (Ascii.eqb d "$"); [discriminate Hc |].
    destruct (Ascii.eqb d "&"); [discriminate Hc |].
    destruct (Ascii.eqb d "`"); [discriminate Hc |].
    destruct (Ascii.eqb d "'"); [discriminate Hc |].
    pose proof IH as E.
    destruct (is_digit d).
    + rewrite !is_capture_empty, E.
      destruct t' as [|d2 t'']; [reflexivity |].
      destruct (is_digit d2); [| reflexivity].
      rewrite is_capture_empty.
      now destruct (List.length (@nil (option string))
                    <? 10 * digit_value d + digit_value d2)%nat.
    + now rewrite E.
  - f_equal. exact IH.
Qed.

Lemma no_pattern_append (a b : string) (x : ascii) :
  is_pattern_character x = false ->
  no_pattern a = true -> no_pattern (String x b) = true ->
  no_pattern (a ++ String x b) = true.
Proof.
  intros Hx. induction a as [|c a IH]; intros Ha Hb; [exact Hb |].
  cbn [append]. cbn [no_pattern] in Ha. apply andb_prop in Ha as [Hc Ha].
  specialize (IH Ha Hb).
  change (no_pattern (String c (a ++ String x b)))
    with (match a ++ String x b with
          | String d _ => negb (Ascii.eqb c "$" && is_pattern_character d)
          | "" => true
          end && no_pattern (a ++ String x b)).
  rewrite IH, andb_true_r. destruct a as [|d a]; cbn [append].
  - rewrite Hx. now rewrite andb_false_r.
  - exact Hc.
Qed.

Lemma no_pattern_style_tag (css : string) :
  no_pattern css = true -> no_pattern (style_tag css) = true.
Proof.
  intros H. unfold style_tag, newline.
  assert (E : "<style type=" ++ dquote ++ "text/css" ++ dquote ++ ">"
              ++ String (ascii_of_nat 10) "" ++ css
              ++ String (ascii_of_nat 10) "" ++ "</style>"
              = ("<style type=" ++ dquote ++ "text/css" ++ dquote ++ ">"
                 ++ String (ascii_of_nat 10) "")
                ++ (css ++ String (ascii_of_nat 10) "</style>")).
  { cbn [append dquote]. reflexivity. }
  rewrite E. clear E.
  assert (Hc : no_pattern (css ++ String (ascii_of_nat 10) "</style>") = true)
    by (apply no_pattern_append; [reflexivity | exact H | reflexivity]).
  destruct (css ++ String (ascii_of_nat 10) "</style>") as [|x rest] eqn:E.
  - destruct css; discriminate E.
  - revert Hc. generalize (String x rest). clear. intros s Hs.
    cbn [append dquote]. cbn [no_pattern]. 
    repeat (cbn [Ascii.eqb Bool.eqb andb negb]; try rewrite ?andb_true_l).
    destruct s; exact Hs.
Qed.

Section Verbatim.
Variables (re : regexp) (template : string).
Hypothesis no_groups : groups re = 0%nat.
Hypothesis inert : no_pattern template = true.
Hypothesis nonempty :
  forall s rest caps, match_at re s = Some (rest, caps) -> consumed s rest <> "".

Lemma replace_from_fixed (s : string) :
  forall n b1 b2,
    replace_from re template b1 n s = replace_from re template b2 n s.
Proof.
  induction s as [|x s IH]; intros n b1 b2.
  - destruct n; cbn [replace_from]; [| reflexivity].
    destruct (match_at re "") as [[rest caps]|] eqn:E; [| reflexivity].
    rewrite (match_at_empty _ _ _ _ no_groups E).
    now rewrite !GetSubstitution_inert.
  - destruct n; cbn [replace_from].
    + destruct (match_at re (String x s)) as [[rest caps]|] eqn:E.
      * rewrite (match_at_empty _ _ _ _ no_groups E).
        rewrite !GetSubstitution_inert by exact inert.
        destruct (String.length (consumed (String x s) rest));
          f_equal; [f_equal |]; apply IH.
      * f_equal. apply IH.
    + apply IH.
Qed.

(** The leftmost match is replaced by the template as it is, and what
    follows it is treated in the same way. *)
Lemma replace_from_leftmost_verbatim (s : string) :
  forall pre m post before,
    search re s = Some (pre, m, post) ->
    replace_from re template before 0 s
    = pre ++ template ++ replace_from re template "" 0 post.
Proof.
  induction s as [|x s IH]; intros pre m post before.
  - cbn [search]. destruct (match_at re "") as [[rest caps]|] eqn:E; [| discriminate].
    exfalso. apply (nonempty _ _ _ E). reflexivity.
  - cbn [search replace_from].
    destruct (match_at re (String x s)) as [[rest caps]|] eqn:E.
    + intros H. injection H as <- <- <-.
      rewrite (match_at_empty _ _ _ _ no_groups E).
      rewrite GetSubstitution_inert by exact inert. cbn [append].
      pose proof (nonempty _ _ _ E) as Hne.
      pose proof (consumed_spec _ _ (RegExpFacts.match_at_suffix _ _ _ _ E)) as Hs.
      destruct (consumed (String x s) rest) as [|y m'] eqn:Em; [now destruct Hne |].
      cbn [append] in Hs. injection Hs as <- ->.
      cbn [String.length]. rewrite ReplaceFacts.replace_from_skip.
      f_equal. apply replace_from_fixed.
    + destruct (search re s) as [[[pre' m'] post']|] eqn:Es; [| discriminate].
      intros H. injection H as <- <- <-. cbn [append]. f_equal.
      now apply IH with m'.
Qed.
End Verbatim.

End InertFacts.

(** C5, as the code has it.  An empty theme.css replaces nothing.  With
    a non-empty text theme.css in which no [$] is followed by [$], [&],
    a backquote or a quote, the first step replaces the leftmost link
    tag that refers to theme.css, in any letter case, by the style block
    around the style sheet as it is, and treats the text after the tag
    in the same way: every such link tag is replaced, not only the
    first.  Without such a tag the document stays as it is. *)
Theorem inline_theme_replaces_every_link
        (html : string) (files : FileSet) (css : string) :
  files_get files "theme.css" = Some (Text css) ->
  no_pattern css = true ->
  (css = "" -> inline_theme html files = html) /\
  (css <> "" ->
   match RegExp.search THEME_LINK html with
   | None => inline_theme html files = html
   | Some (before, tag, after) =>
       html = before ++ tag ++ after /\
       inline_theme html files
       = before ++ style_tag css ++ inline_theme after files
   end).
Proof.
  intros Hget Hplain. unfold inline_theme. rewrite Hget. split.
  - intros ->. reflexivity.
  - intros Hne.
    assert (Ht : truthy (Some css) = true).
    { cbn. destruct css; [now destruct Hne | reflexivity]. }
    rewrite Ht.
    pose proof (InertFacts.no_pattern_style_tag css Hplain) as Htag.
    destruct (RegExp.search THEME_LINK html) as [[[before tag] after]|] eqn:Es.
    + split; [now apply ReplaceFacts.search_parts with THEME_LINK |].
      unfold RegExp.replace. change (RegExp.global THEME_LINK) with true. cbv iota.
      apply InertFacts.replace_from_leftmost_verbatim with tag;
        [reflexivity | exact Htag | | exact Es].
      eapply ReplaceFacts.starts_with_character. reflexivity.
    + apply RegExpFacts.replace_no_match. now apply ReplaceFacts.test_search.
Qed.

Lemma inline_theme_replaces_every_link_witness :
  inline_theme upper_link [("theme.css", Text "a[href$=.pdf]{color:red}")]
  = style_tag "a[href$=.pdf]{color:red}" ++ "<p>"
    ++ style_tag "a[href$=.pdf]{color:red}" /\
  inline_theme upper_link [("theme.css", Text "")] = upper_link.
Proof.
  destruct (inline_theme_replaces_every_link upper_link
              [("theme.css", Text "a[href$=.pdf]{color:red}")]
              "a[href$=.pdf]{color:red}" eq_refl eq_refl) as [_ H].
  specialize (H ltac:(discriminate)).
  change (RegExp.search THEME_LINK upper_link)
    with (Some ("", "<LINK REL='stylesheet' HREF='Theme.CSS'>",
                "<p><link href='theme.css'>")) in H.
  destruct H as [_ H]. split.
  - rewrite H. vm_compute. reflexivity.
  - exact (proj1 (inline_theme_replaces_every_link upper_link
                    [("theme.css", Text "")] "" eq_refl eq_refl) eq_refl).
Defined.

(** C5 as the specification has it fails.  Of two link tags to
    theme.css both are replaced, where the specification replaces the
    first and leaves the second to the later steps, which do nothing
    here.  A style sheet with the replacement pattern for the matched
    text does not arrive as it is: the pattern is expanded to the link
    tag.  And an empty theme.css replaces nothing. *)
Lemma inline_theme_replaces_every_link_counterexample :
  _inlineResources two_links [("theme.css", Text "body{}")]
  = Return (style_tag "body{}" ++ "<p>" ++ style_tag "body{}") /\
  inline_first_theme_link two_links [("theme.css", Text "body{}")]
  = style_tag "body{}" ++ "<p><link rel='stylesheet' href='theme.css'>" /\
  _inlineResources two_links [("theme.css", Text "body{}")]
  <> Return (inline_first_theme_link two_links [("theme.css", Text "body{}")]) /\
  _inlineResources one_link [("theme.css", Text "a::after{content:'$&'}")]
  = Return (style_tag "a::after{content:'<link href='theme.css'>'}") /\
  _inlineResources one_link [("theme.css", Text "a::after{content:'$&'}")]
  <> Return (style_tag "a::after{content:'$&'}") /\
  _inlineResources one_link [("theme.css", Text "")] = Return one_link.
Proof.
  split; [vm_compute; reflexivity |].
  split; [vm_compute; reflexivity |].
  split; [vm_compute; intros H; discriminate H |].
  split; [vm_compute; reflexivity |].
  split; [vm_compute; intros H; discriminate H |].
  vm_compute; reflexivity.
Qed.

(* ===================================================================== *)
(** * Numbers *)
(* ===================================================================== *)

Module NumberFacts.
Import Number.

Local Open Scope Z_scope.

(** The number of binary digits. *)
Lemma digits2_size (p : positive) : digits2_pos p = Pos.size p.
Proof. induction p; cbn; congruence. Qed.

Lemma digits_bounds (p : positive) :
2 ^ (Zpos (digits2_pos p) - 1) <= Zpos p < 2 ^ Zpos (digits2_pos p).
Proof.
rewrite digits2_size. split.
- pose proof (Pos.size_le p) as H.
  apply Pos2Z.pos_le_pos in H. rewrite Pos2Z.inj_pow in H.
  change (Zpos p~0) with (2 * Zpos p) in H.
  replace (Zpos (Pos.size p)) with (Z.succ (Zpos (Pos.size p) - 1)) in H by lia.
  rewrite Z.pow_succ_r in H by lia. lia.
- pose proof (Pos.size_gt p) as H.
  apply Pos2Z.pos_lt_pos in H. now rewrite Pos2Z.inj_pow in H.
Qed.

Lemma digits_le_53 (p : positive) :
Zpos p < 2 ^ 53 -> Zpos (digits2_pos p) <= 53.
Proof.
intros H. destruct (Z_le_gt_dec (Zpos (digits2_pos p)) 53) as [L|G]; [exact L |].
exfalso. pose proof (digits_bounds p) as [B _].
assert (2 ^ 53 <= 2 ^ (Zpos (digits2_pos p) - 1)) by (apply Z.pow_le_mono_r; lia).
lia.
Qed.

Lemma digits_iter_xO (p d : positive) :
digits2_pos (Pos.iter xO p d) = (digits2_pos p + d)%positive.
Proof.
induction d as [|d IH] using Pos.peano_ind.
- cbn. now rewrite Pos.add_1_r.
- rewrite Pos.iter_succ. cbn [digits2_pos]. rewrite IH. now rewrite Pos.add_succ_r.
Qed.

Lemma value_iter_xO (p d : positive) :
Zpos (Pos.iter xO p d) = Zpos p * 2 ^ Zpos d.
Proof.
induction d as [|d IH] using Pos.peano_ind.
- cbn. lia.
- rewrite Pos.iter_succ, Pos2Z.inj_succ, Z.pow_succ_r by lia.
  change (Zpos (Pos.iter xO p d)~0) with (2 * Zpos (Pos.iter xO p d)). lia.
Qed.

(** Rounding a mantissa that is in place already. *)
Lemma shr_fexp_canonical (m : positive) (e : Z) :
fexp prec emax (Zpos (digits2_pos m) + e) = e ->
shr_fexp prec emax (Zpos m) e loc_Exact
= ({| shr_m := Zpos m; shr_r := false; shr_s := false |}, e).
Proof.
intros H. unfold shr_fexp. cbn [Zdigits2]. rewrite H, Z.sub_diag. reflexivity.
Qed.

Lemma binary_round_aux_canonical (s : bool) (m : positive) (e : Z) :
fexp prec emax (Zpos (digits2_pos m) + e) = e ->
e <= emax - prec ->
binary_round_aux prec emax s (Zpos m) e loc_Exact = S754_finite s m e.
Proof.
intros H L. unfold binary_round_aux. rewrite (shr_fexp_canonical m e H).
cbn [shr_m loc_of_shr_record round_nearest_even].
rewrite (shr_fexp_canonical m e H). cbn [shr_m].
apply Z.leb_le in L. now rewrite L.
Qed.

Lemma normal_canonical (m : positive) (e : Z) :
Zpos (digits2_pos m) = 53 -> -1074 <= e ->
fexp prec emax (Zpos (digits2_pos m) + e) = e.
Proof. intros D L. unfold fexp, emin, prec, emax. rewrite D. lia. Qed.

(** The conversion of an integer below 2^53 is exact and normal. *)
Lemma of_Z_pos (s : bool) (p : positive) :
Zpos p < 2 ^ 53 ->
exists m e,
  binary_round prec emax s p 0 = S754_finite s m e /\
  Zpos (digits2_pos m) = 53 /\ -52 <= e <= 0 /\ Zpos m = Zpos p * 2 ^ (- e).
Proof.
intros B. pose proof (digits_le_53 p B) as D.
assert (1 <= Zpos (digits2_pos p)) as D1 by lia.
unfold binary_round.
replace (fexp prec emax (Zpos (digits2_pos p) + 0))
  with (Zpos (digits2_pos p) - 53) by (unfold fexp, emin, prec, emax; lia).
unfold shl_align.
destruct (Zpos (digits2_pos p) - 53 - 0) as [|q|q] eqn:E; try lia.
- exists p, 0. split; [| split; [lia | split; [lia | cbn; lia]]].
  apply binary_round_aux_canonical; [| unfold emax, prec; lia].
  apply normal_canonical; lia.
- exists (Pos.iter xO p q), (Zpos (digits2_pos p) - 53).
  assert (Dq : Zpos (digits2_pos (Pos.iter xO p q)) = 53).
  { rewrite digits_iter_xO, Pos2Z.inj_add. lia. }
  split; [| split; [exact Dq | split; [lia |]]].
  + apply binary_round_aux_canonical; [| unfold emax, prec; lia].
    apply normal_canonical; lia.
  + rewrite value_iter_xO. f_equal. f_equal. lia.
Qed.

Lemma of_Z_exact (z : Z) :
Z.abs z < 2 ^ 53 -> z <> 0 ->
exists m e,
  of_Z z = S754_finite (z <? 0) m e /\
  Zpos (digits2_pos m) = 53 /\ -52 <= e <= 0 /\ Zpos m = Z.abs z * 2 ^ (- e).
Proof.
intros B N. unfold of_Z, binary_normalize. destruct z as [|p|p]; [easy | |].
- apply (of_Z_pos false p). exact B.
- apply (of_Z_pos true p). exact B.
Qed.

(** Multiplying a normal Number by 1 gives it back. *)
Lemma mul_one_normal (s : bool) (m : positive) (e : Z) :
normal (S754_finite s m e) ->
mul (S754_finite s m e) (of_Z 1) = S754_finite s m e.
Proof.
intros [D [L U]].
change (of_Z 1) with (S754_finite false 4503599627370496 (-52)).
unfold mul, SFmul. rewrite xorb_false_r.
unfold binary_round_aux.
assert (Hs : shr_fexp prec emax (Zpos (m * 4503599627370496)) (e + -52) loc_Exact
             = ({| shr_m := Zpos m; shr_r := false; shr_s := false |}, e)).
{ unfold shr_fexp. rewrite Pos.mul_comm.
  change (4503599627370496 * m)%positive with (Pos.iter xO m 52).
  cbn [Zdigits2]. rewrite digits_iter_xO, Pos2Z.inj_add, D.
  replace (fexp prec emax (53 + 52 + (e + -52)) - (e + -52)) with 52
    by (unfold fexp, emin, prec, emax; lia).
  unfold shr. replace (e + -52 + 52) with e by lia. reflexivity. }
rewrite Hs. cbn [shr_m loc_of_shr_record round_nearest_even].
rewrite (shr_fexp_canonical m e (normal_canonical m e D L)). cbn [shr_m].
assert (Hle : (e <=? emax - prec) = true) by (apply Z.leb_le; unfold emax, prec; lia).
now rewrite Hle.
Qed.

Lemma mul_one_integral (x : number) : integral x -> mul x (of_Z 1) = x.
Proof.
intros [z [B ->]]. destruct (Z.eq_dec z 0) as [-> | N]; [reflexivity |].
destruct (of_Z_exact z B N) as [m [e [-> [D [E V]]]]].
apply mul_one_normal. split; [exact D | lia].
Qed.

(** [Math.round] gives an integral Number back. *)
Lemma Math_round_integral (x : number) : integral x -> Math_round x = x.
Proof.
intros [z [B ->]]. destruct (Z.eq_dec z 0) as [-> | N]; [reflexivity |].
destruct (of_Z_exact z B N) as [m [e [Hx [D [E V]]]]].
rewrite Hx. unfold Math_round.
destruct (0 <=? e) eqn:Le; [reflexivity |].
apply Z.leb_gt in Le.
assert (Hs : signed (z <? 0) m = z * 2 ^ (- e)).
{ unfold signed, cond_Zopp. rewrite V.
  destruct (Z.ltb_spec z 0); [rewrite Z.abs_neq | rewrite Z.abs_eq]; lia. }
assert (P : 0 < 2 ^ (- e)) by (apply Z.pow_pos_nonneg; lia).
assert (Hn : (2 * signed (z <? 0) m + 2 ^ (- e)) / (2 * 2 ^ (- e)) = z).
{ rewrite Hs.
  replace (2 * (z * 2 ^ (- e)) + 2 ^ (- e)) with (z * (2 * 2 ^ (- e)) + 2 ^ (- e)) by lia.
  rewrite Z.div_add_l by lia. rewrite Z.div_small by lia. lia. }
cbv zeta. rewrite Hn.
destruct (Z.eqb_spec z 0); [contradiction |]. now rewrite <- Hx.
Qed.

(** [Math.max] of Numbers that are not NaN is the start value or one of
  them. *)
Lemma isNaN_integral (x : number) : integral x -> isNaN x = false.
Proof.
intros [z [B ->]]. destruct (Z.eq_dec z 0) as [-> | N]; [reflexivity |].
destruct (of_Z_exact z B N) as [m [e [-> _]]]. reflexivity.
Qed.

Lemma max2_choice (a b : number) :
isNaN a = false -> isNaN b = false -> max2 a b = a \/ max2 a b = b.
Proof.
intros Ha Hb. unfold max2. rewrite Ha, Hb. cbn [orb].
destruct (ltb a b); [now right |].
destruct (ltb b a); [now left |].
destruct (is_neg_zero a); [now right | now left].
Qed.

Lemma fold_max2_choice (l : list number) :
forall acc,
  isNaN acc = false -> Forall (fun x => isNaN x = false) l ->
  fold_left max2 l acc = acc \/ In (fold_left max2 l acc) l.
Proof.
induction l as [|b l IH]; intros acc Ha Hl; [now left |].
inversion Hl as [|? ? Hb Hl']; subst. cbn [fold_left].
destruct (max2_choice acc b Ha Hb) as [E | E]; rewrite E.
- destruct (IH acc Ha Hl') as [H | H]; [now left | right; now right].
- destruct (IH b Hb Hl') as [H | H]; [right; left; now rewrite H | right; now right].
Qed.

Lemma Math_max_integral (a : number) (l : list number) :
Forall integral (a :: l) -> integral (Math_max (a :: l)).
Proof.
intros H. unfold Math_max. cbn [fold_left].
assert (Hn : Forall (fun x => isNaN x = false) (a :: l)).
{ eapply Forall_impl; [| exact H]. intros x. apply isNaN_integral. }
inversion Hn as [|? ? Ha Hl]; subst.
assert (E : max2 (S754_infinity true) a = a).
{ unfold max2. rewrite Ha. cbn [isNaN orb].
  inversion H as [|? ? [z [B Hz]] _]; subst.
  destruct (Z.eq_dec z 0) as [-> | N]; [reflexivity |].
  destruct (of_Z_exact z B N) as [m [e [-> _]]]. reflexivity. }
rewrite E. rewrite Forall_forall in H.
destruct (fold_max2_choice l a Ha Hl) as [-> | Hin].
- apply H. now left.
- apply H. now right.
Qed.

Lemma valid_mantissa (s : bool) (m : positive) (e : Z) :
valid_binary prec emax (S754_finite s m e) = true -> Zpos m < 2 ^ 53.
Proof.
cbn [valid_binary]. unfold bounded, canonical_mantissa.
intros H. apply andb_prop in H as [H _]. apply Z.eqb_eq in H.
unfold fexp, emin, prec, emax in H.
assert (D : Zpos (digits2_pos m) <= 53) by lia.
pose proof (digits_bounds m) as [_ U].
assert (2 ^ Zpos (digits2_pos m) <= 2 ^ 53) by (apply Z.pow_le_mono_r; lia).
lia.
Qed.

Lemma value_of_Z (z : Z) :
Z.abs z < 2 ^ 53 ->
exists q, value (of_Z z) = Some q /\ (q == inject_Z z)%Q.
Proof.
intros B. destruct (Z.eq_dec z 0) as [-> | N].
- exists 0%Q. split; reflexivity.
- destruct (of_Z_exact z B N) as [m [e [-> [D [E V]]]]].
  assert (Hs : signed (z <? 0) m = z * 2 ^ (- e)).
  { unfold signed, cond_Zopp. rewrite V.
    destruct (Z.ltb_spec z 0); [rewrite Z.abs_neq | rewrite Z.abs_eq]; lia. }
  cbn [value]. destruct (0 <=? e) eqn:Le.
  + apply Z.leb_le in Le. assert (e = 0) as -> by lia.
    eexists. split; [reflexivity |]. rewrite Hs. cbn. unfold Qeq. cbn. lia.
  + apply Z.leb_gt in Le. eexists. split; [reflexivity |].
    assert (P : 0 < 2 ^ (- e)) by (apply Z.pow_pos_nonneg; lia).
    unfold Qeq. cbn [Qnum Qden inject_Z]. rewrite Z2Pos.id by exact P. lia.
Qed.

(** [Math.round] of a finite Number is the nearest integer. *)
Lemma Math_round_nearest (x : number) (q : Q) :
valid_binary prec emax x = true ->
value x = Some q ->
exists n q',
  value (Math_round x) = Some q' /\ (q' == inject_Z n)%Q /\ nearest n q.
Proof.
intros V Hq. destruct x as [s | s | | s m e]; try discriminate Hq.
- injection Hq as <-. exists 0, 0%Q. split; [reflexivity |].
  split; [reflexivity |]. split; [intros H; discriminate H | reflexivity].
- apply valid_mantissa in V. cbn [value] in Hq. unfold Math_round.
  destruct (0 <=? e) eqn:Le.
  + injection Hq as <-. cbn [value]. rewrite Le.
    exists (signed s m * 2 ^ e). eexists. split; [reflexivity |].
    split; [reflexivity |].
    unfold nearest, Qle, Qlt. cbn. lia.
  + apply Z.leb_gt in Le. injection Hq as <-.
    assert (P : 2 <= 2 ^ (- e)).
    { change 2 with (2 ^ 1) at 1. apply Z.pow_le_mono_r; lia. }
    set (den := 2 ^ (- e)) in *.
    assert (Sg : - 2 ^ 53 < signed s m < 2 ^ 53).
    { unfold signed, cond_Zopp. destruct s; lia. }
    set (a := 2 * signed s m + den).
    assert (Lo : 2 * den * (a / (2 * den)) <= a) by (apply Z.mul_div_le; lia).
    assert (Hi : a < 2 * den * Z.succ (a / (2 * den)))
      by (apply Z.mul_succ_div_gt; lia).
    assert (Bn : Z.abs (a / (2 * den)) < 2 ^ 53).
    { apply Z.abs_lt. split.
      - apply Z.lt_le_trans with (- 2 ^ 53 + 1); [lia |].
        apply Z.div_le_lower_bound; [lia |].
        change (2 ^ 53) with 9007199254740992 in *. subst a. lia.
      - apply Z.div_lt_upper_bound; [lia |].
        change (2 ^ 53) with 9007199254740992 in *. subst a. lia. }
    cbv zeta. fold den. fold a.
    assert (Nr : nearest (a / (2 * den)) (signed s m # Z.to_pos den)).
    { unfold nearest, Qle, Qlt.
      cbn [Qnum Qden inject_Z Qminus Qplus Qopp].
      rewrite !Pos2Z.inj_mul, !Z2Pos.id by lia.
      set (n := a / (2 * den)) in *. subst a. split; lia. }
    exists (a / (2 * den)).
    destruct (Z.eqb_spec (a / (2 * den)) 0) as [E0 | N0].
    * exists 0%Q. split; [reflexivity |]. split; [now rewrite E0 | exact Nr].
    * destruct (value_of_Z _ Bn) as [q' [Hv Hq']].
      exists q'. split; [exact Hv |]. split; [exact Hq' | exact Nr].
Qed.

(** ** The product of two Numbers is a Number *)

Lemma Zdigits2_log2 (z : Z) : 0 < z -> Zdigits2 z = Z.log2 z + 1.
Proof.
destruct z as [|p|p]; try lia. intros _. cbn [Zdigits2].
rewrite digits2_size. destruct p; cbn; lia.
Qed.

Lemma Zdigits2_le (z k : Z) : 0 <= k -> 0 <= z < 2 ^ k -> Zdigits2 z <= k.
Proof.
intros K [L U]. destruct (Z.eq_dec z 0) as [-> | N]; [cbn; lia |].
rewrite Zdigits2_log2 by lia.
assert (Z.log2 z < k) by (apply Z.log2_lt_pow2; lia). lia.
Qed.

Lemma Zdigits2_ge (z k : Z) : 0 <= k -> 2 ^ k <= z -> k < Zdigits2 z.
Proof.
intros K L. assert (0 < z) by (pose proof (Z.pow_pos_nonneg 2 k); lia).
rewrite Zdigits2_log2 by lia.
assert (k <= Z.log2 z) by (apply Z.log2_le_pow2; lia). lia.
Qed.

Lemma shr_1_div (mrs : shr_record) :
0 <= shr_m mrs -> shr_m (shr_1 mrs) = shr_m mrs / 2.
Proof.
destruct mrs as [m r s]. cbn [shr_m]. intros H.
destruct m as [|p|p]; [reflexivity | | lia].
destruct p as [p|p|]; cbn [shr_1 shr_m].
- rewrite (Pos2Z.inj_xI p). apply Z.div_unique with 1; lia.
- rewrite (Pos2Z.inj_xO p). apply Z.div_unique with 0; lia.
- reflexivity.
Qed.

Lemma iter_shr_1_div (p : positive) :
forall mrs,
  0 <= shr_m mrs ->
  shr_m (iter_pos shr_1 p mrs) = shr_m mrs / 2 ^ Zpos p.
Proof.
assert (Pos0 : forall mrs, 0 <= shr_m mrs -> 0 <= shr_m (shr_1 mrs)).
{ intros mrs H. rewrite shr_1_div by exact H. apply Z.div_pos; lia. }
induction p as [p IH | p IH |]; intros mrs H; cbn [iter_pos].
- assert (H1 := Pos0 mrs H).
  assert (P : 0 < 2 ^ Zpos p) by (apply Z.pow_pos_nonneg; lia).
  assert (H2 : 0 <= shr_m (iter_pos shr_1 p (shr_1 mrs))).
  { rewrite IH by exact H1. apply Z.div_pos; [exact H1 | exact P]. }
  assert (X : 2 ^ Zpos p~1 = 2 * 2 ^ Zpos p * 2 ^ Zpos p).
  { rewrite (Pos2Z.inj_xI p).
    replace (2 * Zpos p + 1) with (1 + Zpos p + Zpos p) by lia.
    rewrite !Z.pow_add_r by lia. reflexivity. }
  rewrite X, IH by exact H2. rewrite IH by exact H1. rewrite shr_1_div by exact H.
  rewrite !Z.div_div by lia. f_equal. ring.
- assert (P : 0 < 2 ^ Zpos p) by (apply Z.pow_pos_nonneg; lia).
  assert (H2 : 0 <= shr_m (iter_pos shr_1 p mrs)).
  { rewrite IH by exact H. apply Z.div_pos; [exact H | exact P]. }
  assert (X : 2 ^ Zpos p~0 = 2 ^ Zpos p * 2 ^ Zpos p).
  { rewrite (Pos2Z.inj_xO p).
    replace (2 * Zpos p) with (Zpos p + Zpos p) by lia.
    rewrite !Z.pow_add_r by lia. reflexivity. }
  rewrite X, IH by exact H2. rewrite IH by exact H.
  rewrite Z.div_div by lia. reflexivity.
- now apply shr_1_div.
Qed.

Lemma round_nearest_even_choice (m : Z) (l : location) :
round_nearest_even m l = m \/ round_nearest_even m l = m + 1.
Proof.
destruct l as [|[| |]]; cbn; auto. destruct (Z.even m); auto.
Qed.

Lemma shr_fexp_stays (m e : Z) :
fexp prec emax (Zdigits2 m + e) <= e ->
shr_fexp prec emax m e loc_Exact
= ({| shr_m := m; shr_r := false; shr_s := false |}, e).
Proof.
intros H. unfold shr_fexp, shr.
destruct (fexp prec emax (Zdigits2 m + e) - e) eqn:E; try reflexivity. lia.
Qed.

(** Rounding a positive mantissa whose exponent is not above its place
  gives a well-formed Number. *)
Lemma binary_round_aux_valid (s : bool) (p : positive) (e0 : Z) :
e0 <= fexp prec emax (Zpos (digits2_pos p) + e0) ->
valid_binary prec emax (binary_round_aux prec emax s (Zpos p) e0 loc_Exact) = true.
Proof.
intros Hf. pose proof (digits_bounds p) as [DL DU].
set (d := Zpos (digits2_pos p)) in *.
assert (D1 : 1 <= d) by (subst d; lia).
assert (F0 : fexp prec emax (d + e0) = Z.max (d + e0 - 53) (-1074)) by reflexivity.
unfold binary_round_aux.
destruct (shr_fexp prec emax (Zpos p) e0 loc_Exact) as [mrs e'] eqn:S1.
unfold shr_fexp, shr in S1. cbn [Zdigits2] in S1. fold d in S1.
set (f0 := fexp prec emax (d + e0)) in *.
destruct (f0 - e0) as [|n|n] eqn:En; [| | lia]; injection S1 as <- <-.
- (* the mantissa is in place *)
  cbn [shr_record_of_loc shr_m loc_of_shr_record round_nearest_even].
  assert (E0 : f0 = e0) by lia.
  rewrite shr_fexp_stays by (cbn [Zdigits2]; fold d; fold f0; lia).
  cbn [shr_m]. destruct (e0 <=? emax - prec) eqn:Le; [| reflexivity].
  cbn [valid_binary]. unfold bounded, canonical_mantissa. fold d. fold f0.
  rewrite Le, E0, Z.eqb_refl. reflexivity.
- (* the mantissa is shifted by n digits *)
  set (mrs := iter_pos shr_1 n _).
  assert (M1 : shr_m mrs = Zpos p / 2 ^ Zpos n).
  { subst mrs. rewrite iter_shr_1_div; cbn; [reflexivity | lia]. }
  assert (Pn : 0 < 2 ^ Zpos n) by (apply Z.pow_pos_nonneg; lia).
  assert (E1 : e0 + Zpos n = f0) by lia.
  assert (B1 : 0 <= shr_m mrs < 2 ^ 53).
  { rewrite M1. split; [apply Z.div_pos; lia |].
    apply Z.div_lt_upper_bound; [lia |].
    rewrite <- Z.pow_add_r by lia.
    apply Z.lt_le_trans with (2 ^ d); [exact DU |].
    apply Z.pow_le_mono_r; lia. }
  assert (G1 : -1074 < f0 -> 2 ^ 52 <= shr_m mrs).
  { intros G. rewrite M1. apply Z.div_le_lower_bound; [lia |].
    rewrite <- Z.pow_add_r by lia.
    apply Z.le_trans with (2 ^ (d - 1)); [| exact DL].
    apply Z.pow_le_mono_r; lia. }
  rewrite E1.
  destruct (round_nearest_even_choice (shr_m mrs) (loc_of_shr_record mrs)) as [R | R];
    rewrite R; clear R.
  + (* rounded down *)
    assert (D2 : Zdigits2 (shr_m mrs) <= 53) by (apply Zdigits2_le; lia).
    rewrite shr_fexp_stays by (unfold fexp, emin, prec, emax; lia).
    cbn [shr_m]. destruct (shr_m mrs) as [|m|m] eqn:Em; [reflexivity | | lia].
    destruct (f0 <=? emax - prec) eqn:Le; [| reflexivity].
    cbn [valid_binary]. unfold bounded, canonical_mantissa. rewrite Le.
    rewrite andb_true_r. apply Z.eqb_eq. cbn [Zdigits2] in D2.
    unfold fexp, emin, prec, emax.
    destruct (Z_le_gt_dec f0 (-1074)) as [L | G]; [lia |].
    assert (52 < Zdigits2 (Zpos m)) by (apply Zdigits2_ge; [lia | apply G1; lia]).
    cbn [Zdigits2] in *. lia.
  + (* rounded up *)
    destruct (Z.eq_dec (shr_m mrs + 1) (2 ^ 53)) as [E53 | N53].
    * (* the mantissa has one digit too many *)
      rewrite E53. change (2 ^ 53) with 9007199254740992.
      unfold shr_fexp. cbn [Zdigits2 digits2_pos Pos.succ].
      assert (G : -1074 < f0 \/ f0 = -1074) by lia.
      replace (fexp prec emax (54 + f0) - f0) with 1
        by (unfold fexp, emin, prec, emax; lia).
      cbn [shr iter_pos shr_1 shr_record_of_loc shr_m].
      destruct (f0 + 1 <=? emax - prec) eqn:Le; [| reflexivity].
      cbn [valid_binary]. unfold bounded, canonical_mantissa. rewrite Le.
      rewrite andb_true_r. apply Z.eqb_eq. cbn [digits2_pos Pos.succ].
      unfold fexp, emin, prec, emax. lia.
    * assert (B2 : 0 <= shr_m mrs + 1 < 2 ^ 53) by lia.
      assert (D2 : Zdigits2 (shr_m mrs + 1) <= 53) by (apply Zdigits2_le; lia).
      rewrite shr_fexp_stays by (unfold fexp, emin, prec, emax; lia).
      cbn [shr_m]. destruct (shr_m mrs + 1) as [|m|m] eqn:Em; [reflexivity | | lia].
      destruct (f0 <=? emax - prec) eqn:Le; [| reflexivity].
      cbn [valid_binary]. unfold bounded, canonical_mantissa. rewrite Le.
      rewrite andb_true_r. apply Z.eqb_eq. cbn [Zdigits2] in D2.
      unfold fexp, emin, prec, emax.
      destruct (Z_le_gt_dec f0 (-1074)) as [L | G]; [lia |].
      assert (52 < Zdigits2 (Zpos m)) by (apply Zdigits2_ge; [lia | specialize (G1 ltac:(lia)); lia]).
      cbn [Zdigits2] in *. lia.
Qed.

Theorem mul_valid (x y : number) :
valid_binary prec emax x = true ->
valid_binary prec emax y = true ->
valid_binary prec emax (mul x y) = true.
Proof.
intros Vx Vy. destruct x as [sx | sx | | sx mx ex]; destruct y as [sy | sy | | sy my ey];
  try reflexivity.
unfold mul, SFmul. apply binary_round_aux_valid.
cbn [valid_binary] in Vx, Vy. unfold bounded, canonical_mantissa in Vx, Vy.
apply andb_prop in Vx as [Vx _]. apply andb_prop in Vy as [Vy _].
apply Z.eqb_eq in Vx, Vy.
pose proof (digits_bounds mx) as [Lx _]. pose proof (digits_bounds my) as [Ly _].
assert (Dx : 1 <= Zpos (digits2_pos mx)) by lia.
assert (Dy : 1 <= Zpos (digits2_pos my)) by lia.
assert (Dm : Zpos (digits2_pos mx) + Zpos (digits2_pos my) - 2
             < Zpos (digits2_pos (mx * my))).
{ apply (Zdigits2_ge (Zpos (mx * my))); [lia |].
  replace (Zpos (digits2_pos mx) + Zpos (digits2_pos my) - 2)
    with ((Zpos (digits2_pos mx) - 1) + (Zpos (digits2_pos my) - 1)) by lia.
  rewrite Z.pow_add_r by lia. rewrite Pos2Z.inj_mul.
  apply Z.mul_le_mono_nonneg; try assumption; apply Z.pow_nonneg; lia. }
unfold fexp, emin, prec, emax in *. lia.
Qed.

Lemma integral_valid (x : number) : integral x -> valid_binary prec emax x = true.
Proof.
intros [z [B ->]]. destruct (Z.eq_dec z 0) as [-> | N]; [reflexivity |].
destruct (of_Z_exact z B N) as [m [e [-> [D [E V]]]]].
cbn [valid_binary]. unfold bounded, canonical_mantissa.
rewrite (normal_canonical m e D) by lia. rewrite Z.eqb_refl.
apply Z.leb_le. unfold emax, prec. lia.
Qed.

End NumberFacts.

(* ===================================================================== *)
(** * The reported dimensions *)
(* ===================================================================== *)

Lemma long_integral (z : Z) : is_long z = true -> integral (num z).
Proof.
  unfold is_long. intros H. apply andb_prop in H as [L U].
  apply Z.leb_le in L. apply Z.ltb_lt in U.
  exists z. split; [| reflexivity].
  change (2 ^ 31) with 2147483648 in *. change (2 ^ 53) with 9007199254740992. lia.
Qed.

Lemma measure_integral (e : Extents) :
  long_extents e = true -> integral (measure e).
Proof.
  unfold long_extents, measure. cbn [forallb]. intros H.
  repeat (apply andb_prop in H as [?H H]).
  apply NumberFacts.Math_max_integral.
  repeat (apply Forall_cons; [now apply long_integral |]). apply Forall_nil.
Qed.

(** What the render step returns as dimensions. *)
Lemma render_returns_dimensions (env : Env) (files : FileSet)
      (options : ImageConversionOptions) (w : World) (out : RenderOutput) :
  fst (_renderHTMLToImage env files options w) = Return out ->
  exists metrics,
    env.(page_evaluate) = Return metrics /\
    out.(out_width)
    = Number.Math_round
        (Number.mul (measure metrics.(widths)) (read options.(Options.scale) ?? num 1)) /\
    out.(out_height)
    = Number.Math_round
        (Number.mul (measure metrics.(heights)) (read options.(Options.scale) ?? num 1)).
Proof.
  unfold _renderHTMLToImage, render_page. run.
  all: intros H; try discriminate H.
  all: injection H as <-; eexists; split; [reflexivity |]; split; reflexivity.
Qed.

(* ===================================================================== *)
(** * The patterns of the inliner are well formed *)
(* ===================================================================== *)

Module PatternFacts.
Import RegExp.

Lemma special_class (x : ascii) :
charset_matches false
  (Class false
     ["."; "*"; "+"; "?"; "^"; "$"; "{"; "}"; "("; ")"; "|"; "["; "]"; "\"]%char) x
= is_syntax_character x.
Proof. destruct x as [[] [] [] [] [] [] [] []]; reflexivity. Qed.

Lemma consumed_cons (x : ascii) (s : string) : consumed (String x s) s = String x "".
Proof. exact (consumed_append (String x "") s). Qed.

Lemma escapeRegex_from (s : string) :
forall before, replace_from SPECIAL "\$&" before 0 s = escaped s.
Proof.
induction s as [|x s IH]; intros before; [reflexivity |].
cbn [replace_from escaped].
replace (match_at SPECIAL (String x s))
  with (if is_syntax_character x then Some (s, @nil (option string)) else None).
- destruct (is_syntax_character x).
  + rewrite consumed_cons. cbn. now rewrite IH.
  + now rewrite IH.
- rewrite <- special_class. reflexivity.
Qed.

(** [_escapeRegex] puts a backslash before every syntax character. *)
Lemma escapeRegex_spec (s : string) : _escapeRegex s = escaped s.
Proof.
  unfold _escapeRegex, replace. change (global SPECIAL) with true. cbv iota.
  apply escapeRegex_from.
Qed.

(** The escaped text reads as the characters of the text. *)
Lemma tokenize_escaped (name rest : string) :
tokenize Normal false (escaped name ++ rest)
= option_map (app (literal_tokens name)) (tokenize Normal false rest).
Proof.
induction name as [|c name IH].
- cbn. now destruct (tokenize Normal false rest).
- cbn [escaped]. destruct (is_syntax_character c) eqn:E.
  + cbn [append tokenize].
    change (is_syntax_character "\") with true. cbn [Ascii.eqb Bool.eqb].
    rewrite E. cbn [orb]. rewrite IH.
    unfold literal_tokens. cbn [list_ascii_of_string map].
    now destruct (tokenize Normal false rest).
  + cbn [append tokenize]. rewrite E. rewrite IH.
    unfold literal_tokens. cbn [list_ascii_of_string map].
    now destruct (tokenize Normal false rest).
Qed.

Lemma build_literal (name : string) :
forall rest cur stack next,
  build (literal_tokens name ++ rest) cur stack next
  = build rest (add_terms cur (literal_terms name)) stack next.
Proof.
unfold literal_tokens, literal_terms.
induction (list_ascii_of_string name) as [|c l IH]; intros rest cur stack next.
- cbn. unfold add_terms. rewrite app_nil_r. now destruct cur.
- cbn [map app build]. rewrite IH. f_equal.
  unfold add_terms, add_term. cbn [index alternatives terms].
  now rewrite <- app_assoc.
Qed.

Lemma star_last_add_term (f : frame) (cs : charset) :
star_last (add_term f (One cs))
= Some {| index := f.(index); alternatives := f.(alternatives);
          terms := (f.(terms) ++ [Star cs])%list |}.
Proof.
unfold star_last, add_term. cbn [terms index alternatives].
rewrite rev_unit. now rewrite rev_involutive.
Qed.

(** The tokens before and after the file name in the two patterns. *)
Lemma tokenize_link_prefix (rest : string) :
tokenize Normal false
  ("<link[^>]*href=[" ++ dquote ++ "'][^" ++ dquote ++ "']*" ++ rest)
= option_map (app LINK_PRE) (tokenize Normal false rest).
Proof. cbn. now destruct (tokenize Normal false rest). Qed.

Lemma tokenize_src_prefix (rest : string) :
tokenize Normal false
  ("(src|href)=[" ++ dquote ++ "']([^" ++ dquote ++ "']*" ++ rest)
= option_map (app SRC_PRE) (tokenize Normal false rest).
Proof. cbn. now destruct (tokenize Normal false rest). Qed.

Lemma build_link_prefix (rest : list token) :
build (LINK_PRE ++ rest) {| index := 0; alternatives := []; terms := [] |} [] 1
= build rest LINK_FRAME [] 1.
Proof. reflexivity. Qed.

Lemma build_src_prefix (rest : list token) :
build (SRC_PRE ++ rest) {| index := 0; alternatives := []; terms := [] |} [] 1
= build rest SRC_FRAME [SRC_PARENT] 3.
Proof. reflexivity. Qed.

(** The pattern of the first loop is a regular expression for every
  file name, and so is the pattern of the second loop. *)
Lemma link_pattern_parses (name : string) :
exists re, RegExp_new (link_pattern (_escapeRegex name)) "gi" = Some re.
Proof.
rewrite escapeRegex_spec. unfold RegExp_new, link_pattern.
rewrite tokenize_link_prefix, tokenize_escaped.
change (tokenize Normal false ("[" ++ dquote ++ "'][^>]*>")) with (Some LINK_POST).
cbn [option_map parse_flags Ascii.eqb Bool.eqb].
rewrite build_link_prefix, build_literal.
unfold LINK_POST. cbn [build]. rewrite star_last_add_term. cbn [build].
eexists. reflexivity.
Qed.

Lemma src_pattern_parses (name : string) :
exists re, RegExp_new (src_pattern (_escapeRegex name)) "gi" = Some re.
Proof.
rewrite escapeRegex_spec. unfold RegExp_new, src_pattern.
rewrite tokenize_src_prefix, tokenize_escaped.
change (tokenize Normal false (")[" ++ dquote ++ "']")) with (Some SRC_POST).
cbn [option_map parse_flags Ascii.eqb Bool.eqb].
rewrite build_src_prefix, build_literal.
unfold SRC_POST. cbn [build]. eexists. reflexivity.
Qed.

End PatternFacts.

Lemma inline_css_returns (entries : FileSet) :
  forall s, exists r, inline_css entries s = Return r.
Proof.
  induction entries as [|[filePath c] rest IH]; intros s; cbn [inline_css].
  - now exists s.
  - destruct c as [css | b]; [| apply IH].
    destruct (endsWith filePath ".css" && negb (String.eqb filePath "theme.css"));
      [| apply IH].
    destruct (PatternFacts.link_pattern_parses (pop (split filePath "/") ?? ""))
      as [re ->].
    apply IH.
Qed.

Lemma inline_images_returns (entries : FileSet) :
  forall s, exists r, inline_images entries s = Return r.
Proof.
  induction entries as [|[filePath c] rest IH]; intros s; cbn [inline_images].
  - now exists s.
  - destruct c as [css | b]; [apply IH |].
    destruct (_isImagePath filePath); [| apply IH].
    destruct (PatternFacts.src_pattern_parses (pop (split filePath "/") ?? ""))
      as [re ->].
    apply IH.
Qed.

(** X21.  The inliner returns for every document and every file set:
    it never throws.  The patterns it makes from file names are well
    formed regular expressions whatever characters a name contains,
    since the name is escaped before it is put into the pattern. *)
Theorem inline_returns (html : string) (files : FileSet) :
  exists r, _inlineResources html files = Return r.
Proof.
  unfold _inlineResources.
  destruct (inline_css_returns files (inline_theme html files)) as [r1 ->].
  apply inline_images_returns.
Qed.

(* ===================================================================== *)
(** * The outcome of a conversion *)
(* ===================================================================== *)

(** The render step loads the browser library and then, at most, runs
    one browser session; it does not read the clock. *)
Lemma render_session (env : Env) (files : FileSet)
      (options : ImageConversionOptions) (w : World) :
  exists evs,
    trace (snd (_renderHTMLToImage env files options w))
    = (trace w ++ ImportPuppeteer :: evs)%list /\
    clock_reads (snd (_renderHTMLToImage env files options w)) = clock_reads w /\
    browser_session (launch_succeeds env) evs = true.
Proof.
  unfold _renderHTMLToImage, render_page, launch_succeeds. run.
  all: rewrite <- ?app_assoc; cbn [app].
  all: eexists; split; [reflexivity |]; split; [reflexivity |].
  all: try reflexivity.
Qed.

Lemma render_keeps_clock (env : Env) (files : FileSet)
      (options : ImageConversionOptions) (w : World) :
  clock_reads (snd (_renderHTMLToImage env files options w)) = clock_reads w.
Proof. destruct (render_session env files options w) as [evs [_ [H _]]]. exact H. Qed.

Lemma write_keeps_clock (env : Env) (data : bytes) (outputPath : string) (w : World) :
  clock_reads (snd (_writeToFile env data outputPath w)) = clock_reads w.
Proof. unfold _writeToFile. run; reflexivity. Qed.

(** Brings in what the steps of a run did to the clock. *)
Ltac clocks :=
  repeat match goal with
  | H : _renderHTMLToImage ?e ?f ?o ?W = (_, ?W') |- _ =>
      let S := fresh "S" in
      pose proof (render_keeps_clock e f o W) as S;
      rewrite H in S; cbn [snd clock_reads] in S;
      generalize dependent H
  | H : _writeToFile ?e ?d ?p ?W = (_, ?W') |- _ =>
      let S := fresh "S" in
      pose proof (write_keeps_clock e d p W) as S;
      rewrite H in S; cbn [snd clock_reads] in S;
      generalize dependent H
  end; intros.

(** Closes the cases of a run in which two tests of the same value
    went different ways. *)
Ltac impossible :=
  try match goal with
  | H1 : ?x = true, H2 : ?x = false |- _ => rewrite H1 in H2; discriminate H2
  | H1 : ?x = Some _, H2 : ?x = None |- _ => rewrite H1 in H2; discriminate H2
  | H : false = true |- _ => discriminate H
  end.

(** X1.  [convert] never throws, as long as the observer does not: it
    returns a result for every source, every options object and every
    behaviour of the HTML plugin, the browser and the file system.  The
    result carries the task id that was drawn, and as duration the
    difference of the two clock readings of the call, which are the only
    ones.  A success has no error and has the format of the merged
    options, a width and a height; a failure has an error and the
    duration and nothing else: no data, no outputPath, no format, no
    width, no height. *)
Theorem convert_always_returns (env : Env) (source : ConversionSource)
        (options : option ImageConversionOptions) (w : World) :
  exists r,
    fst (convert env source options w) = Return r /\
    clock_reads (snd (convert env source options w)) = S (S (clock_reads w)) /\
    r.(Result.taskId) = env.(uuidv4) /\
    r.(Result.duration)
    = Some (env.(Date_now) (S (clock_reads w)) - env.(Date_now) (clock_reads w)) /\
    if r.(Result.success)
    then r.(Result.error) = None /\
         r.(Result.format) = read (_mergeOptions options).(Options.format) /\
         r.(Result.width) <> None /\ r.(Result.height) <> None
    else exists err,
         r = failure env.(uuidv4) err
               (env.(Date_now) (S (clock_reads w)) - env.(Date_now) (clock_reads w)).
Proof.
  unfold convert, reportProgress, _createErrorResult, failure. run.
  all: clocks.
  all: eexists; split; [reflexivity |]; cbn [Result.success Result.taskId
         Result.duration Result.error Result.format Result.width Result.height
         clock_reads snd].
  all: repeat match goal with S : clock_reads _ = _ |- _ => rewrite S; clear S end.
  all: split; [reflexivity |]; split; [reflexivity |]; split; [reflexivity |].
  all: try (eexists; reflexivity).
  all: repeat split; discriminate.
Qed.

(** X2.  The failures of [convert] are of three kinds.  Invalid options
    give the code CONV-IMG-006.  A failure that the HTML plugin reports
    is passed on with the error of the plugin, or with CONV-HTML-002
    when it gave none.  Everything that is thrown, by the HTML plugin,
    by the render step or by the file write, gives the code
    CONV-IMG-004 with the message of the error and the error as cause,
    or the fixed message and no cause when the thrown value is not an
    Error.  No other code of ImageErrorCode is ever produced: a missing
    browser library, a failed launch or a failed file write are all
    reported as CONV-IMG-004. *)
Theorem convert_failure_causes (env : Env) (source : ConversionSource)
        (options : option ImageConversionOptions) (w : World)
        (r : ImageConversionResult) :
  fst (convert env source options w) = Return r ->
  r.(Result.success) = false ->
  let o := _mergeOptions options in
  let themeId := read o.(Options.themeId) in
  ((validateOptions o).(Validation.valid) = false /\
   exists m,
     r.(Result.error)
     = Some {| code := "CONV-IMG-006"; message := m; cause := None |}) \/
  (validateOptions o).(Validation.valid) = true /\
  ((exists h,
      env.(htmlPlugin_convert) source themeId = Return h /\
      html_failed h = true /\
      r.(Result.error) = Some (h.(html_error) ?? HTML_FAILED)) \/
   (exists e,
      r.(Result.error) = Some (caught e) /\
      (env.(htmlPlugin_convert) source themeId = Throw e \/
       exists h files w1,
         env.(htmlPlugin_convert) source themeId = Return h /\
         h.(html_data) = Some files /\
         (fst (_renderHTMLToImage env files o w1) = Throw e \/
          exists out path w2,
            fst (_renderHTMLToImage env files o w1) = Return out /\
            read o.(Options.outputPath) = Some path /\ path <> "" /\
            fst (_writeToFile env out.(imageData) path w2) = Throw e)))).
Proof.
  unfold convert, reportProgress, _createErrorResult, html_failed, caught, HTML_FAILED.
  run.
  all: intros H Hs; try discriminate H; injection H as <-;
       cbn [Result.success] in Hs; try discriminate Hs.
  all: cbv zeta; cbn [nullish truthy Result.error] in *.
  all: impossible.
  all: match goal with
       | H : negb (Validation.valid ?v) = true |- _ =>
           left; destruct (Validation.valid v); [discriminate H |];
           split; [reflexivity |]; eexists; reflexivity
       | H : negb (Validation.valid ?v) = false |- _ =>
           right; destruct (Validation.valid v); [| discriminate H];
           split; [reflexivity |]
       end.
  all: match goal with
       | H : htmlPlugin_convert _ _ _ = Throw ?e |- _ =>
           right; exists e; split; [reflexivity | left; reflexivity]
       | Hw : _writeToFile _ ?d _ ?W = (Throw ?e, _),
         Hr : _renderHTMLToImage _ ?f _ ?W0 = (Return ?out, _),
         Hd : html_data ?a = Some ?f,
         Ht : truthy ?x = true |- _ =>
           right; exists e; split; [reflexivity |];
           right; exists a, f, W0; split; [reflexivity |]; split; [exact Hd |];
           right; destruct x as [path|] eqn:Ep; [| discriminate Ht];
           exists out, path, W; rewrite Hr; split; [reflexivity |];
           split; [reflexivity |]; split;
           [ intros ->; discriminate Ht | cbn [nullish] in Hw; now rewrite Hw ]
       | Hr : _renderHTMLToImage _ ?f _ ?W0 = (Throw ?e, _),
         Hd : html_data ?a = Some ?f |- _ =>
           right; exists e; split; [reflexivity |];
           right; exists a, f, W0; split; [reflexivity |]; split; [exact Hd |];
           left; now rewrite Hr
       | _ =>
           left; eexists; split; [reflexivity |]; split; [| reflexivity];
           repeat match goal with
           | H : html_success _ = _ |- _ => rewrite H
           | H : html_data _ = _ |- _ => rewrite H
           end; reflexivity
       end.
Qed.

Lemma convert_failure_causes_witness :
  exists r e,
    fst (convert (sample_env [] true) sample_source None initial) = Return r /\
    r.(Result.success) = false /\
    r.(Result.error) = Some (caught e).
Proof.
  destruct (convert_failure_causes (sample_env [] true) sample_source None initial
              _ ltac:(vm_compute; reflexivity) eq_refl)
    as [[Hv _] | [_ [[h [Hh [Hf _]]] | [e [He _]]]]].
  - discriminate Hv.
  - injection Hh as <-. discriminate Hf.
  - eexists. exists e. split; [vm_compute; reflexivity |].
    split; [reflexivity | exact He].
Defined.

(** X3.  When the HTML plugin returns a result that is not a success,
    or that has no data, [convert] passes its error on as it is, or
    reports CONV-HTML-002 when there is none.  Besides the call to the
    plugin, with the theme of the merged options and with the assets
    included, it does nothing: the browser library is not loaded,
    nothing is written; the observer, when there is one, sees the
    checkpoint of the HTML stage and then the failure. *)
Theorem convert_passes_html_failure_on (env : Env) (source : ConversionSource)
        (options : option ImageConversionOptions) (w : World) (h : HtmlResult) :
  let o := _mergeOptions options in
  let id := env.(uuidv4) in
  (validateOptions o).(Validation.valid) = true ->
  env.(htmlPlugin_convert) source (read o.(Options.themeId)) = Return h ->
  html_failed h = true ->
  convert env source options w
  = (Return (failure id (h.(html_error) ?? HTML_FAILED)
               (env.(Date_now) (S (clock_reads w)) - env.(Date_now) (clock_reads w))),
     {| trace :=
          (trace w
           ++ reported o (checkpoint id converting_html 0 "正在解析卡片并生成 HTML")
           ++ [HtmlConvert source (read o.(Options.themeId)) true]
           ++ reported o (checkpoint id failed 0 "HTML 转换失败"))%list;
        clock_reads := S (S (clock_reads w)) |}).
Proof.
  intros o id Hv Hh Hf. subst o id.
  unfold convert, reportProgress, _createErrorResult, failure, reported, checkpoint,
    HTML_FAILED.
  rewrite Hv, Hh. cbn [negb]. unfold html_failed in Hf. run.
  all: repeat match goal with
       | H : html_success _ = _ |- _ => rewrite H in Hf; clear H
       | H : html_data _ = _ |- _ => rewrite H in Hf; clear H
       end; try discriminate Hf.
  all: rewrite <- ?app_assoc; cbn [app]; rewrite ?app_nil_r; reflexivity.
Qed.

Lemma convert_passes_html_failure_on_witness :
  convert (with_html (Return html_refusal) (sample_env [] true)) sample_source
          None initial
  = (Return (failure "3b241101-e2bb-4255-8caf-4136c566a962"
               {| code := "CONV-HTML-001"; message := "no card"; cause := None |}
               250),
     {| trace := [HtmlConvert sample_source None true]; clock_reads := 2 |}).
Proof.
  exact (convert_passes_html_failure_on
           (with_html (Return html_refusal) (sample_env [] true)) sample_source
           None initial html_refusal eq_refl eq_refl eq_refl).
Defined.

(* ===================================================================== *)
(** * The calls of a conversion *)
(* ===================================================================== *)

(** A render step that returns has made every call of the protocol,
    once and in order, with the inlined index.html as the content of
    the page. *)
Lemma render_success_protocol (env : Env) (files : FileSet)
      (options : ImageConversionOptions) (w : World) (out : RenderOutput) :
  fst (_renderHTMLToImage env files options w) = Return out ->
  exists indexHtml htmlContent,
    files_get files "index.html" = Some (Text indexHtml) /\
    indexHtml <> "" /\
    _inlineResources indexHtml files = Return htmlContent /\
    trace (snd (_renderHTMLToImage env files options w))
    = (trace w ++ [ImportPuppeteer; Launch] ++ page_calls htmlContent options
       ++ [Close])%list.
Proof.
  unfold _renderHTMLToImage, render_page, page_calls. run.
  all: intros H; try discriminate H.
  all: rewrite <- ?app_assoc; cbn [app].
  all: do 2 eexists; split; [reflexivity |]; split;
       [ intros ->; discriminate |]; split; [eassumption |].
  all: reflexivity.
Qed.

Lemma write_trace (env : Env) (data : bytes) (outputPath : string) (w : World) :
  trace (snd (_writeToFile env data outputPath w))
  = (trace w ++ write_calls env data outputPath)%list.
Proof.
  unfold _writeToFile, write_calls. run.
  all: rewrite <- ?app_assoc; cbn [app]; rewrite ?app_nil_r; reflexivity.
Qed.

Lemma write_returns (env : Env) (data : bytes) (outputPath : string) (w : World)
      (u : unit) :
  fst (_writeToFile env data outputPath w) = Return u ->
  write_calls env data outputPath
  = [Mkdir (env.(path_dirname) outputPath); WriteFile outputPath data].
Proof.
  unfold _writeToFile, write_calls. run.
  all: intros H; try discriminate H; reflexivity.
Qed.

Lemma fs_calls_write_calls (env : Env) (data : bytes) (outputPath : string) :
  flat_map fs_item (write_calls env data outputPath) = write_calls env data outputPath.
Proof.
  unfold write_calls. destruct (process_versions_node env); [| reflexivity].
  destruct (fs_mkdir env _); reflexivity.
Qed.

Lemma render_writes_nothing (env : Env) (files : FileSet)
      (options : ImageConversionOptions) :
  silent fs_item (_renderHTMLToImage env files options).
Proof. unfold _renderHTMLToImage, render_page. silence. Qed.

Lemma write_calls_no_browser (env : Env) (data : bytes) (outputPath : string) :
  silent browser_item (_writeToFile env data outputPath).
Proof. unfold _writeToFile. silence. Qed.

(* ===================================================================== *)
(** * The result of a successful conversion *)
(* ===================================================================== *)

(** C3, as the code has it.  On success, when the outputPath of the
    merged options is a non-empty string, the directory of that path is
    made and the bytes of the screenshot are written to it, the result
    has that path as outputPath and data is undefined.  When the merged
    options have no outputPath, nothing is written, data holds the bytes
    of the screenshot and the outputPath of the result is undefined.
    When it is the empty string, nothing is written and data holds the
    bytes of the screenshot. *)
Theorem convert_success_data_or_path
        (env : Env) (source : ConversionSource)
        (options : option ImageConversionOptions) (w : World)
        (r : ImageConversionResult) :
  fst (convert env source options w) = Return r ->
  r.(Result.success) = true ->
  let requested := read (_mergeOptions options).(Options.outputPath) in
  exists image written,
    env.(page_screenshot) (screenshotOptions (_mergeOptions options)) = Return image /\
    fs_calls (trace (snd (convert env source options w)))
    = (fs_calls (trace w) ++ written)%list /\
    match requested with
    | Some path =>
        if negb (String.eqb path "")
        then r.(Result.outputPath) = Some path /\ r.(Result.data) = None /\
             written = [Mkdir (env.(path_dirname) path); WriteFile path image]
        else r.(Result.data) = Some image /\ written = []
    | None =>
        r.(Result.outputPath) = None /\ r.(Result.data) = Some image /\ written = []
    end.
Proof.
  unfold convert, reportProgress, _createErrorResult. run.
  all: intros H Hs; try discriminate H; injection H as <-;
       cbn [Result.success] in Hs; try discriminate Hs.
  all: cbv zeta; cbn [Result.outputPath Result.data nullish truthy] in *.
  all: impossible.
  all: match goal with
       | H : _renderHTMLToImage ?e ?f ?o ?W = (Return ?a, _) |- _ =>
           exists a.(imageData);
           pose proof (render_returns_screenshot e f o W a ltac:(now rewrite H)) as Hshot;
           let S := fresh "S" in
           pose proof (render_writes_nothing e f o W) as S;
           rewrite H in S; cbn [snd trace] in S; clear H
       end.
  all: try match goal with
       | H : _writeToFile ?e ?d ?p ?W = (Return ?u, ?W') |- _ =>
           let P := fresh "P" in let T := fresh "T" in
           assert (P : fst (_writeToFile e d p W) = Return u) by (now rewrite H);
           pose proof (write_trace e d p W) as T;
           rewrite (write_returns e d p W u P) in T;
           rewrite H in T; cbn [snd trace] in T; clear H P
       end.
  all: unfold fs_calls in *;
       repeat match goal with
       | S : flat_map _ _ = _ |- _ => rewrite !flat_map_app in S
       end;
       rewrite ?flat_map_app;
       repeat match goal with
       | S : trace ?x = _ |- _ => rewrite S; clear S
       end;
       rewrite ?flat_map_app;
       repeat match goal with
       | S : flat_map fs_item (trace ?x) = _ |- _ => rewrite S; clear S
       end;
       cbn [flat_map fs_item]; rewrite <- ?app_assoc; cbn [app];
       rewrite ?app_nil_r.
  all: eexists; split; [exact Hshot |];
       split; [first [reflexivity | symmetry; apply app_nil_r] |].
  all: repeat match goal with
       | E : read _ = _ |- _ => rewrite E in *
       | E : negb _ = _ |- _ => rewrite E in *
       | E : String.eqb _ _ = _ |- _ => rewrite E in *
       end; cbn [negb nullish].
  all: repeat split; try reflexivity.
Qed.

Lemma convert_success_data_or_path_witness :
  exists r,
    fst (convert (sample_env sample_files true) sample_source
                 (Some file_options) initial) = Return r /\
    r.(Result.success) = true /\
    r.(Result.outputPath) = Some "/tmp/out.png" /\
    r.(Result.data) = None /\
    fs_calls (trace (snd (convert (sample_env sample_files true) sample_source
                            (Some file_options) initial)))
    = [Mkdir "/tmp"; WriteFile "/tmp/out.png" [Byte.x89; Byte.x50; Byte.x4e; Byte.x47]].
Proof.
  eexists. split; [vm_compute; reflexivity |]. split; [reflexivity |].
  destruct (convert_success_data_or_path (sample_env sample_files true)
              sample_source (Some file_options) initial _
              ltac:(vm_compute; reflexivity) eq_refl)
    as [image [written [Hs [Hf H]]]].
  injection Hs as <-. destruct H as [Hp [Hd Hw]].
  split; [exact Hp |]. split; [exact Hd |]. rewrite Hf, Hw. reflexivity.
Defined.

(** C3 as the specification has it fails for the empty string as
    outputPath: the conversion succeeds, the merged options contain an
    outputPath, and the result has both an outputPath and data. *)
Lemma convert_success_data_or_path_counterexample :
  exists r image,
    fst (convert (sample_env sample_files true) sample_source
                 (Some empty_path_options) initial) = Return r /\
    r.(Result.success) = true /\
    read (_mergeOptions (Some empty_path_options)).(Options.outputPath) = Some "" /\
    r.(Result.outputPath) = Some "" /\
    r.(Result.data) = Some image.
Proof.
  eexists. eexists. split; [vm_compute; reflexivity |].
  repeat split.
Qed.

(** X4.  A successful conversion has made these calls and no others, in
    this order: the HTML plugin, with the theme of the merged options
    and the assets included; the load of the browser library; the
    launch; on the page the viewport (800 by 600 at scale 1 where the
    options say nothing), the content, which is the index.html of the
    HTML result after inlining, the wait when waitTime is above 0, the
    measurement and the screenshot; the close of the browser; and, when
    outputPath is a non-empty string, the making of its directory and
    the write of the screenshot to it.  So the file is written only
    after the browser is closed, and what is written is what the
    screenshot returned.  The observer, when there is one, is called at
    the five checkpoints in between. *)
Theorem convert_success_protocol (env : Env) (source : ConversionSource)
        (options : option ImageConversionOptions) (w : World)
        (r : ImageConversionResult) :
  fst (convert env source options w) = Return r ->
  r.(Result.success) = true ->
  let o := _mergeOptions options in
  let id := env.(uuidv4) in
  exists h files indexHtml htmlContent image,
    env.(htmlPlugin_convert) source (read o.(Options.themeId)) = Return h /\
    h.(html_data) = Some files /\
    files_get files "index.html" = Some (Text indexHtml) /\
    _inlineResources indexHtml files = Return htmlContent /\
    env.(page_screenshot) (screenshotOptions o) = Return image /\
    trace (snd (convert env source options w))
    = (trace w
       ++ reported o (checkpoint id converting_html 0 "正在解析卡片并生成 HTML")
       ++ [HtmlConvert source (read o.(Options.themeId)) true]
       ++ reported o (checkpoint id rendering 30 "HTML 生成完成，正在启动浏览器")
       ++ reported o (checkpoint id rendering 40 "正在渲染页面")
       ++ [ImportPuppeteer; Launch] ++ page_calls htmlContent o ++ [Close]
       ++ reported o (checkpoint id capturing 80 "正在生成图片")
       ++ match read o.(Options.outputPath) with
          | Some path =>
              if negb (String.eqb path "") then
                [Mkdir (env.(path_dirname) path); WriteFile path image]
                ++ reported o (checkpoint id completed 100 "图片已保存到文件")
              else reported o (checkpoint id completed 100 "转换完成")
          | None => reported o (checkpoint id completed 100 "转换完成")
          end)%list.
Proof.
  unfold convert, reportProgress, _createErrorResult, reported, checkpoint. run.
  all: intros H Hs; try discriminate H; injection H as <-;
       cbn [Result.success] in Hs; try discriminate Hs.
  all: cbv zeta; cbn [nullish truthy] in *.
  all: impossible.
  all: match goal with
       | H : _renderHTMLToImage ?e ?f ?o ?W = (Return ?a, ?W') |- _ =>
           let P := fresh "P" in let S := fresh "S" in
           assert (P : fst (_renderHTMLToImage e f o W) = Return a) by (now rewrite H);
           pose proof (render_returns_screenshot e f o W a P) as S;
           destruct (render_success_protocol e f o W a P) as [?i [?h [?I [_ [?J ?T]]]]];
           rewrite H in T; cbn [snd trace] in T; clear H P
       end.
  all: try match goal with
       | H : _writeToFile ?e ?d ?p ?W = (Return ?u, ?W') |- _ =>
           let P := fresh "P" in let T := fresh "T" in
           assert (P : fst (_writeToFile e d p W) = Return u) by (now rewrite H);
           pose proof (write_trace e d p W) as T;
           rewrite (write_returns e d p W u P) in T;
           rewrite H in T; cbn [snd trace] in T; clear H P
       end.
  all: do 5 eexists; do 5 (split; [first [eassumption | reflexivity] |]).
  all: repeat match goal with
       | T : trace ?x = _ |- _ => rewrite T; clear T
       end.
  all: cbn [trace]; rewrite <- ?app_assoc; cbn [app].
  all: repeat match goal with
       | E : read _ = _ |- _ => rewrite E
       | E : negb _ = _ |- _ => rewrite E
       end; cbn [app]; rewrite <- ?app_assoc; cbn [app].
  all: reflexivity.
Qed.

Lemma convert_success_protocol_witness :
  exists htmlContent image,
    _inlineResources
      "<html><link rel='stylesheet' href='theme.css'><img src='img/a.png'></html>"
      sample_files = Return htmlContent /\
    trace (snd (convert (sample_env sample_files true) sample_source
                        (Some file_options) initial))
    = ([HtmlConvert sample_source None true; ImportPuppeteer; Launch]
       ++ page_calls htmlContent (_mergeOptions (Some file_options))
       ++ [Close; Mkdir "/tmp"; WriteFile "/tmp/out.png" image])%list.
Proof.
  destruct (convert_success_protocol (sample_env sample_files true) sample_source
              (Some file_options) initial _ ltac:(vm_compute; reflexivity) eq_refl)
    as [h [files [indexHtml [htmlContent [image [Hh [Hd [Hi [Hc [_ T]]]]]]]]]].
  injection Hh as <-. injection Hd as <-. injection Hi as <-.
  exists htmlContent, image. split; [exact Hc |]. exact T.
Defined.

Lemma closes_at_end_browser_calls (evs : list event) :
  closes_at_end evs = true -> closes_at_end (browser_calls evs) = true.
Proof.
  induction evs as [|ev rest IH]; [discriminate |].
  destruct rest as [|ev' rest'].
  - destruct ev; try discriminate. reflexivity.
  - intros H. change (closes_at_end (ev :: ev' :: rest'))
      with (is_page_call ev && closes_at_end (ev' :: rest')) in H.
    apply andb_prop in H as [Hp Hr]. specialize (IH Hr).
    unfold browser_calls in *. cbn [flat_map] in *.
    destruct ev; try discriminate Hp; cbn [browser_item app]; try exact IH.
    all: destruct (browser_item ev' ++ flat_map browser_item rest')%list eqn:E;
         [discriminate IH | exact IH].
Qed.

Lemma browser_session_calls (b : bool) (evs : list event) :
  browser_session b evs = true -> browser_session b (browser_calls evs) = true.
Proof.
  destruct evs as [|ev rest]; [reflexivity |].
  destruct ev; try discriminate. cbn [browser_session].
  unfold browser_calls. cbn [flat_map browser_item app].
  destruct b.
  - apply closes_at_end_browser_calls.
  - destruct rest; [reflexivity | discriminate].
Qed.

(** X5.  Whatever happens, the browser is closed when it was launched:
    the calls of one conversion that concern the browser are none at
    all, or the launch alone when the launch failed, or the launch,
    calls on the page and the close as the last call.  The close is
    called once, also when a call on the page throws; it is not called
    without a browser. *)
Theorem convert_closes_browser (env : Env) (source : ConversionSource)
        (options : option ImageConversionOptions) (w : World) :
  exists evs,
    browser_calls (trace (snd (convert env source options w)))
    = (browser_calls (trace w) ++ evs)%list /\
    browser_session (launch_succeeds env) evs = true.
Proof.
  unfold convert, reportProgress, _createErrorResult. run.
  all: repeat match goal with
       | H : _renderHTMLToImage ?e ?f ?o ?W = (_, _) |- _ =>
           let S := fresh "S" in
           destruct (render_session e f o W) as [?evs [S [_ ?B]]];
           rewrite H in S; cbn [snd trace] in S; clear H
       | H : _writeToFile ?e ?d ?p ?W = (_, _) |- _ =>
           let S := fresh "S" in
           pose proof (write_calls_no_browser e d p W) as S;
           rewrite H in S; cbn [snd trace] in S; clear H
       end.
  all: unfold browser_calls in *;
       repeat match goal with
       | S : flat_map _ _ = _ |- _ => rewrite !flat_map_app in S
       end;
       rewrite ?flat_map_app;
       repeat match goal with
       | S : flat_map browser_item (trace ?x) = _ |- _ => rewrite S; clear S
       | S : trace ?x = _ |- _ => rewrite S; clear S
       end;
       rewrite ?flat_map_app;
       cbn [flat_map browser_item]; rewrite <- ?app_assoc; cbn [app];
       rewrite ?app_nil_r.
  all: try (exists []; split; [now rewrite app_nil_r | reflexivity]).
  all: eexists; split; [reflexivity |].
  all: now apply browser_session_calls.
Qed.

(** What the render step returns does not depend on the world it
    starts in. *)
Lemma render_result_fixed (env : Env) (files : FileSet)
      (options : ImageConversionOptions) (w w' : World) :
  fst (_renderHTMLToImage env files options w)
  = fst (_renderHTMLToImage env files options w').
Proof. unfold _renderHTMLToImage, render_page. run; reflexivity. Qed.

Lemma render_needs_close (env : Env) (files : FileSet)
      (options : ImageConversionOptions) (w : World) (out : RenderOutput) :
  fst (_renderHTMLToImage env files options w) = Return out ->
  env.(browser_close) = Return tt.
Proof.
  unfold _renderHTMLToImage, render_page. run.
  all: intros H; try discriminate H.
  all: match goal with
       | E : browser_close _ = Return ?u |- _ => now destruct u
       end.
Qed.

(** X6.  [convert] touches the file system only on request, and only
    once the render step has returned.  The render step hands an image
    to [convert] when the options are valid, the HTML plugin returns a
    success with data, and the render step returns, for which the
    screenshot must have been taken and the browser closed without an
    error.  When that is so and outputPath is a non-empty string, the
    calls to the file system of one conversion are those of the file
    write: none outside Node.js, else the making of the directory of
    outputPath and, when that succeeded, the write of the bytes of the
    screenshot to outputPath.  In every other case there are none: so
    also when the screenshot was taken and the close of the browser
    threw. *)
Theorem convert_writes_on_request (env : Env) (source : ConversionSource)
        (options : option ImageConversionOptions) (w : World) :
  let o := _mergeOptions options in
  fs_calls (trace (snd (convert env source options w)))
  = (fs_calls (trace w)
     ++ match rendered env source o, read o.(Options.outputPath) with
        | Some image, Some path =>
            if negb (String.eqb path "") then write_calls env image path else []
        | _, _ => []
        end)%list /\
  (forall image,
     rendered env source o = Some image ->
     env.(page_screenshot) (screenshotOptions o) = Return image /\
     env.(browser_close) = Return tt).
Proof.
  cbv zeta. split.
  - match goal with
    | |- _ = (_ ++ ?m)%list => set (written := m)
    end.
    unfold convert, reportProgress, _createErrorResult. run.
    all: cbv zeta; cbn [nullish truthy] in *.
    all: impossible.
    all: repeat match goal with
         | H : _renderHTMLToImage ?e ?f ?o ?W = (?c, ?W') |- _ =>
             let S := fresh "S" in let R := fresh "R" in
             pose proof (render_writes_nothing e f o W) as S;
             pose proof (render_result_fixed e f o initial W) as R;
             rewrite H in S, R; cbn [fst snd trace] in S, R; clear H
         | H : _writeToFile ?e ?d ?p ?W = (_, _) |- _ =>
             let S := fresh "S" in
             pose proof (write_trace e d p W) as S;
             rewrite H in S; cbn [snd trace] in S; clear H
         end.
    all: subst written; unfold rendered.
    all: repeat match goal with
         | E : negb (Validation.valid ?v) = _ |- _ =>
             apply (f_equal negb) in E; rewrite negb_involutive in E;
             cbn [negb] in E; rewrite E
         end.
    all: repeat match goal with
         | E : htmlPlugin_convert _ _ _ = _ |- _ => rewrite E
         | E : html_success _ = _ |- _ => rewrite E
         | E : html_data _ = _ |- _ => rewrite E
         | E : fst (_renderHTMLToImage _ _ _ initial) = _ |- _ => rewrite E
         end.
    all: subst.
    all: repeat match goal with
         | E : read _ = _ |- _ => rewrite E
         | E : negb _ = _ |- _ => rewrite E
         end.
    all: unfold fs_calls in *;
         repeat match goal with
         | S : flat_map _ _ = _ |- _ => rewrite !flat_map_app in S
         end;
         rewrite ?flat_map_app;
         repeat match goal with
         | S : trace ?x = _ |- _ => rewrite S; clear S
         end;
         rewrite ?flat_map_app;
         repeat match goal with
         | S : flat_map fs_item (trace ?x) = _ |- _ => rewrite S; clear S
         end;
         cbn [flat_map fs_item]; rewrite <- ?app_assoc; cbn [app];
         rewrite ?app_nil_r, ?fs_calls_write_calls.
    all: try reflexivity.
    all: try (destruct (html_success _); reflexivity).
    all: destruct (read (Options.outputPath _)) as [path|];
         cbn [truthy nullish negb] in *; try discriminate;
         try (destruct (String.eqb path "")); cbn [negb] in *; try discriminate;
         rewrite ?app_nil_r; try reflexivity.
  - intros image. unfold rendered.
    destruct (Validation.valid _); [| discriminate].
    destruct (htmlPlugin_convert _ _ _) as [h|]; [| discriminate].
    destruct (html_success h); [| discriminate].
    destruct (html_data h) as [files|]; [| discriminate].
    destruct (fst (_renderHTMLToImage env files (_mergeOptions options) initial))
      as [out|] eqn:E; [| discriminate].
    intros H. injection H as <-. split.
    + now apply render_returns_screenshot with files initial.
    + now apply render_needs_close with files (_mergeOptions options) initial out.
Qed.

(** X7.  When the close of the browser throws, the render step throws
    that error, whatever the calls on the page did: a screenshot that
    was taken is lost, and an error of a call on the page is replaced.
    [convert] then fails with the code CONV-IMG-004 and the error of
    the close. *)
Theorem render_close_failure (env : Env) (files : FileSet)
        (options : ImageConversionOptions) (w : World) (indexHtml : string)
        (e : thrown) :
  env.(import_puppeteer) = true ->
  files_get files "index.html" = Some (Text indexHtml) ->
  indexHtml <> "" ->
  env.(puppeteer_launch) = Return tt ->
  env.(browser_close) = Throw e ->
  fst (_renderHTMLToImage env files options w) = Throw e /\
  forall (source : ConversionSource) (given : option ImageConversionOptions)
         (err : option ConversionError) (w0 : World),
    (validateOptions (_mergeOptions given)).(Validation.valid) = true ->
    env.(htmlPlugin_convert) source (read (_mergeOptions given).(Options.themeId))
    = Return {| html_success := true; html_data := Some files; html_error := err |} ->
    exists duration,
      fst (convert env source given w0)
      = Return (failure env.(uuidv4) (caught e) duration).
Proof.
  intros Hi Hf Hne Hl Hc.
  assert (Ht : truthy (Some indexHtml) = true).
  { cbn. destruct indexHtml; [now destruct Hne | reflexivity]. }
  assert (R : forall o W, fst (_renderHTMLToImage env files o W) = Throw e).
  { intros o W. unfold _renderHTMLToImage, render_page.
    rewrite Hi, Hf, Ht, Hl, Hc. run; reflexivity. }
  split; [apply R |].
  intros source given err w0 Hv Hh.
  unfold convert, reportProgress, _createErrorResult, failure, caught.
  rewrite Hv, Hh. cbn [negb html_success html_data]. run.
  all: try match goal with
       | H : _renderHTMLToImage ?e' ?f ?o ?W = (?c, _) |- _ =>
           pose proof (R o W) as R'; rewrite H in R'; cbn [fst] in R';
           first [discriminate R' | injection R' as <-]
       end.
  all: eexists; reflexivity.
Qed.

Lemma render_close_failure_witness :
  fst (_renderHTMLToImage
         (with_close (Throw (JsError "Target closed")) (sample_env sample_files true))
         sample_files DEFAULT_OPTIONS initial)
  = Throw (JsError "Target closed").
Proof.
  apply (render_close_failure
           (with_close (Throw (JsError "Target closed")) (sample_env sample_files true))
           sample_files DEFAULT_OPTIONS initial _ (JsError "Target closed")
           eq_refl eq_refl ltac:(discriminate) eq_refl eq_refl).
Defined.

(* ===================================================================== *)
(** * Options: defaults, special values and ranges *)
(* ===================================================================== *)

(** The errors [validateOptions] collects are those of its six tests,
    in the order of the tests. *)
Lemma collect_errors (o : ImageConversionOptions) : fst (collect o) = errors_of o.
Proof.
  unfold collect, errors_of, format_errors, quality_errors, scale_errors,
    extent_errors, waitTime_errors, push.
  destruct (read (Options.format o)) as [f|];
    destruct (read (Options.quality o)) as [q|];
    destruct (read (Options.scale o)) as [s|];
    destruct (read (Options.width o)) as [wd|];
    destruct (read (Options.height o)) as [ht|];
    destruct (read (Options.waitTime o)) as [wt|].
  all: split_tests; reflexivity.
Qed.

Lemma read_spread_default {A} (d : A) (b : field A) :
  read (spread (Present d) b) = match b with Absent => Some d | _ => read b end.
Proof. destruct b; reflexivity. Qed.

Lemma spread_twice {A} (a b : field A) : spread a (spread a b) = spread a b.
Proof. destruct b; [destruct a |..]; reflexivity. Qed.

(** X8.  The defaults neither add an error nor hide one: the merged
    options have the errors of the options as given, so [convert]
    rejects a call exactly when [validateOptions] rejects its options,
    and with the same errors.  The defaults alone are valid. *)
Theorem merge_keeps_errors (o : ImageConversionOptions) :
  fst (collect (_mergeOptions (Some o))) = fst (collect o) /\
  (validateOptions (_mergeOptions (Some o))).(Validation.errors)
  = (validateOptions o).(Validation.errors) /\
  (validateOptions (_mergeOptions (Some o))).(Validation.valid)
  = (validateOptions o).(Validation.valid) /\
  (validateOptions (_mergeOptions None)).(Validation.valid) = true.
Proof.
  assert (H : fst (collect (_mergeOptions (Some o))) = fst (collect o)).
  { rewrite !collect_errors. unfold errors_of, _mergeOptions, spread_options,
      DEFAULT_OPTIONS. cbn [Options.format Options.quality Options.scale
      Options.width Options.height Options.waitTime].
    rewrite !read_spread_default.
    destruct (Options.format o), (Options.quality o), (Options.scale o),
      (Options.width o), (Options.height o), (Options.waitTime o); reflexivity. }
  split; [exact H |]. rewrite !errors_field, !valid_field, H.
  split; [reflexivity |]. split; reflexivity.
Qed.

(** X9.  Merging is idempotent, the empty options object merges to the
    defaults, and [getDefaultOptions] returns the defaults, which merge
    to themselves. *)
Theorem mergeOptions_idempotent (options : option ImageConversionOptions) :
  _mergeOptions (Some (_mergeOptions options)) = _mergeOptions options /\
  _mergeOptions (Some Options.empty) = _mergeOptions None /\
  _mergeOptions (Some getDefaultOptions) = getDefaultOptions /\
  getDefaultOptions = _mergeOptions None.
Proof.
  split; [| repeat split].
  destruct options as [o|]; [| reflexivity].
  unfold _mergeOptions, spread_options.
  cbn [Options.format Options.quality Options.scale Options.width Options.height
       Options.backgroundColor Options.transparent Options.waitTime
       Options.outputPath Options.themeId Options.onProgress].
  now rewrite !spread_twice.
Qed.

(** X10.  [validateOptions] lets NaN through: every comparison with NaN
    is false, so options whose quality, scale, width, height and
    waitTime are all NaN have the errors of the same options without
    these five properties, and are valid exactly when those are. *)
Theorem validateOptions_accepts_NaN (o : ImageConversionOptions) :
  fst (collect (with_numbers (Present Number.NaN) o))
  = fst (collect (with_numbers Absent o)) /\
  (validateOptions (with_numbers (Present Number.NaN) o)).(Validation.valid)
  = (validateOptions (with_numbers Absent o)).(Validation.valid).
Proof.
  assert (H : fst (collect (with_numbers (Present Number.NaN) o))
              = fst (collect (with_numbers Absent o))).
  { rewrite !collect_errors. unfold errors_of. reflexivity. }
  split; [exact H |]. now rewrite !valid_field, H.
Qed.

(** X11.  The options of the screenshot are consistent.  The type is
    jpeg, with the quality of the options or 90 and without
    omitBackground, when the format is jpg or jpeg; otherwise the type
    is png and no quality is passed, and omitBackground is passed only
    for the format png.  The page is always taken in full.  And with
    valid options the quality that is passed is not outside 1 to
    100. *)
Theorem screenshotOptions_consistent (o : ImageConversionOptions) :
  let s := screenshotOptions o in
  s.(fullPage) = true /\
  (s.(type) = "jpeg" /\ s.(omitBackground) = None /\
   s.(shot_quality) = Some (read o.(Options.quality) ?? num 90) /\
   (read o.(Options.format) = Some "jpg" \/ read o.(Options.format) = Some "jpeg")
   \/
   s.(type) = "png" /\ s.(shot_quality) = None /\
   read o.(Options.format) <> Some "jpg" /\ read o.(Options.format) <> Some "jpeg" /\
   s.(omitBackground)
   = if strict_eq (read o.(Options.format)) "png"
     then Some (read o.(Options.transparent) ?? false) else None) /\
  ((validateOptions o).(Validation.valid) = true ->
   forall q, s.(shot_quality) = Some q -> quality_outside q = false).
Proof.
  cbv zeta. split; [reflexivity |]. split.
  - unfold screenshotOptions, is_jpeg. cbn [type shot_quality omitBackground].
    destruct (read (Options.format o)) as [f|]; cbn [strict_eq].
    + destruct (String.eqb f "jpg") eqn:E1.
      * apply String.eqb_eq in E1. subst f. left. cbn. auto.
      * destruct (String.eqb f "jpeg") eqn:E2.
        -- apply String.eqb_eq in E2. subst f. left. cbn. auto.
        -- right. cbn [orb]. apply String.eqb_neq in E1, E2.
           repeat split; congruence.
    + right. cbn. repeat split; discriminate.
  - intros Hv q Hq. rewrite valid_field, collect_errors in Hv.
    unfold errors_of in Hv.
    unfold screenshotOptions in Hq. cbn [shot_quality] in Hq.
    destruct (is_jpeg o); [| discriminate Hq]. injection Hq as <-.
    destruct (format_errors (read (Options.format o))); [| discriminate Hv].
    cbn [app] in Hv. unfold quality_errors in Hv.
    destruct (read (Options.quality o)) as [q|]; cbn [nullish].
    + unfold quality_outside.
      destruct (Number.ltb q (num 1) || Number.gtb q (num 100));
        [discriminate Hv | reflexivity].
    + reflexivity.
Qed.

Module OrderFacts.
Import Number.
Local Open Scope Z_scope.

Lemma magnitude_order (m1 m2 : positive) (e1 e2 a b : Z) :
  Zpos (digits2_pos m1) = 53 -> Zpos (digits2_pos m2) = 53 ->
  e1 <= 0 -> e2 <= 0 ->
  Zpos m1 = a * 2 ^ (- e1) -> Zpos m2 = b * 2 ^ (- e2) ->
  match e1 ?= e2 with
  | Eq => Pos.compare_cont Eq m1 m2
  | Lt => Lt
  | Gt => Gt
  end = (a ?= b).
Proof.
  intros D1 D2 L1 L2 V1 V2.
  pose proof (NumberFacts.digits_bounds m1) as B1.
  pose proof (NumberFacts.digits_bounds m2) as B2.
  rewrite D1 in B1. rewrite D2 in B2.
  change (2 ^ (53 - 1)) with 4503599627370496 in *.
  change (2 ^ 53) with 9007199254740992 in *.
  assert (P1 : 0 < 2 ^ (- e1)) by (apply Z.pow_pos_nonneg; lia).
  assert (P2 : 0 < 2 ^ (- e2)) by (apply Z.pow_pos_nonneg; lia).
  destruct (Z.compare_spec e1 e2) as [E | E | E].
  - subst e2. change (Pos.compare_cont Eq m1 m2) with (Zpos m1 ?= Zpos m2).
    rewrite V1, V2. destruct (Z.compare_spec a b) as [-> | H | H].
    + apply Z.compare_refl.
    + apply Z.compare_lt_iff. now apply Z.mul_lt_mono_pos_r.
    + apply Z.compare_gt_iff. now apply Z.mul_lt_mono_pos_r.
  - symmetry. apply Z.compare_lt_iff.
    assert (S : 2 ^ (- e1) = 2 ^ (- e2) * 2 ^ (e2 - e1)).
    { rewrite <- Z.pow_add_r by lia. f_equal. lia. }
    assert (G : 2 ^ 1 <= 2 ^ (e2 - e1)) by (apply Z.pow_le_mono_r; lia).
    change (2 ^ 1) with 2 in G.
    destruct (Z.lt_ge_cases a b) as [H | H]; [exact H | exfalso].
    assert (b * 2 ^ (- e2) * 2 ^ (e2 - e1) <= a * 2 ^ (- e1)).
    { rewrite S, Z.mul_assoc. apply Z.mul_le_mono_nonneg_r; [lia |].
      apply Z.mul_le_mono_nonneg_r; lia. }
    nia.
  - symmetry. apply Z.compare_gt_iff.
    assert (S : 2 ^ (- e2) = 2 ^ (- e1) * 2 ^ (e1 - e2)).
    { rewrite <- Z.pow_add_r by lia. f_equal. lia. }
    assert (G : 2 ^ 1 <= 2 ^ (e1 - e2)) by (apply Z.pow_le_mono_r; lia).
    change (2 ^ 1) with 2 in G.
    destruct (Z.lt_ge_cases b a) as [H | H]; [exact H | exfalso].
    assert (a * 2 ^ (- e1) * 2 ^ (e1 - e2) <= b * 2 ^ (- e2)).
    { rewrite S, Z.mul_assoc. apply Z.mul_le_mono_nonneg_r; [lia |].
      apply Z.mul_le_mono_nonneg_r; lia. }
    nia.
Qed.

(** Integers below 2^53 are compared as Numbers the way they are
    compared as integers. *)
Lemma compare_of_Z (a b : Z) :
  Z.abs a < 2 ^ 53 -> Z.abs b < 2 ^ 53 ->
  SFcompare (of_Z a) (of_Z b) = Some (a ?= b).
Proof.
  intros Ha Hb.
  destruct (Z.eq_dec a 0) as [-> | Na]; destruct (Z.eq_dec b 0) as [-> | Nb].
  - reflexivity.
  - destruct (NumberFacts.of_Z_exact b Hb Nb) as [m [e [-> _]]].
    change (of_Z 0) with (S754_zero false). cbn [SFcompare].
    destruct (Z.ltb_spec b 0); f_equal; symmetry;
      [apply Z.compare_gt_iff | apply Z.compare_lt_iff]; lia.
  - destruct (NumberFacts.of_Z_exact a Ha Na) as [m [e [-> _]]].
    change (of_Z 0) with (S754_zero false). cbn [SFcompare].
    destruct (Z.ltb_spec a 0); f_equal; symmetry;
      [apply Z.compare_lt_iff | apply Z.compare_gt_iff]; lia.
  - destruct (NumberFacts.of_Z_exact a Ha Na) as [m1 [e1 [-> [D1 [R1 V1]]]]].
    destruct (NumberFacts.of_Z_exact b Hb Nb) as [m2 [e2 [-> [D2 [R2 V2]]]]].
    cbn [SFcompare]. f_equal.
    destruct (Z.ltb_spec a 0) as [Sa | Sa]; destruct (Z.ltb_spec b 0) as [Sb | Sb].
    + rewrite Z.abs_neq in V1, V2 by lia.
      replace (a ?= b) with (CompOpp (- a ?= - b)).
      * rewrite <- (magnitude_order m1 m2 e1 e2 (- a) (- b)) by (assumption || lia).
        destruct (e1 ?= e2); reflexivity.
      * rewrite Z.compare_opp. symmetry. apply Z.compare_antisym.
    + symmetry. apply Z.compare_lt_iff. lia.
    + symmetry. apply Z.compare_gt_iff. lia.
    + rewrite Z.abs_eq in V1, V2 by lia.
      apply magnitude_order; assumption || lia.
Qed.

Lemma ltb_of_Z (a b : Z) :
  Z.abs a < 2 ^ 53 -> Z.abs b < 2 ^ 53 -> ltb (of_Z a) (of_Z b) = (a <? b).
Proof.
  intros Ha Hb. unfold ltb, SFltb, Z.ltb. rewrite (compare_of_Z a b Ha Hb).
  destruct (a ?= b); reflexivity.
Qed.

Lemma leb_of_Z (a b : Z) :
  Z.abs a < 2 ^ 53 -> Z.abs b < 2 ^ 53 -> leb (of_Z a) (of_Z b) = (a <=? b).
Proof.
  intros Ha Hb. unfold leb, SFleb, Z.leb. rewrite (compare_of_Z a b Ha Hb).
  destruct (a ?= b); reflexivity.
Qed.

Lemma isNaN_of_Z (a : Z) : Z.abs a < 2 ^ 53 -> isNaN (of_Z a) = false.
Proof. intros H. apply NumberFacts.isNaN_integral. now exists a. Qed.

Lemma is_neg_zero_of_Z (a : Z) : Z.abs a < 2 ^ 53 -> is_neg_zero (of_Z a) = false.
Proof.
  intros H. destruct (Z.eq_dec a 0) as [-> | N]; [reflexivity |].
  now destruct (NumberFacts.of_Z_exact a H N) as [m [e [-> _]]].
Qed.

Lemma max2_of_Z (a b : Z) :
  Z.abs a < 2 ^ 53 -> Z.abs b < 2 ^ 53 ->
  max2 (of_Z a) (of_Z b) = of_Z (Z.max a b).
Proof.
  intros Ha Hb. unfold max2.
  rewrite (isNaN_of_Z a Ha), (isNaN_of_Z b Hb). cbn [orb].
  rewrite (ltb_of_Z a b Ha Hb), (ltb_of_Z b a Hb Ha), (is_neg_zero_of_Z a Ha).
  destruct (Z.ltb_spec a b); [f_equal; lia |].
  destruct (Z.ltb_spec b a); f_equal; lia.
Qed.

Lemma max2_start (a : Z) :
  Z.abs a < 2 ^ 53 -> max2 (S754_infinity true) (of_Z a) = of_Z a.
Proof.
  intros Ha. unfold max2. rewrite (isNaN_of_Z a Ha). cbn [isNaN orb].
  destruct (Z.eq_dec a 0) as [-> | N]; [reflexivity |].
  now destruct (NumberFacts.of_Z_exact a Ha N) as [m [e [-> _]]].
Qed.

End OrderFacts.

Module RangeFacts.
Local Open Scope Z_scope.

(** Turns the tests on integral Numbers into tests on integers and
    decides them. *)
Ltac compare_integers :=
  unfold num, Number.gtb; fold (Number.ltb);
  repeat first
    [ rewrite OrderFacts.ltb_of_Z by (assumption || reflexivity)
    | rewrite OrderFacts.leb_of_Z by (assumption || reflexivity) ];
  repeat match goal with
  | |- context [Z.ltb ?a ?b] => destruct (Z.ltb_spec a b)
  | |- context [Z.leb ?a ?b] => destruct (Z.leb_spec a b)
  end; cbn [orb andb negb]; try reflexivity; try lia.

Lemma quality_range (z : Z) :
  Z.abs z < 2 ^ 53 ->
  quality_errors (Some (num z))
  = if (1 <=? z) && (z <=? 100) then [] else [quality_out_of_range (num z)].
Proof.
  intros H. unfold quality_errors.
  change (SFltb (Number.of_Z 100) (Number.of_Z z))
    with (Number.ltb (Number.of_Z 100) (Number.of_Z z)).
  compare_integers.
Qed.

Lemma scale_range (z : Z) :
  Z.abs z < 2 ^ 53 ->
  scale_errors (Some (num z))
  = if (1 <=? z) && (z <=? 4) then [] else [scale_out_of_range (num z)].
Proof. intros H. unfold scale_errors. compare_integers. Qed.

Lemma extent_range (describe : number -> string) (z : Z) :
  Z.abs z < 2 ^ 53 ->
  extent_errors describe (Some (num z))
  = if 1 <=? z then [] else [describe (num z)].
Proof. intros H. unfold extent_errors. compare_integers. Qed.

Lemma waitTime_range (z : Z) :
  Z.abs z < 2 ^ 53 ->
  waitTime_errors (Some (num z))
  = if 0 <=? z then [] else [waitTime_negative (num z)].
Proof. intros H. unfold waitTime_errors. compare_integers. Qed.

End RangeFacts.

(** X12.  For integer values, which a Number holds exactly below 2^53,
    the options are valid exactly when the quality is from 1 to 100,
    the scale from 1 to 4, the width and the height at least 1 and the
    waitTime at least 0: the bounds 1, 100 and 4 are accepted, a scale,
    a width or a height of 0 is rejected, a waitTime of 0 is
    accepted. *)
Theorem validateOptions_integer_ranges (quality scale width height waitTime : Z) :
  forallb is_safe_integer [quality; scale; width; height; waitTime] = true ->
  (validateOptions (integer_options quality scale width height waitTime))
    .(Validation.valid)
  = (1 <=? quality) && (quality <=? 100) && (1 <=? scale) && (scale <=? 4)
    && (1 <=? width) && (1 <=? height) && (0 <=? waitTime).
Proof.
  cbn [forallb]. unfold is_safe_integer. intros H.
  repeat (apply andb_prop in H as [?H H]). clear H.
  repeat match goal with
  | H : (_ <? _) = true |- _ => apply Z.ltb_lt in H
  end.
  rewrite valid_field, collect_errors. unfold errors_of, integer_options.
  cbn [Options.format Options.quality Options.scale Options.width Options.height
       Options.waitTime read format_errors app].
  rewrite RangeFacts.quality_range, RangeFacts.scale_range,
    !RangeFacts.extent_range, RangeFacts.waitTime_range by assumption.
  destruct ((1 <=? quality) && (quality <=? 100)); cbn [andb app]; [| reflexivity].
  destruct ((1 <=? scale) && (scale <=? 4)); cbn [andb app]; [| reflexivity].
  destruct (1 <=? width); cbn [andb app]; [| reflexivity].
  destruct (1 <=? height); cbn [andb app]; [| reflexivity].
  destruct (0 <=? waitTime); reflexivity.
Qed.

Lemma validateOptions_integer_ranges_witness :
  (validateOptions (integer_options 100 4 1 1 0)).(Validation.valid) = true /\
  (validateOptions (integer_options 101 4 1 1 0)).(Validation.valid) = false /\
  (validateOptions (integer_options 1 0 1 1 0)).(Validation.valid) = false.
Proof.
  rewrite (validateOptions_integer_ranges 100 4 1 1 0 eq_refl).
  rewrite (validateOptions_integer_ranges 101 4 1 1 0 eq_refl).
  rewrite (validateOptions_integer_ranges 1 0 1 1 0 eq_refl).
  repeat split.
Defined.

(** The measured extent is the greatest of the five. *)
Lemma measure_of_long (e : Extents) :
  long_extents e = true -> measure e = num (greatest e).
Proof.
  unfold long_extents, measure, greatest. cbn [forallb]. intros H.
  repeat (apply andb_prop in H as [?H H]). clear H.
  assert (B : forall z, is_long z = true -> Z.abs z < 2 ^ 53).
  { intros z Hz. unfold is_long in Hz. apply andb_prop in Hz as [L U].
    apply Z.leb_le in L. apply Z.ltb_lt in U.
    change (2 ^ 31) with 2147483648 in *. change (2 ^ 53) with 9007199254740992. lia. }
  assert (M : forall x y, is_long x = true -> is_long y = true ->
                is_long (Z.max x y) = true).
  { intros x y Hx Hy. destruct (Z.max_spec x y) as [[_ ->] | [_ ->]]; assumption. }
  unfold Number.Math_max, num. cbn [fold_left].
  rewrite OrderFacts.max2_start by auto.
  rewrite !OrderFacts.max2_of_Z by auto 10. reflexivity.
Qed.

(** C7.  The width and the height that the render step returns are
    [Math.round] of the binary64 product of the measured extent and the
    device scale factor, which is the scale of the options or 1.  For
    extents in the range of the DOM, the measured width is the greatest
    of the five widths the page reads, none of which is above it, and
    the measured height the greatest of the five heights; for a scale
    that is a binary64 value, a finite product is rounded to the
    nearest integer, upwards from the middle between two; and for the
    scale 1 the returned dimensions are the measured ones. *)
Theorem render_reports_scaled_dimensions
        (env : Env) (files : FileSet) (options : ImageConversionOptions)
        (w : World) (out : RenderOutput) :
  fst (_renderHTMLToImage env files options w) = Return out ->
  exists metrics,
    env.(page_evaluate) = Return metrics /\
    let scale := read options.(Options.scale) ?? num 1 in
    let css_width := measure metrics.(widths) in
    let css_height := measure metrics.(heights) in
    out.(out_width) = Number.Math_round (Number.mul css_width scale) /\
    out.(out_height) = Number.Math_round (Number.mul css_height scale) /\
    (long_extents metrics.(widths) && long_extents metrics.(heights) = true ->
     css_width = num (greatest metrics.(widths)) /\
     css_height = num (greatest metrics.(heights)) /\
     (forall x, In x (extents metrics.(widths)) ->
                x <= greatest metrics.(widths)) /\
     (forall y, In y (extents metrics.(heights)) ->
                y <= greatest metrics.(heights)) /\
     In (greatest metrics.(widths)) (extents metrics.(widths)) /\
     In (greatest metrics.(heights)) (extents metrics.(heights)) /\
     (is_binary64 scale = true ->
      rounds (Number.mul css_width scale) out.(out_width) /\
      rounds (Number.mul css_height scale) out.(out_height)) /\
     (scale = num 1 ->
      out.(out_width) = num (greatest metrics.(widths)) /\
      out.(out_height) = num (greatest metrics.(heights)))).
Proof.
  intros H. destruct (render_returns_dimensions env files options w out H)
    as [metrics [Hm [Hw Hh]]].
  exists metrics. split; [exact Hm |]. cbv zeta.
  split; [exact Hw |]. split; [exact Hh |].
  intros Hl. apply andb_prop in Hl as [Lw Lh].
  pose proof (measure_integral _ Lw) as Iw. pose proof (measure_integral _ Lh) as Ih.
  pose proof (measure_of_long _ Lw) as Gw. pose proof (measure_of_long _ Lh) as Gh.
  split; [exact Gw |]. split; [exact Gh |].
  split; [unfold greatest, extents; cbn [In]; intros x Hx; lia |].
  split; [unfold greatest, extents; cbn [In]; intros y Hy; lia |].
  split; [unfold greatest, extents; cbn [In]; lia |].
  split; [unfold greatest, extents; cbn [In]; lia |].
  split.
  - intros Vs. unfold is_binary64 in Vs. rewrite Hw, Hh. split; intros q Hq.
    + apply NumberFacts.Math_round_nearest; [| exact Hq].
      apply NumberFacts.mul_valid; [now apply NumberFacts.integral_valid | exact Vs].
    + apply NumberFacts.Math_round_nearest; [| exact Hq].
      apply NumberFacts.mul_valid; [now apply NumberFacts.integral_valid | exact Vs].
  - intros E. rewrite Hw, Hh, E, <- Gw, <- Gh.
    change (num 1) with (Number.of_Z 1).
    rewrite !NumberFacts.mul_one_integral by assumption.
    split; now apply NumberFacts.Math_round_integral.
Qed.

Lemma render_reports_scaled_dimensions_witness :
  exists out,
    fst (_renderHTMLToImage (with_metrics uneven_metrics (sample_env sample_files true))
           sample_files
           (_mergeOptions (Some (with_scale (Present (num 2)) Options.empty)))
           initial) = Return out /\
    out.(out_width) = num 2048 /\ out.(out_height) = num 4000.
Proof.
  eexists. split; [vm_compute; reflexivity |].
  destruct (render_reports_scaled_dimensions
              (with_metrics uneven_metrics (sample_env sample_files true))
              sample_files
              (_mergeOptions (Some (with_scale (Present (num 2)) Options.empty)))
              initial _ ltac:(vm_compute; reflexivity))
    as [metrics [Hm [Hw [Hh Hl]]]].
  injection Hm as <-. destruct (Hl eq_refl) as [Gw [Gh _]].
  rewrite Gw in Hw. rewrite Gh in Hh.
  split; [rewrite Hw | rewrite Hh]; vm_compute; reflexivity.
Defined.

(** X13.  What the page measures as width, and as height, is the
    greatest of the five extents it reads, as long as these are in the
    range of the DOM; and at the scale 1 that is the dimension the
    render step reports. *)
Theorem measure_is_greatest (e : Extents) :
  long_extents e = true ->
  measure e = num (greatest e) /\
  is_long (greatest e) = true /\
  In (greatest e)
     [ e.(body_scroll); e.(body_offset); e.(html_client); e.(html_scroll);
       e.(html_offset) ] /\
  Number.Math_round (Number.mul (measure e) (num 1)) = num (greatest e).
Proof.
  intros Hl. pose proof (measure_integral e Hl) as Hi. revert Hl.
  unfold long_extents, measure, greatest. cbn [forallb]. intros H.
  repeat (apply andb_prop in H as [?H H]). clear H.
  assert (B : forall z, is_long z = true -> Z.abs z < 2 ^ 53).
  { intros z Hz. unfold is_long in Hz. apply andb_prop in Hz as [L U].
    apply Z.leb_le in L. apply Z.ltb_lt in U.
    change (2 ^ 31) with 2147483648 in *. change (2 ^ 53) with 9007199254740992. lia. }
  assert (M : forall x y, is_long x = true -> is_long y = true ->
                is_long (Z.max x y) = true).
  { intros x y Hx Hy. destruct (Z.max_spec x y) as [[_ ->] | [_ ->]]; assumption. }
  assert (E : Number.Math_max
                [ num (body_scroll e); num (body_offset e); num (html_client e);
                  num (html_scroll e); num (html_offset e) ]
              = num (Z.max (Z.max (Z.max (Z.max (body_scroll e) (body_offset e))
                                         (html_client e)) (html_scroll e))
                           (html_offset e))).
  { unfold Number.Math_max, num. cbn [fold_left].
    rewrite OrderFacts.max2_start by auto.
    rewrite !OrderFacts.max2_of_Z by auto 10. reflexivity. }
  split; [exact E | split; [| split]].
  - auto 10.
  - cbn [In]. lia.
  - unfold measure in Hi. rewrite <- E.
    change (num 1) with (Number.of_Z 1).
    rewrite NumberFacts.mul_one_integral by exact Hi.
    now apply NumberFacts.Math_round_integral.
Qed.

Lemma measure_is_greatest_witness :
  measure (widths sample_metrics) = num 800 /\
  measure (heights sample_metrics) = num 600.
Proof.
  split.
  - exact (proj1 (measure_is_greatest (widths sample_metrics) eq_refl)).
  - exact (proj1 (measure_is_greatest (heights sample_metrics) eq_refl)).
Defined.

(* ===================================================================== *)
(** * File names: escaping, extensions and MIME types *)
(* ===================================================================== *)

Module LiteralFacts.
Import RegExp.

(** A sequence of characters matches the text it spells. *)
Lemma match_literal (i : bool) (name : string) :
  forall (k : continuation) (s : string) (c : captures),
    match_node i (seq_of (literal_terms name)) k s c
    = match strip_prefix i name s with
      | Some rest => k rest c
      | None => None
      end.
Proof.
  induction name as [|a name IH]; intros k s c; [reflexivity |].
  change (seq_of (literal_terms (String a name)))
    with (Seq (One (Lit a)) (seq_of (literal_terms name))).
  cbn [match_node strip_prefix charset_matches].
  destruct s as [|b s]; [reflexivity |].
  destruct (Ascii.eqb (canonicalize i a) (canonicalize i b)); [apply IH | reflexivity].
Qed.

Lemma escaped_parses (name flags : string) (g i : bool) :
  parse_flags flags false false = Some (g, i) ->
  RegExp_new (escaped name) flags
  = Some {| source := seq_of (literal_terms name); global := g; ignoreCase := i;
            groups := 0 |}.
Proof.
  intros Hf. unfold RegExp_new.
  rewrite <- (append_nil_r (escaped name)), PatternFacts.tokenize_escaped.
  cbn [tokenize option_map]. rewrite Hf.
  rewrite PatternFacts.build_literal. cbn [build].
  unfold close_frame, add_terms. cbn [alternatives terms app alt_of Nat.pred].
  reflexivity.
Qed.

Lemma strip_prefix_exact (p : string) :
  forall s rest, strip_prefix false p s = Some rest <-> s = p ++ rest.
Proof.
  induction p as [|a p IH]; intros s rest; cbn [strip_prefix append canonicalize].
  - split; [intros H; now injection H as -> | intros ->; reflexivity].
  - destruct s as [|b s]; [split; discriminate |].
    destruct (Ascii.eqb a b) eqn:E.
    + apply Ascii.eqb_eq in E. subst b. rewrite IH.
      split; [intros ->; reflexivity | intros H; injection H as H; exact H].
    + apply Ascii.eqb_neq in E.
      split; [discriminate | intros H; injection H as H _; now destruct E].
Qed.

End LiteralFacts.

(** X14.  Escaping makes a file name a pattern for itself.  With the
    flags g and i, in any combination, the escaped name is a
    well-formed regular expression without groups, whatever characters
    the name has: none of them acts as an operator.  Without the flag
    i it matches at a position exactly when the text there starts with
    the name, and the match covers the name and no more.  With the
    flag i and a name of ASCII characters it matches exactly when the
    text there starts with the name up to the case of its ASCII
    letters.  A name with other characters under the flag i is left
    out. *)
Theorem escapeRegex_matches_literally (name flags : string) (g i : bool) :
  RegExp.parse_flags flags false false = Some (g, i) ->
  exists re,
    RegExp.RegExp_new (_escapeRegex name) flags = Some re /\
    RegExp.global re = g /\ RegExp.ignoreCase re = i /\
    RegExp.groups re = 0%nat /\
    (i = false ->
     forall s rest caps,
       RegExp.match_at re s = Some (rest, caps) <-> s = name ++ rest /\ caps = []) /\
    (i = true -> ascii_only name = true ->
     forall s,
       RegExp.match_at re s
       = option_map (fun rest => (rest, [])) (strip_prefix true name s)).
Proof.
  intros Hf. rewrite PatternFacts.escapeRegex_spec.
  rewrite (LiteralFacts.escaped_parses name flags g i Hf).
  eexists. split; [reflexivity |]. split; [reflexivity |]. split; [reflexivity |].
  split; [reflexivity |].
  assert (Hm : forall s,
            RegExp.match_at
              {| RegExp.source := RegExp.seq_of (literal_terms name);
                 RegExp.global := g; RegExp.ignoreCase := i; RegExp.groups := 0 |} s
            = option_map (fun rest => (rest, [])) (strip_prefix i name s)).
  { intros s. unfold RegExp.match_at.
    cbn [RegExp.ignoreCase RegExp.source RegExp.groups repeat].
    rewrite LiteralFacts.match_literal. now destruct (strip_prefix i name s). }
  split.
  - intros -> s rest caps. rewrite Hm. split.
    + destruct (strip_prefix false name s) as [r|] eqn:E; [| discriminate].
      cbn [option_map]. intros H. injection H as <- <-.
      split; [now apply LiteralFacts.strip_prefix_exact | reflexivity].
    + intros [Hs ->]. apply LiteralFacts.strip_prefix_exact in Hs. now rewrite Hs.
  - intros -> _. exact Hm.
Qed.

Lemma escapeRegex_matches_literally_witness :
  exists re,
    RegExp.RegExp_new (_escapeRegex "a+b(1).css") "gi" = Some re /\
    RegExp.match_at re "A+B(1).CSS?v=2" = Some ("?v=2", []) /\
    RegExp.match_at re "aab(1).css" = None /\
    RegExp.match_at re "a+b(1)xcss" = None.
Proof.
  destruct (escapeRegex_matches_literally "a+b(1).css" "gi" true true eq_refl)
    as [re [Hre [_ [_ [_ [_ Hm]]]]]].
  exists re. split; [exact Hre |]. rewrite !(Hm eq_refl eq_refl). repeat split.
Defined.

Module CaseFacts.
Import RegExp.

Lemma code_units_complete (a : ascii) : In a code_units.
Proof.
  unfold code_units. rewrite <- (ascii_nat_embedding a).
  apply in_map, in_seq. pose proof (nat_ascii_bounded a). lia.
Qed.

Lemma fold_case_checked :
  forallb (fun a => forallb (fun b =>
     implb (negb (is_upper a))
           (Bool.eqb (Ascii.eqb (char_toUpperCase a) (char_toUpperCase b))
                     (Ascii.eqb a (char_toLowerCase b))))
     code_units) code_units = true.
Proof. vm_compute. reflexivity. Qed.

(** Without regard to case, a character that is not an upper-case
    letter is matched by the characters whose lower case it is. *)
Lemma fold_case (a b : ascii) :
  is_upper a = false ->
  Ascii.eqb (canonicalize true a) (canonicalize true b)
  = Ascii.eqb a (char_toLowerCase b).
Proof.
  intros Ha. pose proof fold_case_checked as H.
  rewrite forallb_forall in H. specialize (H a (code_units_complete a)).
  rewrite forallb_forall in H. specialize (H b (code_units_complete b)).
  rewrite Ha in H. cbn [negb implb] in H. now apply Bool.eqb_prop in H.
Qed.

Lemma strip_all_ci (w : string) :
  lower_only w = true ->
  forall t,
    match strip_prefix true w t with Some "" => true | _ => false end
    = String.eqb w (toLowerCase t).
Proof.
  induction w as [|a w IH]; intros Hw t.
  - destruct t; reflexivity.
  - cbn [lower_only] in Hw. apply andb_prop in Hw as [Ha Hw].
    apply negb_true_iff in Ha.
    destruct t as [|b t]; [reflexivity |].
    cbn [strip_prefix toLowerCase String.eqb]. rewrite (fold_case a b Ha).
    destruct (Ascii.eqb a (char_toLowerCase b)); [now apply IH | reflexivity].
Qed.

Lemma lower_keeps_checked :
  forallb (fun c =>
     Bool.eqb (Ascii.eqb (char_toLowerCase c) ".") (Ascii.eqb c ".")
     && Bool.eqb (Ascii.eqb "=" (char_toLowerCase c)) (Ascii.eqb "=" c))
    code_units = true.
Proof. vm_compute. reflexivity. Qed.

Lemma lower_is_dot (c : ascii) :
  Ascii.eqb (char_toLowerCase c) "." = Ascii.eqb c ".".
Proof.
  pose proof lower_keeps_checked as H. rewrite forallb_forall in H.
  specialize (H c (code_units_complete c)). apply andb_prop in H as [H _].
  now apply Bool.eqb_prop in H.
Qed.

Lemma equals_sign (x : ascii) :
  charset_matches true (Lit "=") x = Ascii.eqb "=" x.
Proof.
  cbn [charset_matches]. rewrite (fold_case "=" x eq_refl).
  pose proof lower_keeps_checked as H. rewrite forallb_forall in H.
  specialize (H x (code_units_complete x)). apply andb_prop in H as [_ H].
  now apply Bool.eqb_prop in H.
Qed.

End CaseFacts.

Module SuffixFacts.
Import RegExp.

Lemma test_suffix (re : regexp) (s : string) :
  test re s = true <-> exists t, is_suffix t s /\ is_some (match_at re t) = true.
Proof.
  induction s as [|x s IH]; cbn [test].
  - destruct (match_at re "") as [r|] eqn:E.
    + split; [| reflexivity]. intros _. exists "". split; [apply is_suffix_refl |].
      now rewrite E.
    + split; [discriminate |]. intros [t [[u Hu] Ht]].
      destruct u; [| discriminate Hu]. cbn in Hu. subst t. now rewrite E in Ht.
  - destruct (match_at re (String x s)) as [r|] eqn:E.
    + split; [| reflexivity]. intros _. exists (String x s).
      split; [apply is_suffix_refl |]. now rewrite E.
    + rewrite IH. split.
      * intros [t [Hs Ht]]. exists t. split; [now apply is_suffix_cons | exact Ht].
      * intros [t [[u Hu] Ht]]. destruct u as [|y u].
        -- cbn in Hu. subst t. now rewrite E in Ht.
        -- cbn in Hu. injection Hu as -> ->. exists t. split; [now exists u | exact Ht].
Qed.

Lemma substring_all (w : string) : substring 0 (String.length w) w = w.
Proof. induction w as [|c w IH]; cbn; [reflexivity | now rewrite IH]. Qed.

Lemma substring_suffix (u w : string) :
  substring (String.length u) (String.length w) (u ++ w) = w.
Proof.
  induction u as [|c u IH]; cbn [String.length append substring].
  - apply substring_all.
  - exact IH.
Qed.

Lemma substring_split (s : string) :
  forall m k, (m + k = String.length s)%nat ->
    s = substring 0 m s ++ substring m k s.
Proof.
  induction s as [|c s IH]; intros m k H.
  - cbn in H. assert (m = 0%nat) by lia. assert (k = 0%nat) by lia. now subst.
  - destruct m as [|m].
    + cbn [substring append]. cbn in H. subst k. cbn [substring].
      now rewrite substring_all.
    + cbn [substring append]. f_equal. apply IH. cbn in H. lia.
Qed.

Lemma endsWith_suffix (s w : string) : endsWith s w = true <-> is_suffix w s.
Proof.
  unfold endsWith. split.
  - intros H. apply andb_prop in H as [Hk He].
    apply Nat.leb_le in Hk. apply String.eqb_eq in He.
    exists (substring 0 (String.length s - String.length w) s).
    rewrite <- He at 2. apply substring_split. lia.
  - intros [u ->]. rewrite length_append.
    replace (String.length u + String.length w - String.length w)%nat
      with (String.length u) by lia.
    rewrite substring_suffix, String.eqb_refl.
    apply andb_true_intro. split; [apply Nat.leb_le; lia | reflexivity].
Qed.

Lemma toLowerCase_append (u t : string) :
  toLowerCase (u ++ t) = toLowerCase u ++ toLowerCase t.
Proof. induction u as [|c u IH]; cbn; [reflexivity | now rewrite IH]. Qed.

Lemma toLowerCase_split (s : string) :
  forall v w, toLowerCase s = v ++ w ->
    exists u t, s = u ++ t /\ toLowerCase u = v /\ toLowerCase t = w.
Proof.
  induction s as [|c s IH]; intros v w H.
  - destruct v; [| discriminate H]. cbn in H. subst w. now exists "", "".
  - destruct v as [|d v].
    + cbn [append] in H. exists "", (String c s). now split.
    + cbn in H. injection H as <- H. destruct (IH v w H) as [u [t [-> [<- <-]]]].
      exists (String c u), t. now split.
Qed.

End SuffixFacts.

Module ImagePathFacts.
Import RegExp.

(** Alternatives of literal texts: the first one whose text is there and
    after which the continuation succeeds. *)
Lemma match_alternatives (i : bool) (k : continuation) (s : string) (c : captures) :
  forall (w : string) (ws : list string),
    is_some (match_node i (alt_of (seq_of (literal_terms w))
                             (map (fun x => seq_of (literal_terms x)) ws)) k s c)
    = existsb (fun x => match strip_prefix i x s with
                        | Some rest => is_some (k rest c)
                        | None => false
                        end) (w :: ws).
Proof.
  intros w ws. revert w. induction ws as [|w' ws IH]; intros w.
  - cbn [map alt_of existsb]. rewrite LiteralFacts.match_literal, orb_false_r.
    now destruct (strip_prefix i w s).
  - cbn [map alt_of match_node]. rewrite LiteralFacts.match_literal.
    change (existsb ?f (w :: w' :: ws)) with (f w || existsb f (w' :: ws)).
    rewrite <- IH.
    destruct (strip_prefix i w s) as [rest|]; [| reflexivity].
    destruct (k rest c); reflexivity.
Qed.

Lemma existsb_agree {A} (f g : A -> bool) (l : list A) :
  (forall x, In x l -> f x = g x) -> existsb f l = existsb g l.
Proof.
  induction l as [|a l IH]; intros H; [reflexivity |].
  cbn [existsb]. rewrite (H a (or_introl eq_refl)). f_equal.
  apply IH. intros x Hx. apply H. now right.
Qed.

Lemma existsb_dot (x : ascii) (t : string) (l : list string) :
  existsb (fun ext => String.eqb ("." ++ ext) (String x t)) l
  = Ascii.eqb "." x && existsb (fun ext => String.eqb ext t) l.
Proof.
  induction l as [|a l IH]; cbn [existsb].
  - now rewrite andb_false_r.
  - rewrite IH. cbn [append String.eqb].
    destruct (Ascii.eqb "." x); reflexivity.
Qed.

(** The pattern of [_isImagePath] matches at a position exactly when
    what is left of the path is a dot and an extension. *)
Lemma image_path_at (s : string) :
  is_some (match_at IMAGE_PATH s)
  = existsb (fun ext => String.eqb ("." ++ ext) (toLowerCase s)) IMAGE_EXTENSIONS.
Proof.
  unfold match_at.
  change (source IMAGE_PATH)
    with (Seq (One (Lit "."))
            (Seq (Group 1 (alt_of (seq_of (literal_terms "png"))
                             (map (fun w => seq_of (literal_terms w))
                                  (tl IMAGE_EXTENSIONS))))
                 (Seq AssertEnd Empty))).
  change (ignoreCase IMAGE_PATH) with true.
  cbn [match_node charset_matches].
  destruct s as [|x s].
  - reflexivity.
  - cbn [toLowerCase]. rewrite existsb_dot.
    rewrite (CaseFacts.fold_case "." x eq_refl).
    destruct (Ascii.eqb "." (char_toLowerCase x)); [| reflexivity].
    rewrite match_alternatives.
    change ("png" :: tl IMAGE_EXTENSIONS) with IMAGE_EXTENSIONS.
    cbn [andb]. apply existsb_agree. intros ext Hin.
    rewrite <- CaseFacts.strip_all_ci.
    + destruct (strip_prefix true ext s) as [[|? ?]|]; reflexivity.
    + unfold IMAGE_EXTENSIONS in Hin. cbn [In] in Hin.
      repeat (destruct Hin as [<- | Hin]; [reflexivity |]). destruct Hin.
Qed.

Lemma image_path_extension (path : string) :
  _isImagePath path = true <->
  exists ext,
    In ext IMAGE_EXTENSIONS /\ endsWith (toLowerCase path) ("." ++ ext) = true.
Proof.
  unfold _isImagePath. rewrite SuffixFacts.test_suffix. split.
  - intros [t [[u ->] Ht]]. rewrite image_path_at in Ht.
    apply existsb_exists in Ht as [ext [Hin He]]. apply String.eqb_eq in He.
    exists ext. split; [exact Hin |]. apply SuffixFacts.endsWith_suffix.
    exists (toLowerCase u). rewrite SuffixFacts.toLowerCase_append. now rewrite He.
  - intros [ext [Hin He]]. apply SuffixFacts.endsWith_suffix in He as [v Hv].
    apply SuffixFacts.toLowerCase_split in Hv as [u [t [-> [_ Ht]]]].
    exists t. split; [now exists u |]. rewrite image_path_at.
    apply existsb_exists. exists ext. split; [exact Hin |].
    rewrite Ht. apply String.eqb_refl.
Qed.

End ImagePathFacts.

(** X15.  [_isImagePath] holds exactly for the paths that end in a dot
    and one of png, jpg, jpeg, gif, webp, svg, ico and bmp, in any
    letter case: the extension must be the end of the path, and a dot
    must precede it. *)
Theorem isImagePath_by_extension (path : string) :
  _isImagePath path = has_image_extension path.
Proof.
  apply eq_true_iff_eq. rewrite ImagePathFacts.image_path_extension.
  unfold has_image_extension. now rewrite existsb_exists.
Qed.

Module SplitFacts.

Lemma split_from_nonempty (sep : ascii) (s : string) :
  forall cur, split_from sep cur s <> [].
Proof.
  induction s as [|c s IH]; intros cur; cbn [split_from]; [discriminate |].
  destruct (Ascii.eqb c sep); [discriminate | apply IH].
Qed.

Lemma pop_cons {A} (x : A) (l : list A) : l <> [] -> pop (x :: l) = pop l.
Proof. destruct l; [congruence | reflexivity]. Qed.

(** The last piece is what follows the last separator. *)
Lemma pop_split_after (sep : ascii) (u v : string) :
  forall cur,
    pop (split_from sep cur (u ++ String sep v)) = pop (split_from sep "" v).
Proof.
  induction u as [|c u IH]; intros cur; cbn [append split_from].
  - rewrite Ascii.eqb_refl. apply pop_cons, split_from_nonempty.
  - destruct (Ascii.eqb c sep).
    + rewrite pop_cons by apply split_from_nonempty. apply IH.
    + apply IH.
Qed.

Lemma split_without (sep : ascii) (v : string) :
  no_char sep v = true -> forall cur, split_from sep cur v = [cur ++ v].
Proof.
  induction v as [|c v IH]; intros H cur; cbn [split_from].
  - now rewrite append_nil_r.
  - cbn [no_char] in H. apply andb_prop in H as [Hc Hv].
    apply negb_true_iff in Hc. rewrite Hc. rewrite (IH Hv).
    now rewrite append_assoc.
Qed.

Lemma pop_split (sep : ascii) (u v : string) :
  no_char sep v = true -> pop (split (u ++ String sep v) sep) = Some v.
Proof.
  intros H. unfold split. rewrite pop_split_after, (split_without sep v H).
  reflexivity.
Qed.

Lemma no_dot_toLowerCase (t : string) :
  no_char "." (toLowerCase t) = no_char "." t.
Proof.
  induction t as [|c t IH]; [reflexivity |].
  cbn [toLowerCase no_char]. now rewrite IH, CaseFacts.lower_is_dot.
Qed.

End SplitFacts.

(** The type of an image path is in the table, under the extension
    the path ends in. *)
Lemma image_mime_type (path : string) :
  _isImagePath path = true ->
  exists ext,
    In ext IMAGE_EXTENSIONS /\
    endsWith (toLowerCase path) ("." ++ ext) = true /\
    lookup mimeTypes ext = Some (_getMimeType path).
Proof.
  intros H. apply ImagePathFacts.image_path_extension in H as [ext [Hin He]].
  exists ext. split; [exact Hin |]. split; [exact He |].
  apply SuffixFacts.endsWith_suffix in He as [v Hv].
  apply SuffixFacts.toLowerCase_split in Hv as [u [t [-> [_ Ht]]]].
  destruct t as [|d t]; [discriminate Ht |].
  cbn [toLowerCase append] in Ht. injection Ht as Hd Ht.
  assert (Ed : d = "."%char).
  { apply Ascii.eqb_eq. rewrite <- CaseFacts.lower_is_dot, Hd. reflexivity. }
  subst d.
  assert (Hno : no_char "." t = true).
  { rewrite <- SplitFacts.no_dot_toLowerCase, Ht.
    unfold IMAGE_EXTENSIONS in Hin. cbn [In] in Hin.
    repeat (destruct Hin as [<- | Hin]; [reflexivity |]). destruct Hin. }
  unfold _getMimeType. rewrite (SplitFacts.pop_split "." u t Hno).
  cbn [option_map nullish]. rewrite Ht.
  unfold IMAGE_EXTENSIONS in Hin. cbn [In] in Hin.
  repeat (destruct Hin as [<- | Hin]; [reflexivity |]).
  destruct Hin.
Qed.

(** X16.  For a path that [_isImagePath] accepts, [_getMimeType] finds
    the type in its table, under the extension the path ends in,
    whatever the letter case and however many dots the path has: the
    fallback application/octet-stream is never the type of an image
    the inliner embeds. *)
Theorem getMimeType_of_image_path (path : string) :
  _isImagePath path = true ->
  exists ext,
    In ext IMAGE_EXTENSIONS /\
    endsWith (toLowerCase path) ("." ++ ext) = true /\
    lookup mimeTypes ext = Some (_getMimeType path) /\
    _getMimeType path <> "application/octet-stream".
Proof.
  intros H. destruct (image_mime_type path H) as [ext [Hin [He Hl]]].
  exists ext. split; [exact Hin |]. split; [exact He |]. split; [exact Hl |].
  intros E. rewrite E in Hl.
  unfold IMAGE_EXTENSIONS in Hin. cbn [In] in Hin.
  repeat (destruct Hin as [<- | Hin]; [discriminate Hl |]). destruct Hin.
Qed.

Lemma getMimeType_of_image_path_witness :
  _isImagePath "img/Photo.v2.JPG" = true /\
  lookup mimeTypes "jpg" = Some (_getMimeType "img/Photo.v2.JPG") /\
  _getMimeType "img/Photo.v2.JPG" <> "application/octet-stream".
Proof.
  destruct (getMimeType_of_image_path "img/Photo.v2.JPG" eq_refl)
    as [ext [_ [_ [_ H]]]].
  split; [reflexivity |]. split; [reflexivity | exact H].
Defined.

Module Base64Facts.

Lemma no_char_append (c : ascii) (a b : string) :
  no_char c (a ++ b) = no_char c a && no_char c b.
Proof.
  induction a as [|x a IH]; cbn; [reflexivity |].
  rewrite IH. now rewrite andb_assoc.
Qed.

Lemma no_dollar_no_char (s : string) : no_dollar s = no_char "$" s.
Proof. induction s as [|x s IH]; cbn; [reflexivity | now rewrite IH]. Qed.

Lemma digit_avoids (c : ascii) (n : N) :
  existsb (Ascii.eqb c) ("="%char :: base64_alphabet) = false ->
  no_char c (base64_digit n) = true.
Proof.
  intros H. unfold base64_digit. cbn [no_char]. rewrite andb_true_r.
  apply negb_true_iff.
  destruct (Ascii.eqb (nth (N.to_nat n) base64_alphabet "="%char) c) eqn:E;
    [| reflexivity].
  apply Ascii.eqb_eq in E. rewrite <- H. symmetry. apply existsb_exists.
  exists c. split; [| apply Ascii.eqb_refl].
  destruct (nth_in_or_default (N.to_nat n) base64_alphabet "="%char) as [Hin | Hd].
  - right. now rewrite <- E.
  - left. now rewrite <- E.
Qed.

(** Induction over the bytes, three at a time. *)
Lemma triples {P : bytes -> Prop} :
  P [] -> (forall x, P [x]) -> (forall x y, P [x; y]) ->
  (forall x y z rest, P rest -> P (x :: y :: z :: rest)) ->
  forall b, P b.
Proof.
  intros H0 H1 H2 H3.
  assert (H : forall b, P b /\ (forall x, P (x :: b)) /\ (forall x y, P (x :: y :: b))).
  { induction b as [|z b [IH0 [IH1 IH2]]].
    - split; [exact H0 |]. split; [exact H1 | exact H2].
    - split; [apply IH1 |]. split; [intros x; apply IH2 |]. intros x y. now apply H3. }
  intros b. apply H.
Qed.

Lemma encode_avoids (c : ascii) :
  existsb (Ascii.eqb c) ("="%char :: base64_alphabet) = false ->
  forall b, no_char c (base64_encode b) = true.
Proof.
  intros H.
  assert (Hc : Ascii.eqb "="%char c = false).
  { cbn [existsb] in H. apply orb_false_elim in H as [H _].
    rewrite Ascii.eqb_sym. exact H. }
  apply triples.
  - reflexivity.
  - intros x. cbn [base64_encode]. rewrite !no_char_append, !digit_avoids by exact H.
    cbn [no_char]. now rewrite Hc.
  - intros x y. cbn [base64_encode]. rewrite !no_char_append, !digit_avoids by exact H.
    cbn [no_char]. now rewrite Hc.
  - intros x y z rest IH. cbn [base64_encode].
    rewrite !no_char_append, !digit_avoids by exact H. now rewrite IH.
Qed.

Lemma encode_length (b : bytes) :
  String.length (base64_encode b) = (4 * ((List.length b + 2) / 3))%nat.
Proof.
  revert b. apply triples.
  - reflexivity.
  - reflexivity.
  - reflexivity.
  - intros x y z rest IH.
    cbn [base64_encode base64_digit append String.length List.length].
    rewrite IH.
    replace (S (S (S (List.length rest))) + 2)%nat
      with (List.length rest + 2 + 1 * 3)%nat by lia.
    rewrite Nat.div_add by discriminate. lia.
Qed.

Lemma mime_type_plain (ext : string) :
  no_dollar (lookup mimeTypes ext ?? "application/octet-stream") = true /\
  no_char (ascii_of_nat 34) (lookup mimeTypes ext ?? "application/octet-stream") = true.
Proof.
  unfold mimeTypes. cbn [lookup].
  repeat match goal with
  | |- context [String.eqb ?a ext] => destruct (String.eqb a ext)
  end; split; reflexivity.
Qed.

Lemma data_url_plain (filePath : string) (b : bytes) :
  no_dollar (data_url filePath b) = true /\
  no_char (ascii_of_nat 34) (data_url filePath b) = true.
Proof.
  unfold data_url, _uint8ArrayToBase64, _getMimeType.
  set (ext := option_map toLowerCase (pop (split filePath ".")) ?? "").
  destruct (mime_type_plain ext) as [Hd Hq]. split.
  - rewrite !ReplaceFacts.no_dollar_append, Hd.
    rewrite (no_dollar_no_char (base64_encode b)).
    rewrite encode_avoids by reflexivity. reflexivity.
  - rewrite !no_char_append, Hq.
    rewrite encode_avoids by reflexivity. reflexivity.
Qed.

End Base64Facts.

(** X17.  The data URL of an image is inert where it is put: it
    contains no double quote, so it cannot end the attribute it becomes
    the value of, and no dollar sign, so nothing in it is taken as a
    replacement pattern.  It is made of the type from the table and of
    the base64 text of the bytes, which has four characters for every
    three bytes or part of them. *)
Theorem data_url_is_inert (filePath : string) (b : bytes) :
  _isImagePath filePath = true ->
  no_char (ascii_of_nat 34) (data_url filePath b) = true /\
  no_dollar (data_url filePath b) = true /\
  String.length (_uint8ArrayToBase64 b) = (4 * ((List.length b + 2) / 3))%nat /\
  exists ext mime,
    In (ext, mime) mimeTypes /\
    data_url filePath b = "data:" ++ mime ++ ";base64," ++ _uint8ArrayToBase64 b.
Proof.
  intros H. destruct (Base64Facts.data_url_plain filePath b) as [Hd Hq].
  split; [exact Hq |]. split; [exact Hd |].
  split; [apply Base64Facts.encode_length |].
  destruct (image_mime_type filePath H) as [ext [Hin [_ Hl]]].
  exists ext, (_getMimeType filePath). split; [| reflexivity].
  unfold IMAGE_EXTENSIONS in Hin. cbn [In] in Hin.
  repeat (destruct Hin as [<- | Hin];
          [injection Hl as <-; unfold mimeTypes; cbn [In]; tauto |]).
  destruct Hin.
Qed.

Lemma data_url_is_inert_witness :
  data_url "img/a.png" [Byte.x4d; Byte.x61; Byte.x6e; Byte.x21]
  = "data:image/png;base64,TWFuIQ==" /\
  no_char (ascii_of_nat 34)
    (data_url "img/a.png" [Byte.x4d; Byte.x61; Byte.x6e; Byte.x21]) = true /\
  String.length (_uint8ArrayToBase64 [Byte.x4d; Byte.x61; Byte.x6e; Byte.x21])
  = 8%nat.
Proof.
  destruct (data_url_is_inert "img/a.png" [Byte.x4d; Byte.x61; Byte.x6e; Byte.x21]
              eq_refl) as [Hq [_ [Hl _]]].
  split; [reflexivity |]. split; [exact Hq | exact Hl].
Defined.

(* ===================================================================== *)
(** * The loops of the inliner *)
(* ===================================================================== *)

Module PatternForms.
Import RegExp.

(** The regular expressions that the patterns of the two loops stand
    for. *)
Lemma link_pattern_regexp (name : string) :
  RegExp_new (link_pattern (_escapeRegex name)) "gi" = Some (link_regexp name).
Proof.
  rewrite PatternFacts.escapeRegex_spec. unfold RegExp_new, link_pattern.
  rewrite PatternFacts.tokenize_link_prefix, PatternFacts.tokenize_escaped.
  change (tokenize Normal false ("[" ++ dquote ++ "'][^>]*>")) with (Some LINK_POST).
  cbn [option_map parse_flags Ascii.eqb Bool.eqb].
  rewrite PatternFacts.build_link_prefix, PatternFacts.build_literal.
  unfold LINK_POST. cbn [build]. rewrite PatternFacts.star_last_add_term. cbn [build].
  unfold link_regexp, close_frame, add_term, add_terms, QUOTE.
  cbn [index alternatives terms Nat.pred app alt_of].
  rewrite <- !app_assoc. reflexivity.
Qed.

Lemma src_pattern_regexp (name : string) :
  RegExp_new (src_pattern (_escapeRegex name)) "gi" = Some (src_regexp name).
Proof.
  rewrite PatternFacts.escapeRegex_spec. unfold RegExp_new, src_pattern.
  rewrite PatternFacts.tokenize_src_prefix, PatternFacts.tokenize_escaped.
  change (tokenize Normal false (")[" ++ dquote ++ "']")) with (Some SRC_POST).
  cbn [option_map parse_flags Ascii.eqb Bool.eqb].
  rewrite PatternFacts.build_src_prefix, PatternFacts.build_literal.
  unfold SRC_POST. cbn [build].
  unfold src_regexp, close_frame, add_term, add_terms, QUOTE.
  cbn [index alternatives terms Nat.pred app alt_of SRC_FRAME].
  rewrite <- ?app_assoc. reflexivity.
Qed.

End PatternForms.

Module SubstFacts.
Import RegExp.

Section Independent.
Variables (re : regexp) (template : string) (expand : captures -> string).
Hypothesis independent :
  forall matched before after caps,
    GetSubstitution matched before after caps template = expand caps.

Lemma replace_from_passes (u rest : string) :
  forall before,
    replace_from re template before (String.length u) (u ++ rest)
    = replace_from re template (before ++ u) 0 rest.
Proof.
  induction u as [|x u IH]; intros before.
  - cbn [String.length append]. rewrite append_nil_r.
    destruct rest; reflexivity.
  - cbn [String.length append replace_from]. rewrite IH.
    now rewrite append_assoc.
Qed.

Lemma replace_from_anywhere (s : string) :
  forall n b1 b2,
    replace_from re template b1 n s = replace_from re template b2 n s.
Proof.
  induction s as [|x s IH]; intros n b1 b2.
  - destruct n; cbn [replace_from]; [| reflexivity].
    destruct (match_at re "") as [[rest caps]|]; [| reflexivity].
    now rewrite !independent.
  - destruct n; cbn [replace_from].
    + destruct (match_at re (String x s)) as [[rest caps]|].
      * rewrite !independent.
        destruct (String.length (consumed (String x s) rest));
          f_equal; [f_equal |]; apply IH.
      * f_equal. apply IH.
    + apply IH.
Qed.

Hypothesis nonempty :
  forall s rest caps, match_at re s = Some (rest, caps) -> consumed s rest <> "".

(** The leftmost match is replaced by the expansion of the template
    for its captures, and what follows it is treated in the same way. *)
Lemma replace_from_leftmost (s : string) :
  forall pre m post before,
    search re s = Some (pre, m, post) ->
    exists caps,
      match_at re (m ++ post) = Some (post, caps) /\
      replace_from re template before 0 s
      = pre ++ expand caps ++ replace_from re template "" 0 post.
Proof.
  induction s as [|x s IH]; intros pre m post before.
  - cbn [search]. destruct (match_at re "") as [[rest caps]|] eqn:E; [| discriminate].
    exfalso. apply (nonempty _ _ _ E). reflexivity.
  - cbn [search replace_from].
    destruct (match_at re (String x s)) as [[rest caps]|] eqn:E.
    + intros H. injection H as <- <- <-. exists caps.
      pose proof (nonempty _ _ _ E) as Hne.
      pose proof (consumed_spec _ _ (RegExpFacts.match_at_suffix _ _ _ _ E)) as Hs.
      split; [now rewrite <- Hs |].
      rewrite independent. cbn [append].
      destruct (consumed (String x s) rest) as [|y m'] eqn:Em; [now destruct Hne |].
      cbn [append] in Hs. injection Hs as <- ->.
      cbn [String.length]. rewrite replace_from_passes.
      f_equal. apply replace_from_anywhere.
    + destruct (search re s) as [[[pre' m'] post']|] eqn:Es; [| discriminate].
      intros H. injection H as <- <- <-.
      destruct (IH pre' m' post' (before ++ String x "") eq_refl) as [caps [Hm Hr]].
      exists caps. split; [exact Hm |]. cbn [append]. f_equal. exact Hr.
Qed.
End Independent.

Lemma substitution_of_first_capture (matched before after : string)
      (caps : captures) (rest : string) :
  GetSubstitution matched before after caps
    (String "$" (String "1" (String "=" rest)))
  = if is_capture caps 1
    then capture_text caps 1
         ++ String "=" (GetSubstitution matched before after caps rest)
    else String "$" (String "1" (String "="
           (GetSubstitution matched before after caps rest))).
Proof. reflexivity. Qed.

End SubstFacts.

Module CssLoopFacts.

(** One style sheet of the first loop. *)
Lemma css_step (filePath css s : string) :
  endsWith filePath ".css" = true ->
  filePath <> "theme.css" ->
  inline_css [(filePath, Text css)] s
  = Return (RegExp.replace s (link_regexp (basename filePath)) (style_tag css)).
Proof.
  intros He Hn. cbn [inline_css]. rewrite He.
  apply String.eqb_neq in Hn. rewrite Hn. cbn [negb andb].
  fold (basename filePath). now rewrite PatternForms.link_pattern_regexp.
Qed.

Lemma css_leftmost (filePath css html : string) :
  endsWith filePath ".css" = true ->
  filePath <> "theme.css" ->
  no_dollar css = true ->
  match RegExp.search (link_regexp (basename filePath)) html with
  | None => inline_css [(filePath, Text css)] html = Return html
  | Some (before, tag, after) =>
      html = before ++ tag ++ after /\
      exists rest,
        inline_css [(filePath, Text css)] after = Return rest /\
        inline_css [(filePath, Text css)] html
        = Return (before ++ style_tag css ++ rest)
  end.
Proof.
  intros He Hn Hplain.
  assert (Htag : no_dollar (style_tag css) = true).
  { unfold style_tag. rewrite !ReplaceFacts.no_dollar_append, Hplain. reflexivity. }
  destruct (RegExp.search (link_regexp (basename filePath)) html)
    as [[[before tag] after]|] eqn:Es.
  - split; [now apply ReplaceFacts.search_parts with (link_regexp (basename filePath)) |].
    eexists. split; [now apply css_step |]. rewrite css_step by assumption. f_equal.
    unfold RegExp.replace. cbn [RegExp.global link_regexp].
    apply ReplaceFacts.replace_from_search with tag; try assumption.
    eapply ReplaceFacts.starts_with_character. reflexivity.
  - rewrite css_step by assumption. f_equal. apply RegExpFacts.replace_no_match.
    now apply ReplaceFacts.test_search.
Qed.

End CssLoopFacts.

(** X18.  The first loop, for one style sheet: a text entry whose path
    ends in .css and is not theme.css, with a text without [$].  The
    pattern made from its file name is a regular expression; where it
    matches nothing the document stays as it is; otherwise the leftmost
    link tag it matches is replaced by the style block around the style
    sheet as it is, and the text after the tag is treated in the same
    way, so that every such tag is replaced.  An empty style sheet
    counts here, other than for theme.css. *)
Theorem inline_css_replaces_every_link (filePath css html : string) :
  endsWith filePath ".css" = true ->
  filePath <> "theme.css" ->
  no_dollar css = true ->
  exists re,
    RegExp.RegExp_new (link_pattern (_escapeRegex (basename filePath))) "gi" = Some re /\
    match RegExp.search re html with
    | None => inline_css [(filePath, Text css)] html = Return html
    | Some (before, tag, after) =>
        html = before ++ tag ++ after /\
        exists rest,
          inline_css [(filePath, Text css)] after = Return rest /\
          inline_css [(filePath, Text css)] html
          = Return (before ++ style_tag css ++ rest)
    end.
Proof.
  intros He Hn Hplain. exists (link_regexp (basename filePath)).
  split; [apply PatternForms.link_pattern_regexp |].
  now apply CssLoopFacts.css_leftmost.
Qed.

Lemma inline_css_replaces_every_link_witness :
  inline_css [("css/a.css", Text "p{}")]
    "<LINK rel='stylesheet' href='x/a.css'><p><link href='a.css'>"
  = Return (style_tag "p{}" ++ "<p>" ++ style_tag "p{}").
Proof.
  destruct (inline_css_replaces_every_link "css/a.css" "p{}"
              "<LINK rel='stylesheet' href='x/a.css'><p><link href='a.css'>"
              eq_refl ltac:(discriminate) eq_refl) as [re [Hre H]].
  vm_compute in Hre. injection Hre as <-.
  match type of H with
  | match ?x with _ => _ end =>
      assert (Es : x = Some ("", "<LINK rel='stylesheet' href='x/a.css'>",
                             "<p><link href='a.css'>"))
        by (vm_compute; reflexivity);
      rewrite Es in H
  end.
  destruct H as [_ [rest [Hr H]]]. rewrite H.
  vm_compute in Hr. injection Hr as <-. reflexivity.
Defined.

Module CaptureFacts.
Import RegExp.

Section Invariant.
Variable I : captures -> Prop.
Hypothesis set_keeps : forall n v c, n <> 1%nat -> I c -> I (set_capture n v c).

(** What holds of the captures, and is kept by setting a group other
    than the first, is kept by a match without the first group. *)
Lemma match_node_keeps (i : bool) (r : node) :
  no_group_1 r = true ->
  forall k : continuation,
    (forall s c res, I c -> k s c = Some res -> I (snd res)) ->
    forall s c res, I c -> match_node i r k s c = Some res -> I (snd res).
Proof.
  induction r as [| cs | cs | r1 IH1 r2 IH2 | r1 IH1 r2 IH2 | n r IH |];
    intros Hr k Hk s c res Hc; cbn [match_node no_group_1] in *.
  - apply Hk, Hc.
  - destruct s as [|x s]; [discriminate |].
    destruct (charset_matches i cs x); [apply Hk, Hc | discriminate].
  - intros H. apply RegExpFacts.match_star_suffix in H as [s' [_ H]].
    now apply Hk with s' c.
  - apply andb_prop in Hr as [H1 H2].
    apply (IH1 H1 (match_node i r2 k)); [| exact Hc].
    intros s' c' res' Hc'. now apply (IH2 H2 k Hk).
  - apply andb_prop in Hr as [H1 H2].
    destruct (match_node i r1 k s c) as [r|] eqn:E.
    + intros H. injection H as <-. now apply (IH1 H1 k Hk s c).
    + now apply (IH2 H2 k Hk).
  - apply andb_prop in Hr as [Hn Hr]. apply negb_true_iff, Nat.eqb_neq in Hn.
    apply (IH Hr); [| exact Hc].
    intros s' c' res' Hc'. apply Hk. now apply set_keeps.
  - destruct s; [apply Hk, Hc | discriminate].
Qed.
End Invariant.

Lemma no_group_1_seq_of (l : list node) :
  no_group_1 (seq_of l) = forallb no_group_1 l.
Proof.
  unfold seq_of. induction l as [|r l IH]; cbn [fold_right no_group_1 forallb];
    [reflexivity | now rewrite IH].
Qed.

Lemma no_group_1_literal (name : string) :
  forallb no_group_1 (literal_terms name) = true.
Proof.
  unfold literal_terms. induction (list_ascii_of_string name) as [|c l IH];
    [reflexivity | exact IH].
Qed.

(** The first capture stays what it is when a later group is set. *)
Lemma set_later_capture (attr : string) (n : nat) (v : string) (c : captures) :
  n <> 1%nat ->
  (exists x, c = [Some attr; x]) ->
  exists x, set_capture n v c = [Some attr; x].
Proof.
  intros Hn [x ->]. destruct n as [|[|[|n]]].
  - now exists x.
  - now destruct Hn.
  - now exists (Some v).
  - exists x. cbn. now destruct n.
Qed.

Lemma strip_prefix_split (i : bool) (w : string) :
  forall s s1,
    strip_prefix i w s = Some s1 ->
    exists attr, s = attr ++ s1 /\ strip_prefix i w attr = Some "".
Proof.
  induction w as [|a w IH]; intros s s1; cbn [strip_prefix].
  - intros H. injection H as <-. now exists "".
  - destruct s as [|b s]; [discriminate |].
    destruct (Ascii.eqb (canonicalize i a) (canonicalize i b)) eqn:E; [| discriminate].
    intros H. destruct (IH s s1 H) as [attr [-> Ha]].
    exists (String b attr). split; [reflexivity |].
    cbn [strip_prefix]. now rewrite E.
Qed.

(** A match of the pattern of the second loop starts with src or href,
    in any letter case, and an equals sign; the first capture is that
    attribute name as it is written. *)
Lemma src_match (name s rest : string) (caps : captures) :
  match_at (src_regexp name) s = Some (rest, caps) ->
  exists attr tail value,
    consumed s rest = attr ++ "=" ++ tail /\
    (toLowerCase attr = "src" \/ toLowerCase attr = "href") /\
    caps = [Some attr; value].
Proof.
  unfold match_at.
  change (source (src_regexp name))
    with (Seq (Group 1 (alt_of (seq_of (literal_terms "src"))
                          [seq_of (literal_terms "href")]))
            (Seq (One (Lit "="))
               (seq_of [One QUOTE;
                        Group 2 (seq_of (terms SRC_FRAME ++ literal_terms name));
                        One QUOTE]))).
  change (ignoreCase (src_regexp name)) with true.
  change (repeat None (groups (src_regexp name))) with [@None string; None].
  set (R := seq_of [One QUOTE;
                    Group 2 (seq_of (terms SRC_FRAME ++ literal_terms name));
                    One QUOTE]).
  assert (HR : no_group_1 R = true).
  { subst R. rewrite no_group_1_seq_of. cbn [forallb no_group_1 Nat.eqb negb andb QUOTE].
    rewrite no_group_1_seq_of, forallb_app, no_group_1_literal. reflexivity. }
  cbn [match_node alt_of]. rewrite !LiteralFacts.match_literal.
  assert (K : forall w s1 res,
             lower_only w = true ->
             strip_prefix true w s = Some s1 ->
             match s1 with
             | "" => None
             | String x s' =>
                 if charset_matches true (Lit "=") x
                 then match_node true R (fun s'0 c' => Some (s'0, c')) s'
                        (set_capture 1 (consumed s s1) [None; None])
                 else None
             end = Some res ->
             exists attr tail value,
               consumed s (fst res) = attr ++ "=" ++ tail /\
               toLowerCase attr = w /\ snd res = [Some attr; value]).
  { intros w s1 res Hw Hs H.
    destruct (strip_prefix_split _ _ _ _ Hs) as [attr [-> Ha]].
    rewrite consumed_append in H.
    destruct s1 as [|x s']; [discriminate H |].
    rewrite CaseFacts.equals_sign in H.
    destruct (Ascii.eqb "=" x) eqn:Ex; [| discriminate H].
    apply Ascii.eqb_eq in Ex. subst x. cbn [set_capture] in H.
    pose proof (RegExpFacts.match_node_suffix _ _ _ _ _ _ H) as [s2 [c2 [[tail ->] Hk]]].
    assert (Hcaps : exists value, snd res = [Some attr; value]).
    { apply (match_node_keeps (fun c => exists x, c = [Some attr; x])
               (set_later_capture attr) true R HR
               (fun s'0 c' => Some (s'0, c'))) with (3 := H).
      - intros s0 c0 res0 Hc0 E. injection E as <-. exact Hc0.
      - now exists None. }
    destruct Hcaps as [value Hv]. injection Hk as <-. cbn [fst].
    exists attr, tail, value. split.
    - change (attr ++ String "=" (tail ++ s2)) with (attr ++ ("=" ++ tail) ++ s2).
      rewrite <- append_assoc. rewrite consumed_append. reflexivity.
    - split; [| exact Hv].
      pose proof (CaseFacts.strip_all_ci w Hw attr) as E. rewrite Ha in E.
      symmetry in E. apply String.eqb_eq in E. now symmetry. }
  destruct (strip_prefix true "src" s) as [s1|] eqn:E1.
  - destruct (match s1 with "" => None | String _ _ => _ end) as [res|] eqn:E.
    + intros H. injection H as ->.
      destruct (K "src" s1 _ eq_refl E1 E) as [attr [tail [value [H1 [H2 H3]]]]].
      exists attr, tail, value. cbn [fst snd] in *. auto.
    + destruct (strip_prefix true "href" s) as [s2|] eqn:E2; [| discriminate].
      intros H.
      destruct (K "href" s2 _ eq_refl E2 H) as [attr [tail [value [H1 [H2 H3]]]]].
      exists attr, tail, value. cbn [fst snd] in *. auto.
  - destruct (strip_prefix true "href" s) as [s2|] eqn:E2; [| discriminate].
    intros H.
    destruct (K "href" s2 _ eq_refl E2 H) as [attr [tail [value [H1 [H2 H3]]]]].
    exists attr, tail, value. cbn [fst snd] in *. auto.
Qed.

End CaptureFacts.

Module ImageLoopFacts.

(** One image of the second loop. *)
Lemma image_leftmost (filePath : string) (b : bytes) (html : string) :
  _isImagePath filePath = true ->
  match RegExp.search (src_regexp (basename filePath)) html with
  | None => inline_images [(filePath, Binary b)] html = Return html
  | Some (before, reference, after) =>
      html = before ++ reference ++ after /\
      exists attr tail rest,
        reference = attr ++ "=" ++ tail /\
        (toLowerCase attr = "src" \/ toLowerCase attr = "href") /\
        inline_images [(filePath, Binary b)] after = Return rest /\
        inline_images [(filePath, Binary b)] html
        = Return (before ++ attr ++ "=" ++ dquote ++ data_url filePath b ++ dquote
                  ++ rest)
  end.
Proof.
  intros Hi. set (re := src_regexp (basename filePath)).
  set (template := data_url_template filePath b).
  set (plain := dquote ++ data_url filePath b ++ dquote).
  set (expand := fun caps : RegExp.captures =>
                   if RegExp.is_capture caps 1
                   then RegExp.capture_text caps 1 ++ String "=" plain
                   else String "$" (String "1" (String "=" plain))).
  assert (Hplain : no_dollar plain = true).
  { subst plain. rewrite !ReplaceFacts.no_dollar_append.
    now rewrite (proj1 (Base64Facts.data_url_plain filePath b)). }
  assert (Hind : forall matched before after caps,
            RegExp.GetSubstitution matched before after caps template = expand caps).
  { intros matched before after caps. subst template expand. cbv beta.
    change (data_url_template filePath b)
      with (String "$" (String "1" (String "=" plain))).
    rewrite SubstFacts.substitution_of_first_capture.
    now rewrite (ReplaceFacts.GetSubstitution_plain _ _ _ _ plain Hplain). }
  assert (Hstep : forall s,
            inline_images [(filePath, Binary b)] s
            = Return (RegExp.replace s re template)).
  { intros s. cbn [inline_images]. rewrite Hi.
    fold (basename filePath). now rewrite PatternForms.src_pattern_regexp. }
  assert (Hne : forall s rest caps,
            RegExp.match_at re s = Some (rest, caps) -> RegExp.consumed s rest <> "").
  { intros s rest caps H.
    destruct (CaptureFacts.src_match _ _ _ _ H) as [attr [tail [value [E [Ha _]]]]].
    rewrite E. destruct attr; [destruct Ha; discriminate | discriminate]. }
  destruct (RegExp.search re html) as [[[before reference] after]|] eqn:Es.
  - split; [now apply ReplaceFacts.search_parts with re |].
    destruct (SubstFacts.replace_from_leftmost re template expand Hind Hne html
                before reference after "" Es) as [caps [Hm Hr]].
    destruct (CaptureFacts.src_match _ _ _ _ Hm) as [attr [tail [value [E [Ha Hc]]]]].
    rewrite consumed_append in E.
    exists attr, tail. eexists. split; [exact E |]. split; [exact Ha |].
    split; [apply Hstep |]. rewrite Hstep. f_equal.
    unfold RegExp.replace. change (RegExp.global re) with true. cbv iota.
    rewrite Hr. f_equal. subst expand. cbv beta. rewrite Hc.
    cbn [RegExp.is_capture RegExp.capture_text List.length Nat.leb andb nth_error
         Nat.sub].
    subst plain. rewrite append_assoc. f_equal.
    change (String "=" ?x ++ ?y) with (String "=" (x ++ y)).
    change ("=" ++ ?x) with (String "=" x). f_equal.
    now rewrite !append_assoc.
  - rewrite Hstep. f_equal. apply RegExpFacts.replace_no_match.
    now apply ReplaceFacts.test_search.
Qed.

End ImageLoopFacts.

(** X19.  The second loop, for one image: a binary entry whose path
    [_isImagePath] accepts.  The pattern made from its file name is a
    regular expression; where it matches nothing the document stays as
    it is; otherwise the leftmost attribute it matches, which starts
    with src or href in any letter case and an equals sign, is replaced
    by the attribute name as it is written, an equals sign and the data
    URL of the image between double quotes, and the text after it is
    treated in the same way.  The data URL arrives as it is: the
    replacement pattern of the template is the attribute name and
    nothing in the URL is taken for one. *)
Theorem inline_image_replaces_every_reference
        (filePath : string) (b : bytes) (html : string) :
  _isImagePath filePath = true ->
  exists re,
    RegExp.RegExp_new (src_pattern (_escapeRegex (basename filePath))) "gi" = Some re /\
    match RegExp.search re html with
    | None => inline_images [(filePath, Binary b)] html = Return html
    | Some (before, reference, after) =>
        html = before ++ reference ++ after /\
        exists attr tail rest,
          reference = attr ++ "=" ++ tail /\
          (toLowerCase attr = "src" \/ toLowerCase attr = "href") /\
          inline_images [(filePath, Binary b)] after = Return rest /\
          inline_images [(filePath, Binary b)] html
          = Return (before ++ attr ++ "=" ++ dquote ++ data_url filePath b ++ dquote
                    ++ rest)
    end.
Proof.
  intros Hi. exists (src_regexp (basename filePath)).
  split; [apply PatternForms.src_pattern_regexp |].
  now apply ImageLoopFacts.image_leftmost.
Qed.

Lemma inline_image_replaces_every_reference_witness :
  inline_images [("img/a.png", Binary [Byte.x4d; Byte.x61; Byte.x6e])]
    "<img SRC='../img/a.png'><a href='a.png'>"
  = Return ("<img SRC=" ++ dquote ++ "data:image/png;base64,TWFu" ++ dquote
            ++ "><a href=" ++ dquote ++ "data:image/png;base64,TWFu" ++ dquote
            ++ ">").
Proof.
  destruct (inline_image_replaces_every_reference "img/a.png"
              [Byte.x4d; Byte.x61; Byte.x6e]
              "<img SRC='../img/a.png'><a href='a.png'>" eq_refl) as [re [Hre H]].
  vm_compute in Hre. injection Hre as <-.
  match type of H with
  | match ?x with _ => _ end =>
      assert (Es : x = Some ("<img ", "SRC='../img/a.png'", "><a href='a.png'>"))
        by (vm_compute; reflexivity);
      rewrite Es in H
  end.
  destruct H as [_ [attr [tail [rest [Ht [Ha [Hr H]]]]]]]. rewrite H.
  vm_compute in Hr. injection Hr as <-.
  assert (Ea : attr = "SRC").
  { destruct Ha as [Ha | Ha];
      destruct attr as [|a1 [|a2 [|a3 [|a4 [|a5 attr]]]]]; try discriminate Ha;
      cbn [append] in Ht; inversion Ht; reflexivity. }
  subst attr. reflexivity.
Defined.

Lemma files_get_qualifying (files : FileSet) :
  files_get (filter qualifies files) "theme.css" = files_get files "theme.css".
Proof.
  induction files as [|[k v] rest IH]; [reflexivity |].
  cbn [filter files_get]. unfold qualifies at 1. cbn [fst snd].
  destruct (String.eqb k "theme.css") eqn:E.
  - cbn [orb files_get]. now rewrite E.
  - cbn [orb]. destruct (is_css_entry k v || is_image_entry k v);
      cbn [files_get]; rewrite ?E; exact IH.
Qed.

Lemma inline_css_qualifying (files : FileSet) :
  forall s, inline_css (filter qualifies files) s = inline_css files s.
Proof.
  induction files as [|[k v] rest IH]; intros s; [reflexivity |].
  cbn [filter inline_css]. unfold qualifies at 1. cbn [fst snd].
  destruct v as [css|b]; cbn [is_css_entry is_image_entry].
  - destruct (String.eqb k "theme.css") eqn:T, (endsWith k ".css") eqn:W;
      cbn [negb andb orb inline_css]; rewrite ?T, ?W; cbn [negb andb];
      try apply IH.
    destruct (RegExp.RegExp_new _ "gi"); [apply IH | reflexivity].
  - destruct (String.eqb k "theme.css" || false || _isImagePath k);
      cbn [inline_css]; apply IH.
Qed.

Lemma inline_images_qualifying (files : FileSet) :
  forall s, inline_images (filter qualifies files) s = inline_images files s.
Proof.
  induction files as [|[k v] rest IH]; intros s; [reflexivity |].
  cbn [filter inline_images]. unfold qualifies at 1. cbn [fst snd].
  destruct v as [css|b]; cbn [is_css_entry is_image_entry].
  - destruct (String.eqb k "theme.css"
              || endsWith k ".css" && negb (String.eqb k "theme.css") || false);
      cbn [inline_images]; apply IH.
  - destruct (String.eqb k "theme.css") eqn:T, (_isImagePath k) eqn:W;
      cbn [negb andb orb inline_images]; rewrite ?W; try apply IH.
    all: destruct (RegExp.RegExp_new _ "gi"); [apply IH | reflexivity].
Qed.

(** X20.  The inliner uses of the file set the entries named
    theme.css, the text entries that end in .css and the binary
    entries with an image extension, and no others: without the other
    entries the result is the same.  So an image given as text, an SVG
    for one, is not embedded, nor is a style sheet given as bytes or
    one whose extension is not in lower case. *)
Theorem inliner_reads_qualifying_entries (html : string) (files : FileSet) :
  _inlineResources html files = _inlineResources html (filter qualifies files).
Proof.
  unfold _inlineResources, inline_theme.
  rewrite files_get_qualifying, inline_css_qualifying.
  destruct (inline_css files _); [| reflexivity].
  now rewrite inline_images_qualifying.
Qed.

(* ===================================================================== *)
(** * Tags and references that the inliner finds *)
(* ===================================================================== *)

Module FindFacts.
Import RegExp.

(** The star can stop after any run of characters of its set, if the
    continuation succeeds there; it may stop later. *)
Lemma star_some (i : bool) (cs : charset) (k : continuation) (u s : string)
      (c : captures) :
  all_match i cs u = true ->
  is_some (k s c) = true ->
  is_some (match_star i cs k (u ++ s) c) = true.
Proof.
  induction u as [|x u IH]; intros Hu Hk.
  - cbn [append]. destruct s as [|y s]; cbn [match_star]; [exact Hk |].
    destruct (charset_matches i cs y); [| exact Hk].
    destruct (match_star i cs k s c); [reflexivity | exact Hk].
  - cbn [all_match] in Hu. apply andb_prop in Hu as [Hx Hu].
    cbn [append match_star]. rewrite Hx.
    specialize (IH Hu Hk). destruct (match_star i cs k (u ++ s) c);
      [reflexivity | discriminate IH].
Qed.

Lemma match_literal_then (i : bool) (name : string) (r : node) :
  forall (k : continuation) (s : string) (c : captures),
    match_node i (fold_right Seq r (literal_terms name)) k s c
    = match strip_prefix i name s with
      | Some rest => match_node i r k rest c
      | None => None
      end.
Proof.
  induction name as [|a name IH]; intros k s c; [reflexivity |].
  change (fold_right Seq r (literal_terms (String a name)))
    with (Seq (One (Lit a)) (fold_right Seq r (literal_terms name))).
  cbn [match_node strip_prefix charset_matches].
  destruct s as [|b s]; [reflexivity |].
  destruct (Ascii.eqb (canonicalize i a) (canonicalize i b)); [apply IH | reflexivity].
Qed.

Lemma strip_prefix_self (i : bool) (name rest : string) :
  strip_prefix i name (name ++ rest) = Some rest.
Proof.
  induction name as [|a name IH]; [reflexivity |].
  cbn [append strip_prefix]. now rewrite Ascii.eqb_refl.
Qed.

Lemma not_gt_checked :
  forallb (fun c =>
     Bool.eqb (charset_matches true (Class true [">"%char]) c)
              (negb (Ascii.eqb c ">"))
     && Bool.eqb (charset_matches true (Class true [ascii_of_nat 34; "'"%char]) c)
                 (negb (is_quote c))
     && Bool.eqb (charset_matches true (Class false [ascii_of_nat 34; "'"%char]) c)
                 (is_quote c))
    code_units = true.
Proof. vm_compute. reflexivity. Qed.

Lemma class_not_gt (c : ascii) :
  charset_matches true (Class true [">"%char]) c = negb (Ascii.eqb c ">").
Proof.
  pose proof not_gt_checked as H. rewrite forallb_forall in H.
  specialize (H c (CaseFacts.code_units_complete c)).
  apply andb_prop in H as [H _]. apply andb_prop in H as [H _].
  now apply Bool.eqb_prop in H.
Qed.

Lemma class_not_quote (c : ascii) :
  charset_matches true (Class true [ascii_of_nat 34; "'"%char]) c = negb (is_quote c).
Proof.
  pose proof not_gt_checked as H. rewrite forallb_forall in H.
  specialize (H c (CaseFacts.code_units_complete c)).
  apply andb_prop in H as [H _]. apply andb_prop in H as [_ H].
  now apply Bool.eqb_prop in H.
Qed.

Lemma class_quote (c : ascii) :
  charset_matches true QUOTE c = is_quote c.
Proof.
  pose proof not_gt_checked as H. rewrite forallb_forall in H.
  specialize (H c (CaseFacts.code_units_complete c)).
  apply andb_prop in H as [_ H]. now apply Bool.eqb_prop in H.
Qed.

End FindFacts.

Module ShapeFacts.
Import RegExp.

Lemma search_at (re : regexp) (s rest : string) (caps : captures) :
  match_at re s = Some (rest, caps) ->
  forall pre,
    none_starts re pre s = true ->
    search re (pre ++ s) = Some (pre, consumed s rest, rest).
Proof.
  intros Hm. induction pre as [|x pre IH]; intros Hn.
  - cbn [append]. destruct s; cbn [search]; now rewrite Hm.
  - cbn [none_starts] in Hn. apply andb_prop in Hn as [Hx Hn].
    cbn [append] in *. cbn [search].
    destruct (match_at re (String x (pre ++ s))); [discriminate Hx |].
    now rewrite (IH Hn).
Qed.

(** What the star leaves to its continuation follows a run of
    characters of its set. *)
Lemma star_shape (i : bool) (cs : charset) (k : continuation) (c : captures)
      (r : string * captures) :
  forall s,
    match_star i cs k s c = Some r ->
    exists u s', s = u ++ s' /\ all_match i cs u = true /\ k s' c = Some r.
Proof.
  induction s as [|x s IH]; cbn [match_star]; intros H.
  - exists "", "". auto.
  - destruct (charset_matches i cs x) eqn:Ex.
    + destruct (match_star i cs k s c) as [r'|] eqn:E.
      * injection H as ->. destruct (IH eq_refl) as [u [s' [-> [Hu Hk]]]].
        exists (String x u), s'. cbn [all_match append]. rewrite Ex. auto.
      * exists "", (String x s). auto.
    + exists "", (String x s). auto.
Qed.

Lemma quote_checked :
  forallb (fun c => Bool.eqb (is_quote (canonicalize true c)) (is_quote c)
                    && Bool.eqb (Ascii.eqb (canonicalize true c) ">") (Ascii.eqb c ">"))
    code_units = true.
Proof. vm_compute. reflexivity. Qed.

Lemma is_quote_canonical (c : ascii) :
  is_quote (canonicalize true c) = is_quote c.
Proof.
  pose proof quote_checked as H. rewrite forallb_forall in H.
  specialize (H c (CaseFacts.code_units_complete c)).
  apply andb_prop in H as [H _]. now apply Bool.eqb_prop in H.
Qed.

Lemma is_gt_canonical (c : ascii) :
  Ascii.eqb (canonicalize true c) ">" = Ascii.eqb c ">".
Proof.
  pose proof quote_checked as H. rewrite forallb_forall in H.
  specialize (H c (CaseFacts.code_units_complete c)).
  apply andb_prop in H as [_ H]. now apply Bool.eqb_prop in H.
Qed.

(** A text that matches a literal without quotes, in any letter case,
    has no quotes. *)
Lemma strip_prefix_no_quote (w : string) :
  forall s s1,
    no_quote w = true ->
    strip_prefix true w s = Some s1 ->
    exists a, s = a ++ s1 /\ no_quote a = true.
Proof.
  induction w as [|x w IH]; intros s s1 Hw; cbn [strip_prefix].
  - intros H. injection H as <-. now exists "".
  - destruct s as [|y s]; [discriminate |].
    destruct (Ascii.eqb (canonicalize true x) (canonicalize true y)) eqn:E;
      [| discriminate].
    cbn [no_quote] in Hw. apply andb_prop in Hw as [Hx Hw].
    intros H. destruct (IH s s1 Hw H) as [a [-> Ha]].
    exists (String y a). split; [reflexivity |]. cbn [no_quote]. rewrite Ha.
    apply Ascii.eqb_eq in E.
    rewrite <- (is_quote_canonical y), <- E, is_quote_canonical, Hx. reflexivity.
Qed.

Lemma no_quote_append (a b : string) :
  no_quote (a ++ b) = no_quote a && no_quote b.
Proof.
  induction a as [|x a IH]; [reflexivity |].
  cbn [append no_quote]. now rewrite IH, andb_assoc.
Qed.

(** The first quote of a text is where it is. *)
Lemma first_quote (a : string) :
  forall a' q q' r r',
    no_quote a = true -> no_quote a' = true ->
    is_quote q = true -> is_quote q' = true ->
    a ++ String q r = a' ++ String q' r' ->
    a = a' /\ q = q' /\ r = r'.
Proof.
  induction a as [|x a IH]; intros a' q q' r r' Ha Ha' Hq Hq' E.
  - destruct a' as [|y a']; cbn [append] in E.
    + injection E as -> ->. auto.
    + injection E as -> _. cbn [no_quote] in Ha'. now rewrite Hq in Ha'.
  - destruct a' as [|y a']; cbn [append] in E.
    + injection E as -> _. cbn [no_quote] in Ha. now rewrite Hq' in Ha.
    + injection E as -> E. cbn [no_quote] in Ha, Ha'.
      apply andb_prop in Ha as [_ Ha]. apply andb_prop in Ha' as [_ Ha'].
      destruct (IH a' q q' r r' Ha Ha' Hq Hq' E) as [-> [-> ->]]. auto.
Qed.

Lemma all_not_quote (u : string) :
  all_match true (Class true [ascii_of_nat 34; "'"%char]) u = no_quote u.
Proof.
  induction u as [|x u IH]; [reflexivity |].
  cbn [no_quote all_match]. now rewrite FindFacts.class_not_quote, IH.
Qed.

(** The value of a quoted attribute that ends in the file name: the
    star and the name match up to the first quote and nowhere else,
    when what follows them has to start with a quote. *)
Lemma value_match (name dir post : string) (q2 : ascii) (k : continuation)
      (c : captures) (r : string * captures) :
  no_quote dir = true -> no_quote name = true -> is_quote q2 = true ->
  (forall s c' r', k s c' = Some r' ->
                   exists x s', s = String x s' /\ is_quote x = true) ->
  match_star true (Class true [ascii_of_nat 34; "'"%char])
    (match_node true (seq_of (literal_terms name)) k)
    (dir ++ name ++ String q2 post) c = Some r ->
  k (String q2 post) c = Some r.
Proof.
  intros Hd Hn Hq Hk H. apply star_shape in H as [u [s' [E [Hu H]]]].
  rewrite LiteralFacts.match_literal in H.
  destruct (strip_prefix true name s') as [s2|] eqn:Es; [| discriminate H].
  destruct (strip_prefix_no_quote _ _ _ Hn Es) as [a [-> Ha]].
  destruct (Hk _ _ _ H) as [x [s3 [-> Hx]]].
  rewrite all_not_quote in Hu.
  rewrite <- !append_assoc in E.
  apply first_quote in E as [E1 [E2 E3]]; try assumption.
  - now subst.
  - now rewrite no_quote_append, Hd, Hn.
  - now rewrite no_quote_append, Hu, Ha.
Qed.

Lemma value_found (name dir rest : string) (k : continuation) (c : captures) :
  no_quote dir = true ->
  is_some (k rest c) = true ->
  is_some (match_star true (Class true [ascii_of_nat 34; "'"%char])
             (match_node true (seq_of (literal_terms name)) k)
             (dir ++ name ++ rest) c) = true.
Proof.
  intros Hd Hk. apply FindFacts.star_some; [now rewrite all_not_quote |].
  now rewrite LiteralFacts.match_literal, FindFacts.strip_prefix_self.
Qed.

(** A reference to the file in a src or href attribute is a match of
    the pattern of the second loop, up to the closing quote. *)
Lemma src_reference (name attr dir post : string) (q1 q2 : ascii) :
  attr = "src" \/ attr = "href" ->
  is_quote q1 = true -> is_quote q2 = true ->
  no_quote dir = true -> no_quote name = true ->
  exists caps,
    match_at (src_regexp name)
      (attr ++ "=" ++ String q1 (dir ++ name ++ String q2 post))
    = Some (post, caps).
Proof.
  intros Ha Hq1 Hq2 Hd Hn. unfold match_at.
  change (source (src_regexp name))
    with (Seq (Group 1 (alt_of (seq_of (literal_terms "src"))
                          [seq_of (literal_terms "href")]))
            (Seq (One (Lit "="))
               (Seq (One QUOTE)
                  (Seq (Group 2 (Seq (Star (Class true [ascii_of_nat 34; "'"%char]))
                                   (seq_of (literal_terms name))))
                     (Seq (One QUOTE) Empty))))).
  change (ignoreCase (src_regexp name)) with true.
  change (repeat None (groups (src_regexp name))) with [@None string; None].
  set (t := dir ++ name ++ String q2 post).
  assert (K : forall c,
            exists caps,
              match_node true
                (Seq (Group 2 (Seq (Star (Class true [ascii_of_nat 34; "'"%char]))
                                 (seq_of (literal_terms name))))
                   (Seq (One QUOTE) Empty))
                (fun s' c' => Some (s', c')) t c = Some (post, caps)).
  { intros c. cbn [match_node].
    match goal with
    | |- exists caps, match_star _ _ (match_node _ _ ?k) _ _ = _ => set (k0 := k)
    end.
    destruct (match_star true (Class true [ascii_of_nat 34; "'"%char])
                (match_node true (seq_of (literal_terms name)) k0) t c)
      as [r|] eqn:E.
    - subst t. apply value_match in E; try assumption.
      + subst k0. cbn [match_node] in E. rewrite FindFacts.class_quote, Hq2 in E.
        injection E as <-. eauto.
      + intros s c' r'. subst k0. cbn [match_node].
        destruct s as [|x s]; [discriminate |].
        rewrite FindFacts.class_quote. destruct (is_quote x) eqn:Ex; [| discriminate].
        eauto.
    - exfalso. subst t.
      pose proof (value_found name dir (String q2 post) k0 c Hd) as F.
      rewrite E in F. cbn [is_some] in F.
      assert (false = true); [apply F | discriminate].
      subst k0. cbn [match_node]. now rewrite FindFacts.class_quote, Hq2. }
  destruct Ha as [-> | ->]; cbn [match_node alt_of]; rewrite !LiteralFacts.match_literal.
  - rewrite FindFacts.strip_prefix_self. cbn [append].
    rewrite CaseFacts.equals_sign, Ascii.eqb_refl, FindFacts.class_quote, Hq1.
    match goal with
    | |- context [match_star _ _ _ t ?c] => destruct (K c) as [caps E]
    end.
    cbn [match_node] in E. rewrite E. eauto.
  - change (strip_prefix true "src" ("href" ++ ?x)) with (@None string).
    cbv iota. rewrite FindFacts.strip_prefix_self. cbn [append].
    rewrite CaseFacts.equals_sign, Ascii.eqb_refl, FindFacts.class_quote, Hq1.
    match goal with
    | |- context [match_star _ _ _ t ?c] => destruct (K c) as [caps E]
    end.
    cbn [match_node] in E. rewrite E. eauto.
Qed.

End ShapeFacts.

Module TagFacts.
Import RegExp.

Lemma link_source (name : string) :
  source (link_regexp name)
  = fold_right Seq
      (Seq (Star NOT_GT)
         (fold_right Seq
            (Seq (One QUOTE) (Seq (Star NOT_QUOTE) (fold_right Seq LINK_TAIL (literal_terms name))))
            (literal_terms "href=")))
      (literal_terms "<link").
Proof.
  unfold link_regexp, source, seq_of. rewrite !fold_right_app. reflexivity.
Qed.

Lemma gt_checked :
  forallb (fun c => Bool.eqb (charset_matches true (Lit ">") c) (Ascii.eqb c ">"))
    code_units = true.
Proof. vm_compute. reflexivity. Qed.

Lemma lit_gt (c : ascii) : charset_matches true (Lit ">") c = Ascii.eqb c ">".
Proof.
  pose proof gt_checked as H. rewrite forallb_forall in H.
  specialize (H c (CaseFacts.code_units_complete c)). now apply Bool.eqb_prop in H.
Qed.

Lemma all_gt (u : string) : all_match true NOT_GT u = no_char ">" u.
Proof.
  induction u as [|x u IH]; [reflexivity |].
  cbn [no_char all_match]. unfold NOT_GT at 1. now rewrite FindFacts.class_not_gt, IH.
Qed.

Lemma quote_not_gt (q : ascii) : is_quote q = true -> Ascii.eqb q ">" = false.
Proof.
  unfold is_quote. intros H. apply orb_prop in H as [H | H];
    apply Ascii.eqb_eq in H; subst q; reflexivity.
Qed.

(** The first occurrence of a character, and the last quote, are where
    they are. *)
Lemma first_char (x : ascii) (a : string) :
  forall a' r r',
    no_char x a = true -> no_char x a' = true ->
    a ++ String x r = a' ++ String x r' -> a = a' /\ r = r'.
Proof.
  induction a as [|y a IH]; intros a' r r' Ha Ha' E.
  - destruct a' as [|y' a']; cbn [append] in E.
    + injection E as ->. auto.
    + injection E as -> _. cbn [no_char] in Ha'. now rewrite Ascii.eqb_refl in Ha'.
  - destruct a' as [|y' a']; cbn [append] in E.
    + injection E as -> _. cbn [no_char] in Ha. now rewrite Ascii.eqb_refl in Ha.
    + injection E as -> E. cbn [no_char] in Ha, Ha'.
      apply andb_prop in Ha as [_ Ha]. apply andb_prop in Ha' as [_ Ha'].
      destruct (IH a' r r' Ha Ha' E) as [-> ->]. auto.
Qed.

Lemma occurrence (x : ascii) (b : string) :
  no_char x b = false ->
  exists b1 b2, b = b1 ++ String x b2 /\ no_char x b1 = true.
Proof.
  induction b as [|y b IH]; cbn [no_char]; [discriminate |].
  destruct (Ascii.eqb y x) eqn:E; cbn [negb andb].
  - intros _. apply Ascii.eqb_eq in E. subst y. now exists "", b.
  - intros H. destruct (IH H) as [b1 [b2 [-> H1]]].
    exists (String y b1), b2. cbn [no_char append]. now rewrite E, H1.
Qed.

Lemma quote_inside (a r : string) (q : ascii) :
  is_quote q = true -> no_quote (a ++ String q r) = false.
Proof.
  intros Hq. rewrite ShapeFacts.no_quote_append. cbn [no_quote]. rewrite Hq.
  now rewrite andb_false_r.
Qed.

Lemma last_quote (a : string) :
  forall a' q q' r r',
    no_quote r = true -> no_quote r' = true ->
    is_quote q = true -> is_quote q' = true ->
    a ++ String q r = a' ++ String q' r' -> a = a'.
Proof.
  induction a as [|y a IH]; intros a' q q' r r' Hr Hr' Hq Hq' E.
  - destruct a' as [|y' a']; [reflexivity |]. cbn [append] in E.
    injection E as _ ->. now rewrite quote_inside in Hr.
  - destruct a' as [|y' a']; cbn [append] in E.
    + injection E as _ <-. now rewrite quote_inside in Hr'.
    + injection E as -> E. f_equal. now apply IH with q q' r r'.
Qed.

Lemma last_character (a : string) :
  forall a' x x', a ++ String x "" = a' ++ String x' "" -> x = x'.
Proof.
  induction a as [|y a IH]; intros a' x x' E.
  - destruct a' as [|y' a']; cbn [append] in E; [now injection E |].
    injection E as _ E. destruct a'; discriminate E.
  - destruct a' as [|y' a']; cbn [append] in E.
    + injection E as _ E. destruct a; discriminate E.
    + injection E as _ E. now apply IH with a'.
Qed.

(** A text that matches a literal without quotes and [>], in any
    letter case, has neither. *)
Lemma strip_prefix_clean (w : string) :
  forall s s1,
    no_quote w = true -> no_char ">" w = true ->
    strip_prefix true w s = Some s1 ->
    exists a, s = a ++ s1 /\ no_quote a = true /\ no_char ">" a = true /\
              strip_prefix true w a = Some "".
Proof.
  induction w as [|x w IH]; intros s s1 Hw Hg; cbn [strip_prefix].
  - intros H. injection H as <-. now exists "".
  - destruct s as [|y s]; [discriminate |].
    destruct (Ascii.eqb (canonicalize true x) (canonicalize true y)) eqn:E;
      [| discriminate].
    cbn [no_quote no_char] in Hw, Hg.
    apply andb_prop in Hw as [Hx Hw]. apply andb_prop in Hg as [Hy Hg].
    intros H. destruct (IH s s1 Hw Hg H) as [a [-> [Ha [Ha' Hs]]]].
    exists (String y a). split; [reflexivity |].
    cbn [no_quote no_char strip_prefix]. rewrite Ha, Ha', E, Hs.
    apply Ascii.eqb_eq in E.
    rewrite <- (ShapeFacts.is_quote_canonical y), <- (ShapeFacts.is_gt_canonical y), <- E.
    rewrite ShapeFacts.is_quote_canonical, ShapeFacts.is_gt_canonical, Hx, Hy. auto.
Qed.

Lemma tail_shape (s : string) (c : captures) (r : string * captures) :
  match_node true LINK_TAIL accept s c = Some r ->
  exists x cc rest,
    s = String x (cc ++ String ">" rest) /\ is_quote x = true /\
    no_char ">" cc = true /\ r = (rest, c).
Proof.
  unfold LINK_TAIL. cbn [match_node]. destruct s as [|x s]; [discriminate |].
  rewrite FindFacts.class_quote. destruct (is_quote x) eqn:Ex; [| discriminate].
  intros H. apply ShapeFacts.star_shape in H as [u [s' [-> [Hu H]]]].
  destruct s' as [|y s']; [discriminate H |].
  rewrite lit_gt in H. destruct (Ascii.eqb y ">") eqn:Ey; [| discriminate H].
  apply Ascii.eqb_eq in Ey. subst y. injection H as <-.
  rewrite all_gt in Hu. exists x, u, s'. auto.
Qed.

Lemma tail_found (q2 : ascii) (attrs2 post : string) (c : captures) :
  is_quote q2 = true -> no_char ">" attrs2 = true ->
  is_some (match_node true LINK_TAIL accept (String q2 (attrs2 ++ String ">" post)) c) = true.
Proof.
  intros Hq Ha. unfold LINK_TAIL. cbn [match_node]. rewrite FindFacts.class_quote, Hq.
  apply FindFacts.star_some; [now rewrite all_gt |].
  now rewrite lit_gt.
Qed.

Lemma after_star_found (name dir attrs2 post : string) (q1 q2 : ascii) (c : captures) :
  is_quote q1 = true -> is_quote q2 = true ->
  no_quote dir = true -> no_char ">" attrs2 = true ->
  is_some (after_star name
             ("href=" ++ String q1 (dir ++ name ++ String q2 (attrs2 ++ String ">" post)))
             c) = true.
Proof.
  intros Hq1 Hq2 Hd Ha. unfold after_star.
  rewrite FindFacts.match_literal_then, FindFacts.strip_prefix_self.
  cbn [match_node]. rewrite FindFacts.class_quote, Hq1.
  apply FindFacts.star_some; [unfold NOT_QUOTE; now rewrite ShapeFacts.all_not_quote |].
  rewrite FindFacts.match_literal_then, FindFacts.strip_prefix_self.
  now apply tail_found.
Qed.

Lemma after_star_shape (name s : string) (c : captures) (r : string * captures) :
  no_quote name = true -> no_char ">" name = true ->
  after_star name s c = Some r ->
  exists h4 qa b n qb cc rest,
    s = h4 ++ String "=" (String qa (b ++ n ++ String qb (cc ++ String ">" rest))) /\
    no_char ">" h4 = true /\ no_quote h4 = true /\
    is_quote qa = true /\ no_quote b = true /\
    no_quote n = true /\ no_char ">" n = true /\
    is_quote qb = true /\ no_char ">" cc = true /\ r = (rest, c).
Proof.
  intros Hn Hg. unfold after_star. rewrite FindFacts.match_literal_then.
  destruct (strip_prefix true "href=" s) as [s1|] eqn:Es; [| discriminate].
  destruct (strip_prefix_clean "href=" _ _ eq_refl eq_refl Es) as [h5 [-> [Hh [Hh' Hs]]]].
  assert (exists h4, h5 = h4 ++ String "=" "" /\ no_char ">" h4 = true /\
                     no_quote h4 = true) as [h4 [-> [H4 H4']]].
  { destruct h5 as [|c1 [|c2 [|c3 [|c4 [|c5 [|c6 h5]]]]]]; cbn [strip_prefix] in Hs;
      repeat match type of Hs with
             | (if ?b then _ else _) = _ => destruct b eqn:?; [| discriminate Hs]
             | _ => discriminate Hs
             end.
    match goal with
    | E : Ascii.eqb (canonicalize true "=") (canonicalize true c5) = true |- _ =>
        change (charset_matches true (Lit "=") c5 = true) in E;
        rewrite CaseFacts.equals_sign in E; apply Ascii.eqb_eq in E; subst c5
    end.
    exists (String c1 (String c2 (String c3 (String c4 "")))).
    split; [reflexivity |].
    cbn [no_char no_quote] in *.
    repeat match goal with
           | H : _ && _ = true |- _ => apply andb_prop in H as [? ?]
           end.
    repeat match goal with
           | H : ?x = true |- context [?x] => rewrite H
           end.
    auto. }
  cbn [match_node]. destruct s1 as [|qa s2]; [discriminate |].
  rewrite FindFacts.class_quote. destruct (is_quote qa) eqn:Eqa; [| discriminate].
  intros H. apply ShapeFacts.star_shape in H as [b [s3 [-> [Hb H]]]].
  unfold NOT_QUOTE in Hb. rewrite ShapeFacts.all_not_quote in Hb.
  rewrite FindFacts.match_literal_then in H.
  destruct (strip_prefix true name s3) as [s4|] eqn:E3; [| discriminate H].
  destruct (strip_prefix_clean name _ _ Hn Hg E3) as [n [-> [Hn1 [Hn2 _]]]].
  apply tail_shape in H as [qb [cc [rest [-> [Hqb [Hcc ->]]]]]].
  exists h4, qa, b, n, qb, cc, rest.
  rewrite append_assoc. cbn [append]. auto 12.
Qed.

End TagFacts.

Module LinkFacts.
Import RegExp.
Import TagFacts.

Lemma tag_parts (a h d n t p : string) (q q' x : ascii) :
  a ++ h ++ String q (d ++ n ++ String q' (t ++ String x p))
  = (a ++ h ++ String q (d ++ n ++ String q' t)) ++ String x p.
Proof.
  rewrite !append_assoc. cbn [append]. rewrite !append_assoc. cbn [append].
  reflexivity.
Qed.

Ltac assoc := repeat (rewrite ?append_assoc; cbn [append]); reflexivity.

Ltac no_gt :=
  rewrite ?Base64Facts.no_char_append; cbn [no_char append];
  rewrite ?Base64Facts.no_char_append; cbn [no_char];
  repeat match goal with
         | H : is_quote ?q = true |- context [Ascii.eqb ?q ">"] =>
             rewrite (quote_not_gt q H)
         end;
  repeat match goal with
         | H : no_char ">" ?x = true |- context [no_char ">" ?x] => rewrite H
         end;
  reflexivity.

(** A link tag with the file name at the end of its quoted href is a
    match of the pattern of the first loop, up to its closing [>]. *)
Lemma link_tag_match (name stem attrs1 dir attrs2 post : string) (q1 q2 : ascii) :
  name = stem ++ ".css" ->
  no_quote name = true -> no_char ">" name = true ->
  no_char ">" attrs1 = true ->
  is_quote q1 = true -> is_quote q2 = true ->
  no_quote dir = true -> no_char ">" dir = true ->
  no_quote attrs2 = true -> no_char ">" attrs2 = true ->
  match_at (link_regexp name)
    ("<link" ++ attrs1 ++ "href="
     ++ String q1 (dir ++ name ++ String q2 (attrs2 ++ String ">" post)))
  = Some (post, []).
Proof.
  intros Hs Hn Hng Ha1 Hq1 Hq2 Hd Hdg Ha2 Ha2g.
  unfold match_at. rewrite link_source.
  change (ignoreCase (link_regexp name)) with true.
  change (repeat None (groups (link_regexp name))) with (@nil (option string)).
  rewrite FindFacts.match_literal_then, FindFacts.strip_prefix_self.
  cbn [match_node]. fold accept. fold (after_star name).
  set (X := attrs1 ++ "href="
            ++ String q1 (dir ++ name ++ String q2 (attrs2 ++ String ">" post))).
  assert (HW : no_char ">" (attrs1 ++ "href=" ++ String q1 (dir ++ name ++ String q2 attrs2))
               = true).
  { no_gt. }
  destruct (match_star true NOT_GT (after_star name) X []) as [r|] eqn:E.
  - apply ShapeFacts.star_shape in E as [u [s' [EX [Hu E]]]].
    rewrite all_gt in Hu.
    apply after_star_shape in E
      as [h4 [qa [b [n [qb [cc [rest [-> [H4 [H4' [Hqa [Hb [Hn1 [Hn2 [Hqb [Hcc ->]]]]]]]]]]]]]]]];
      try assumption.
    f_equal. f_equal. subst X.
    destruct (no_char ">" b) eqn:Eb.
    + assert (EX' : (attrs1 ++ "href=" ++ String q1 (dir ++ name ++ String q2 attrs2))
                    ++ String ">" post
                    = (u ++ h4 ++ String "=" (String qa (b ++ n ++ String qb cc)))
                      ++ String ">" rest).
      { rewrite <- tag_parts, EX. assoc. }
      apply first_char in EX' as [_ EX']; [now symmetry | exact HW | no_gt].
    + exfalso. destruct (occurrence _ _ Eb) as [b1 [b2 [-> Hb1]]].
      rewrite ShapeFacts.no_quote_append in Hb. apply andb_prop in Hb as [Hb _].
      assert (EX' : (attrs1 ++ "href=" ++ String q1 (dir ++ name ++ String q2 attrs2))
                    ++ String ">" post
                    = (u ++ h4 ++ String "=" (String qa b1))
                      ++ String ">" (b2 ++ n ++ String qb (cc ++ String ">" rest))).
      { rewrite <- tag_parts, EX. assoc. }
      apply first_char in EX' as [EW _]; [| exact HW | no_gt].
      assert (EW' : (attrs1 ++ "href=" ++ String q1 (dir ++ stem ++ ".cs") ++ "s")
                    ++ String q2 attrs2
                    = ((u ++ h4) ++ "=") ++ String qa b1).
      { transitivity (attrs1 ++ "href=" ++ String q1 (dir ++ name ++ String q2 attrs2));
          [rewrite Hs; assoc | rewrite EW; assoc]. }
      apply last_quote in EW'; try assumption.
      rewrite <- !append_assoc in EW'. apply last_character in EW'. discriminate EW'.
  - exfalso. subst X.
    pose proof (FindFacts.star_some true NOT_GT (after_star name) attrs1 _ []
                  ltac:(now rewrite all_gt)
                  (after_star_found name dir attrs2 post q1 q2 [] Hq1 Hq2 Hd Ha2g)) as F.
    rewrite E in F. discriminate F.
Qed.

End LinkFacts.

Module PathFacts.

(** The file name is the end of the path. *)
Lemma last_piece (sep : ascii) (s : string) :
  forall cur, exists u, cur ++ s = u ++ (pop (split_from sep cur s) ?? "").
Proof.
  induction s as [|c s IH]; intros cur; cbn [split_from].
  - exists "". cbn. apply append_nil_r.
  - destruct (Ascii.eqb c sep).
    + rewrite SplitFacts.pop_cons by apply SplitFacts.split_from_nonempty.
      destruct (IH "") as [u Hu]. exists (cur ++ String c u).
      cbn [append] in Hu. rewrite append_assoc. cbn [append]. now rewrite <- Hu.
    + destruct (IH (cur ++ String c "")) as [u Hu]. exists u.
      rewrite <- Hu. rewrite append_assoc. reflexivity.
Qed.

Lemma basename_suffix (filePath : string) :
  exists folder, filePath = folder ++ basename filePath.
Proof. apply (last_piece "/" filePath ""). Qed.

Lemma last_piece_suffix (sep : ascii) (w : string) :
  no_char sep w = true ->
  forall u cur, exists x, pop (split_from sep cur (u ++ w)) = Some (x ++ w).
Proof.
  intros Hw. induction u as [|c u IH]; intros cur.
  - cbn [append]. rewrite (SplitFacts.split_without sep w Hw). now exists cur.
  - cbn [append split_from]. destruct (Ascii.eqb c sep).
    + rewrite SplitFacts.pop_cons by apply SplitFacts.split_from_nonempty. apply IH.
    + apply IH.
Qed.

Lemma basename_css (filePath : string) :
  endsWith filePath ".css" = true -> exists stem, basename filePath = stem ++ ".css".
Proof.
  intros H. apply SuffixFacts.endsWith_suffix in H as [u ->].
  destruct (last_piece_suffix "/" ".css" eq_refl u "") as [x Hx].
  exists x. unfold basename, split. now rewrite Hx.
Qed.

End PathFacts.

(** X22.  A link tag to the style sheet is replaced.  The entry is a
    text entry whose path ends in .css, is not theme.css and has no
    quote and no [>]; its text has no [$].  The document has a link tag
    in lower case whose href value, between quotes of either kind, is
    any folder followed by the file name of the entry; the attributes
    before href have no [>], the folder and the attributes after href
    have no quote and no [>], and no match of the pattern starts before
    the tag.  Then the tag, from [<link] to its [>], is replaced by the
    style block, the text before it stays, and the text after it is
    treated by the same step.  The folder in the href is not compared
    with the folder of the entry. *)
Theorem inline_css_replaces_link_tag
        (filePath css pre attrs1 dir attrs2 post : string) (q1 q2 : ascii)
        (re : RegExp.regexp) :
  endsWith filePath ".css" = true ->
  filePath <> "theme.css" ->
  no_dollar css = true ->
  no_quote filePath = true -> no_char ">" filePath = true ->
  no_char ">" attrs1 = true ->
  is_quote q1 = true -> is_quote q2 = true ->
  no_quote dir = true -> no_char ">" dir = true ->
  no_quote attrs2 = true -> no_char ">" attrs2 = true ->
  RegExp.RegExp_new (link_pattern (_escapeRegex (basename filePath))) "gi" = Some re ->
  none_starts re pre
    (link_tag attrs1 q1 (dir ++ basename filePath) q2 attrs2 ++ post) = true ->
  exists rest,
    inline_css [(filePath, Text css)] post = Return rest /\
    inline_css [(filePath, Text css)]
      (pre ++ link_tag attrs1 q1 (dir ++ basename filePath) q2 attrs2 ++ post)
    = Return (pre ++ style_tag css ++ rest).
Proof.
  intros He Hn Hplain Hq Hg Ha1 Hq1 Hq2 Hd Hdg Ha2 Ha2g Hre Hpre.
  rewrite PatternForms.link_pattern_regexp in Hre. injection Hre as <-.
  destruct (PathFacts.basename_suffix filePath) as [folder Ef].
  destruct (PathFacts.basename_css filePath He) as [stem Es].
  set (name := basename filePath) in *.
  assert (Hnq : no_quote name = true).
  { rewrite Ef, ShapeFacts.no_quote_append in Hq. now apply andb_prop in Hq as [_ Hq]. }
  assert (Hng : no_char ">" name = true).
  { rewrite Ef, Base64Facts.no_char_append in Hg. now apply andb_prop in Hg as [_ Hg]. }
  assert (Et : link_tag attrs1 q1 (dir ++ name) q2 attrs2 ++ post
               = "<link" ++ attrs1 ++ "href="
                 ++ String q1 (dir ++ name ++ String q2 (attrs2 ++ String ">" post))).
  { unfold link_tag. LinkFacts.assoc. }
  pose proof (LinkFacts.link_tag_match name stem attrs1 dir attrs2 post q1 q2
                Es Hnq Hng Ha1 Hq1 Hq2 Hd Hdg Ha2 Ha2g) as Hm.
  rewrite <- Et in Hm.
  pose proof (ShapeFacts.search_at _ _ _ _ Hm pre Hpre) as Hs.
  pose proof (CssLoopFacts.css_leftmost filePath css
                (pre ++ link_tag attrs1 q1 (dir ++ name) q2 attrs2 ++ post)
                He Hn Hplain) as H.
  fold name in H. rewrite Hs in H. destruct H as [_ H]. exact H.
Qed.

Lemma inline_css_replaces_link_tag_witness :
  inline_css [("css/site.css", Text "p{}")]
    "<head><link rel='stylesheet' href='../styles/site.css' /></head>"
  = Return ("<head>" ++ style_tag "p{}" ++ "</head>").
Proof.
  destruct (inline_css_replaces_link_tag "css/site.css" "p{}" "<head>"
              " rel='stylesheet' " "../styles/" " /" "</head>" "'" "'"
              (link_regexp "site.css")
              eq_refl ltac:(discriminate) eq_refl eq_refl eq_refl eq_refl eq_refl
              eq_refl eq_refl eq_refl eq_refl eq_refl eq_refl eq_refl)
    as [rest [Hr H]].
  vm_compute in Hr. injection Hr as <-. exact H.
Defined.

(** X23.  A reference to the image is replaced.  The entry is a binary
    entry whose path [_isImagePath] accepts and has no quote.  The
    document has the attribute src or href, in lower case, whose value,
    between quotes of either kind, is any folder without quotes
    followed by the file name of the entry, and no match of the pattern
    starts before the attribute.  Then the attribute is replaced by its
    name, an equals sign and the data URL of the image between double
    quotes, the text before it stays, and the text after it is treated
    by the same step.  The folder in the value is not compared with the
    folder of the entry, and single quotes become double quotes. *)
Theorem inline_image_replaces_reference
        (filePath : string) (b : bytes) (pre attr dir post : string) (q1 q2 : ascii)
        (re : RegExp.regexp) :
  _isImagePath filePath = true ->
  no_quote filePath = true ->
  attr = "src" \/ attr = "href" ->
  is_quote q1 = true -> is_quote q2 = true ->
  no_quote dir = true ->
  RegExp.RegExp_new (src_pattern (_escapeRegex (basename filePath))) "gi" = Some re ->
  none_starts re pre
    (attribute attr q1 (dir ++ basename filePath) q2 ++ post) = true ->
  exists rest,
    inline_images [(filePath, Binary b)] post = Return rest /\
    inline_images [(filePath, Binary b)]
      (pre ++ attribute attr q1 (dir ++ basename filePath) q2 ++ post)
    = Return (pre ++ attribute attr (ascii_of_nat 34) (data_url filePath b)
                       (ascii_of_nat 34) ++ rest).
Proof.
  intros Hi Hq Ha Hq1 Hq2 Hd Hre Hpre.
  rewrite PatternForms.src_pattern_regexp in Hre. injection Hre as <-.
  destruct (PathFacts.basename_suffix filePath) as [folder Ef].
  set (name := basename filePath) in *.
  assert (Hnq : no_quote name = true).
  { rewrite Ef, ShapeFacts.no_quote_append in Hq. now apply andb_prop in Hq as [_ Hq]. }
  assert (Et : attribute attr q1 (dir ++ name) q2 ++ post
               = attr ++ "=" ++ String q1 (dir ++ name ++ String q2 post)).
  { unfold attribute. LinkFacts.assoc. }
  destruct (ShapeFacts.src_reference name attr dir post q1 q2 Ha Hq1 Hq2 Hd Hnq)
    as [caps Hm].
  rewrite <- Et in Hm.
  pose proof (ShapeFacts.search_at _ _ _ _ Hm pre Hpre) as Hs.
  rewrite consumed_append in Hs.
  pose proof (ImageLoopFacts.image_leftmost filePath b
                (pre ++ attribute attr q1 (dir ++ name) q2 ++ post) Hi) as H.
  fold name in H. rewrite Hs in H.
  destruct H as [_ [attr' [tail [rest [Er [Hl [Hr H]]]]]]].
  exists rest. split; [exact Hr |]. rewrite H. f_equal. f_equal.
  assert (Ea : attr' = attr).
  { clearbody name. unfold attribute in Er.
    destruct Ha as [-> | ->], Hl as [Hl | Hl];
      destruct attr' as [|a1 [|a2 [|a3 [|a4 [|a5 attr']]]]]; try discriminate Hl;
      cbn [append] in Er; inversion Er; subst; try discriminate Hl; reflexivity. }
  subst attr'. unfold attribute, dquote. LinkFacts.assoc.
Qed.

Lemma inline_image_replaces_reference_witness :
  inline_images [("img/a.png", Binary [Byte.x4d; Byte.x61; Byte.x6e])]
    "<img alt='' src='../pictures/a.png'>"
  = Return ("<img alt='' "
            ++ attribute "src" (ascii_of_nat 34) "data:image/png;base64,TWFu"
                 (ascii_of_nat 34) ++ ">").
Proof.
  destruct (inline_image_replaces_reference "img/a.png"
              [Byte.x4d; Byte.x61; Byte.x6e] "<img alt='' " "src" "../pictures/" ">"
              "'" "'" (src_regexp "a.png")
              eq_refl eq_refl (or_introl eq_refl) eq_refl eq_refl eq_refl
              eq_refl eq_refl) as [rest [Hr H]].
  vm_compute in Hr. injection Hr as <-. exact H.
Defined.

(** X24.  The first step replaces a link tag to theme.css.  With a
    non-empty text theme.css without [$], and a document that has a
    link tag in lower case whose href value, between quotes of either
    kind, is any folder followed by theme.css, under the same
    conditions on the tag as for the other style sheets and with no
    match of the pattern before it, the tag is replaced by the style
    block around theme.css, the text before it stays, and the text
    after it is treated by the same step. *)
Theorem inline_theme_replaces_link_tag
        (files : FileSet) (css pre attrs1 dir attrs2 post : string) (q1 q2 : ascii) :
  files_get files "theme.css" = Some (Text css) ->
  css <> "" ->
  no_dollar css = true ->
  no_char ">" attrs1 = true ->
  is_quote q1 = true -> is_quote q2 = true ->
  no_quote dir = true -> no_char ">" dir = true ->
  no_quote attrs2 = true -> no_char ">" attrs2 = true ->
  none_starts THEME_LINK pre
    (link_tag attrs1 q1 (dir ++ "theme.css") q2 attrs2 ++ post) = true ->
  inline_theme (pre ++ link_tag attrs1 q1 (dir ++ "theme.css") q2 attrs2 ++ post) files
  = pre ++ style_tag css ++ inline_theme post files.
Proof.
  intros Hget Hne Hplain Ha1 Hq1 Hq2 Hd Hdg Ha2 Ha2g Hpre.
  assert (Et : link_tag attrs1 q1 (dir ++ "theme.css") q2 attrs2 ++ post
               = "<link" ++ attrs1 ++ "href="
                 ++ String q1 (dir ++ "theme.css" ++ String q2 (attrs2 ++ String ">" post))).
  { unfold link_tag. LinkFacts.assoc. }
  pose proof (LinkFacts.link_tag_match "theme.css" "theme" attrs1 dir attrs2 post q1 q2
                eq_refl eq_refl eq_refl Ha1 Hq1 Hq2 Hd Hdg Ha2 Ha2g) as Hm.
  rewrite <- Et in Hm.
  change (RegExp.match_at (link_regexp "theme.css") ?s)
    with (RegExp.match_at THEME_LINK s) in Hm.
  pose proof (ShapeFacts.search_at _ _ _ _ Hm pre Hpre) as Hs.
  unfold inline_theme. rewrite Hget.
  assert (Ht : truthy (Some css) = true).
  { cbn. destruct css; [now destruct Hne | reflexivity]. }
  rewrite Ht.
  assert (Htag : no_dollar (style_tag css) = true).
  { unfold style_tag. rewrite !ReplaceFacts.no_dollar_append, Hplain. reflexivity. }
  unfold RegExp.replace. change (RegExp.global THEME_LINK) with true. cbv iota.
  eapply ReplaceFacts.replace_from_search; try eassumption.
  eapply ReplaceFacts.starts_with_character. reflexivity.
Qed.

Lemma inline_theme_replaces_link_tag_witness :
  inline_theme "<head><link rel='stylesheet' href='./theme.css'></head>"
    [("theme.css", Text "body{}")]
  = "<head>" ++ style_tag "body{}" ++ "</head>".
Proof.
  exact (inline_theme_replaces_link_tag [("theme.css", Text "body{}")] "body{}"
           "<head>" " rel='stylesheet' " "./" "" "</head>" "'" "'"
           eq_refl ltac:(discriminate) eq_refl eq_refl eq_refl eq_refl eq_refl
           eq_refl eq_refl eq_refl eq_refl).
Defined.

(* ===================================================================== *)
(** * Undefined properties *)
(* ===================================================================== *)

Lemma read_omitted {A} (a b : field A) :
  a = Absent -> read (spread a (omitted b)) = read (spread a b).
Proof. intros ->. destruct b; reflexivity. Qed.

Lemma read_omitted_default {A} (d : A) (b : field A) :
  read (spread (Present d) (omitted b)) ?? d = read (spread (Present d) b) ?? d.
Proof. destruct b; reflexivity. Qed.

(** X25.  A property given as undefined counts as left out, the
    format apart: [convert] does the same, call for call, and returns
    the same, with the options as given and with the options without
    their undefined properties.  The fallbacks of the render step are
    the defaults: 90 for quality, 1 for scale, 1000 for waitTime and
    false for transparent.  The format is the exception: given as
    undefined it takes the place of the default png, so the screenshot
    is taken as png but without omitBackground, whereas a format left
    out passes omitBackground on. *)
Theorem undefined_is_omission (env : Env) (source : ConversionSource)
        (o : ImageConversionOptions) (w : World) :
  convert env source (Some o) w = convert env source (Some (without_undefined o)) w /\
  read (Options.format (_mergeOptions (Some (with_format Undefined o)))) = None /\
  screenshotOptions (_mergeOptions (Some (with_format Undefined o)))
  = {| type := "png"; fullPage := true; shot_quality := None; omitBackground := None |} /\
  screenshotOptions (_mergeOptions (Some (with_format Absent o)))
  = {| type := "png"; fullPage := true; shot_quality := None;
       omitBackground :=
         Some (read (Options.transparent (_mergeOptions (Some o))) ?? false) |}.
Proof.
  split; [| repeat split].
  set (m1 := _mergeOptions (Some o)).
  set (m2 := _mergeOptions (Some (without_undefined o))).
  assert (Ef : Options.format m2 = Options.format m1) by reflexivity.
  assert (Eq : read (Options.quality m2) ?? num 90 = read (Options.quality m1) ?? num 90)
    by apply read_omitted_default.
  assert (Es : read (Options.scale m2) ?? num 1 = read (Options.scale m1) ?? num 1)
    by apply read_omitted_default.
  assert (Et : read (Options.transparent m2) ?? false
               = read (Options.transparent m1) ?? false)
    by apply read_omitted_default.
  assert (Ew : read (Options.waitTime m2) ?? num 1000
               = read (Options.waitTime m1) ?? num 1000)
    by apply read_omitted_default.
  assert (Ex : read (Options.width m2) = read (Options.width m1))
    by now apply read_omitted.
  assert (Ey : read (Options.height m2) = read (Options.height m1))
    by now apply read_omitted.
  assert (Ep : read (Options.outputPath m2) = read (Options.outputPath m1))
    by now apply read_omitted.
  assert (Ei : read (Options.themeId m2) = read (Options.themeId m1))
    by now apply read_omitted.
  assert (Eo : read (Options.onProgress m2) = read (Options.onProgress m1))
    by now apply read_omitted.
  assert (Esh : screenshotOptions m2 = screenshotOptions m1).
  { unfold screenshotOptions, is_jpeg. now rewrite Ef, Eq, Et. }
  assert (Ee : fst (collect m2) = fst (collect m1)).
  { rewrite !collect_errors. unfold errors_of. rewrite Ef, Ex, Ey.
    subst m1 m2. cbn [_mergeOptions spread_options Options.quality Options.scale
                        Options.waitTime without_undefined DEFAULT_OPTIONS].
    destruct (Options.quality o), (Options.scale o), (Options.waitTime o);
      reflexivity. }
  assert (Ev : Validation.valid (validateOptions m2) = Validation.valid (validateOptions m1)
               /\ Validation.errors (validateOptions m2)
                  = Validation.errors (validateOptions m1)).
  { unfold validateOptions. destruct (collect m1) as [e1 w1], (collect m2) as [e2 w2].
    cbn [fst] in Ee. subst e2. now cbn. }
  destruct Ev as [Ev1 Ev2].
  unfold convert, _renderHTMLToImage, render_page, reportProgress. cbv zeta.
  fold m1 m2. rewrite Ev1, Ev2, Eo, Ei, Ep, Ef, Ex, Ey, Es, Ew, Esh. reflexivity.
Qed.
